(** * pcc-check-reservations: a shallow embedding and its properties

    The script polls a reservation calendar and, per reservation, starts a
    virtual cluster, detects that it is up, or shuts it down.  Its functions
    are embedded here as programs of a state-and-exception monad over a
    world made of the local files, the Python object heap and the trace of
    the interactions with the outside (shell commands, HTTP requests). *)

From Stdlib Require Import ZArith Ascii String List Bool Lia.
From stdpp Require Import gmap strings list fin_maps pretty.

Local Open Scope Z_scope.
Local Set Warnings "-register-all".

(** ** Strings *)

Module Str.

Definition nl_char : ascii := "010"%char.
Definition dquote_char : ascii := "034"%char.
Definition squote_char : ascii := "039"%char.
Definition slash_char : ascii := "/"%char.

Definition nl : string := String nl_char EmptyString.
Definition dquote : string := String dquote_char EmptyString.

Definition chars (s : string) : list ascii := list_ascii_of_string s.
Definition of_chars (l : list ascii) : string := string_of_list_ascii l.

Definition is_empty (s : string) : bool :=
  match s with EmptyString => true | _ => false end.

Fixpoint concat (l : list string) : string :=
  match l with
  | [] => EmptyString
  | s :: l' => s +:+ concat l'
  end.

(** [sep.join(l)] *)
Fixpoint join (sep : string) (l : list string) : string :=
  match l with
  | [] => EmptyString
  | [s] => s
  | s :: l' => s +:+ sep +:+ join sep l'
  end.

(** [s.startswith(p)] on character lists; the rest is returned. *)
Fixpoint strip_prefix (p s : list ascii) : option (list ascii) :=
  match p, s with
  | [], _ => Some s
  | a :: p', b :: s' => if Ascii.eqb a b then strip_prefix p' s' else None
  | _ :: _, [] => None
  end.

Definition startswith (s p : string) : bool :=
  match strip_prefix (chars p) (chars s) with Some _ => true | None => false end.

Definition last_char (s : string) : option ascii := last (chars s).

Definition endswith_char (s : string) (c : ascii) : bool :=
  match last_char s with Some d => Ascii.eqb c d | None => false end.

(** [s.split(sep)] for a non-empty separator: the pieces between the
    occurrences of [sep], scanned from the left; always at least one
    piece. [cur] holds the current piece, reversed. *)
Fixpoint split_go (sep : list ascii) (cur : list ascii) (s : list ascii)
    (n : nat) : list (list ascii) :=
  match n with
  | O => [rev cur]
  | S n' =>
      match s with
      | [] => [rev cur]
      | a :: s' =>
          match strip_prefix sep s with
          | Some rest => rev cur :: split_go sep [] rest n'
          | None => split_go sep (a :: cur) s' n'
          end
      end
  end.

Definition split (s sep : string) : list string :=
  map of_chars (split_go (chars sep) [] (chars s) (S (String.length s))).

(** [s.replace(old, new)]: every occurrence of [old], from the left, not
    overlapping; an empty [old] occurs before every character and at the
    end. *)
Definition replace (s old new : string) : string :=
  if is_empty old
  then new +:+ concat (map (fun a => String a new) (chars s))
  else join new (split s old).

(** [re.split("\s+", s)]: the pieces between maximal runs of white space. *)
Fixpoint split_ws_go (cur : list ascii) (in_ws : bool) (s : list ascii)
    : list (list ascii) :=
  match s with
  | [] => [rev cur]
  | a :: s' =>
      if Ascii.is_space a
      then (if in_ws then split_ws_go cur true s'
            else rev cur :: split_ws_go [] true s')
      else split_ws_go (a :: cur) false s'
  end.

Definition split_ws (s : string) : list string :=
  map of_chars (split_ws_go [] false (chars s)).

(** The lines of a file as [for line in f] yields them: each keeps its
    newline, the last one may lack it. *)
Fixpoint lines_go (cur : list ascii) (s : list ascii) : list (list ascii) :=
  match s with
  | [] => match cur with [] => [] | _ => [rev cur] end
  | a :: s' =>
      if Ascii.eqb a nl_char
      then rev (a :: cur) :: lines_go [] s'
      else lines_go (a :: cur) s'
  end.

Definition lines (s : string) : list string :=
  map of_chars (lines_go [] (chars s)).

End Str.

(** ** Regular expressions

    The patterns of the script, as abstract syntax, and a backtracking
    matcher with the priorities of Python's [re]: greedy repetition, the
    first successful alternative wins, a group keeps its last capture. *)

Module Re.

(** One-character matchers. *)
Inductive atom : Type :=
  | Dot                                   (* the dot: anything but a newline *)
  | Ws                                    (* \s *)
  | NWs                                   (* \S *)
  | Dig                                   (* \d *)
  | Lit (c : ascii).

Inductive cls : Type :=
  | Atom (a : atom)
  | AnyOf (items : list atom)             (* [...] *)
  | NoneOf (items : list atom).           (* [^...] *)

Coercion Atom : atom >-> cls.

Inductive re : Type :=
  | Eps
  | One (c : cls)
  | Cat (r1 r2 : re)
  | Star (r : re)
  | Plus (r : re)
  | Opt (r : re)
  | Group (i : nat) (r : re)              (* the (i+1)-th parenthesis *)
  | Eol.                                  (* $ *)

Fixpoint lit (s : string) : re :=
  match s with
  | EmptyString => Eps
  | String c EmptyString => One (Lit c)
  | String c s' => Cat (One (Lit c)) (lit s')
  end.

Fixpoint cat (l : list re) : re :=
  match l with
  | [] => Eps
  | [r] => r
  | r :: l' => Cat r (cat l')
  end.

Definition is_digit (a : ascii) : bool :=
  match Ascii.is_nat a with Some _ => true | None => false end.

Definition atom_match (c : atom) (a : ascii) : bool :=
  match c with
  | Dot => negb (Ascii.eqb a Str.nl_char)
  | Ws => Ascii.is_space a
  | NWs => negb (Ascii.is_space a)
  | Dig => is_digit a
  | Lit b => Ascii.eqb a b
  end.

Definition cls_match (c : cls) (a : ascii) : bool :=
  match c with
  | Atom i => atom_match i a
  | AnyOf items => existsb (fun i => atom_match i a) items
  | NoneOf items => negb (existsb (fun i => atom_match i a) items)
  end.

Fixpoint ngroups (r : re) : nat :=
  match r with
  | Eps | One _ | Eol => 0
  | Cat r1 r2 => ngroups r1 + ngroups r2
  | Star r' | Plus r' | Opt r' => ngroups r'
  | Group _ r' => S (ngroups r')
  end%nat.

Definition caps : Type := list (option string).
Definition cont : Type := list ascii -> caps -> option caps.

(** [r*] as a loop over a matcher [m] for [r]: one more round first, and
    only if it consumed input; [n] bounds the rounds by the input left. *)
Fixpoint star_loop (m : list ascii -> caps -> cont -> option caps)
    (n : nat) (s : list ascii) (c : caps) (k : cont) : option caps :=
  match n with
  | O => k s c
  | S n' =>
      match m s c (fun s' c' =>
               if (List.length s' <? List.length s)%nat
               then star_loop m n' s' c' k else None) with
      | Some x => Some x
      | None => k s c
      end
  end.

(** [multiline] is the flag re.MULTILINE, which only [$] looks at. *)
Fixpoint mt (multiline : bool) (r : re) (s : list ascii) (c : caps)
    (k : cont) : option caps :=
  match r with
  | Eps => k s c
  | One p =>
      match s with
      | a :: s' => if cls_match p a then k s' c else None
      | [] => None
      end
  | Cat r1 r2 => mt multiline r1 s c (fun s' c' => mt multiline r2 s' c' k)
  | Star r' => star_loop (mt multiline r') (List.length s) s c k
  | Plus r' =>
      mt multiline r' s c (fun s' c' =>
        star_loop (mt multiline r') (List.length s') s' c' k)
  | Opt r' =>
      match mt multiline r' s c k with
      | Some x => Some x
      | None => k s c
      end
  | Group i r' =>
      mt multiline r' s c (fun s' c' =>
        k s' (<[i := Some (Str.of_chars
                 (take (List.length s - List.length s') s))]> c'))
  | Eol =>
      match s with
      | [] => k s c
      | a :: s' =>
          if Ascii.eqb a Str.nl_char && (multiline || Str.is_empty (Str.of_chars s'))
          then k s c else None
      end
  end.

Definition no_caps (r : re) : caps := replicate (ngroups r) None.

(** [re.match]: at the start of the text only. *)
Definition match_at (multiline : bool) (r : re) (s : list ascii) : option caps :=
  mt multiline r s (no_caps r) (fun _ c => Some c).

(** [re.search]: the leftmost position at which the pattern matches. *)
Fixpoint search_go (multiline : bool) (r : re) (s : list ascii) : option caps :=
  match match_at multiline r s with
  | Some c => Some c
  | None =>
      match s with
      | [] => None
      | _ :: s' => search_go multiline r s'
      end
  end.

Definition py_match (r : re) (text : string) : option caps :=
  match_at false r (Str.chars text).

Definition search (multiline : bool) (r : re) (text : string) : option caps :=
  search_go multiline r (Str.chars text).

(** [matched.group(i+1)] *)
Definition group (c : caps) (i : nat) : option string :=
  match c !! i with Some g => g | None => None end.

End Re.


(** ** Python values and exceptions *)

Module Py.

Inductive exn : Type :=
  | IOError (path : string)
  | AttributeError
  | TypeError
  | ValueError
  | KeyError (key : string)
  | NoSectionError (section : string)
  | NoOptionError (section option : string)
  | SocketError
  | SystemExit (code : Z).

Inductive res (A : Type) : Type :=
  | Ok (a : A)
  | Raise (e : exn).
Arguments Ok {A} a.
Arguments Raise {A} e.

(** What [getRegexFromFile] hands back: the empty list when nothing
    matched, else group 1 (a string, or None when the group took no part
    in the match) for a one-group pattern, else the tuple of all groups. *)
Inductive rx : Type :=
  | RxEmptyList
  | RxNone
  | RxStr (s : string)
  | RxTuple (g : list (option string)).

Definition hex_digit (n : N) : ascii :=
  match n with
  | 0 => "0" | 1 => "1" | 2 => "2" | 3 => "3" | 4 => "4" | 5 => "5"
  | 6 => "6" | 7 => "7" | 8 => "8" | 9 => "9" | 10 => "a" | 11 => "b"
  | 12 => "c" | 13 => "d" | 14 => "e" | _ => "f"
  end%N%char.

(** [repr] of a byte string: single quotes unless the string has one and
    no double quote; backslash escapes for the quote, the backslash, tab,
    newline, carriage return and the bytes that do not print. *)
Definition repr_char (q : ascii) (a : ascii) : string :=
  let n := N_of_ascii a in
  if Ascii.eqb a q || Ascii.eqb a "\"%char then String "\"%char (String a EmptyString)
  else if Ascii.eqb a "009"%char then "\t"
  else if Ascii.eqb a "010"%char then "\n"
  else if Ascii.eqb a "013"%char then "\r"
  else if ((n <? 32) || (127 <=? n))%N
       then String "\"%char (String "x"%char
              (String (hex_digit (n / 16)) (String (hex_digit (n mod 16)) EmptyString)))
  else String a EmptyString.

Definition repr_str (s : string) : string :=
  let cs := Str.chars s in
  let q := if existsb (Ascii.eqb Str.squote_char) cs
              && negb (existsb (Ascii.eqb Str.dquote_char) cs)
           then Str.dquote_char else Str.squote_char in
  String q (Str.concat (map (repr_char q) cs)) +:+ String q EmptyString.

Definition repr_opt (o : option string) : string :=
  match o with Some s => repr_str s | None => "None" end.

Definition repr_tuple (g : list (option string)) : string :=
  match g with
  | [x] => "(" +:+ repr_opt x +:+ ",)"
  | _ => "(" +:+ Str.join ", " (map repr_opt g) +:+ ")"
  end.

(** [str(v)], which is also what a [%s] of a tuple of arguments prints. *)
Definition str (v : rx) : string :=
  match v with
  | RxEmptyList => "[]"
  | RxNone => "None"
  | RxStr s => s
  | RxTuple g => repr_tuple g
  end.

Definition repr (v : rx) : string :=
  match v with
  | RxStr s => repr_str s
  | _ => str v
  end.

(** [str(l)] of a list. *)
Definition str_list (l : list rx) : string :=
  "[" +:+ Str.join ", " (map repr l) +:+ "]".

(** [fmt % v] with one [%s] in [fmt] and [v] not written as a tuple: a
    tuple value is taken as the argument list. *)
Definition fmt1 (v : rx) : res string :=
  match v with
  | RxTuple [x] => Ok (match x with Some s => s | None => "None" end)
  | RxTuple _ => Raise TypeError
  | _ => Ok (str v)
  end.

(** [not v] *)
Definition falsy (v : rx) : bool :=
  match v with
  | RxEmptyList | RxNone => true
  | RxStr s => Str.is_empty s
  | RxTuple g => match g with [] => true | _ => false end
  end.

(** [v == s] for a string literal [s]. *)
Definition eq_str (v : rx) (s : string) : bool :=
  match v with
  | RxStr t => bool_decide (t = s)
  | _ => false
  end.

(** A string method called on [v]: only a string has it. *)
Definition as_str (v : rx) : res string :=
  match v with
  | RxStr s => Ok s
  | _ => Raise AttributeError
  end.

(** [len(v)] *)
Definition len (v : rx) : res nat :=
  match v with
  | RxEmptyList => Ok 0%nat
  | RxNone => Raise TypeError
  | RxStr s => Ok (String.length s)
  | RxTuple g => Ok (List.length g)
  end.

Definition strip (s : string) : string :=
  let drop_ws := fix go (l : list ascii) :=
    match l with
    | a :: l' => if Ascii.is_space a then go l' else l
    | [] => []
    end in
  Str.of_chars (rev (drop_ws (rev (drop_ws (Str.chars s))))).

Fixpoint digits_value (acc : Z) (l : list ascii) : option Z :=
  match l with
  | [] => Some acc
  | a :: l' =>
      match Ascii.is_nat a with
      | Some d => digits_value (10 * acc + Z.of_nat d) l'
      | None => None
      end
  end.

(** [int(s)] of a string, base 10: optional white space around, an
    optional sign, at least one digit. *)
Definition int_of_string (s : string) : option Z :=
  match Str.chars (strip s) with
  | [] => None
  | a :: l =>
      if Ascii.eqb a "-"%char
      then match l with [] => None | _ => Z.opp <$> digits_value 0 l end
      else if Ascii.eqb a "+"%char
      then match l with [] => None | _ => digits_value 0 l end
      else digits_value 0 (a :: l)
  end.

(** [int(v)] *)
Definition int (v : rx) : res Z :=
  match v with
  | RxStr s =>
      match int_of_string s with
      | Some z => Ok z
      | None => Raise ValueError
      end
  | _ => Raise TypeError
  end.

End Py.

(** ** Paths *)

Module Path.

(** [os.path.join(a, b)] *)
Definition join (a b : string) : string :=
  if Str.startswith b "/" then b
  else if Str.is_empty a || Str.endswith_char a Str.slash_char then a +:+ b
  else a +:+ "/" +:+ b.

Fixpoint strip_slashes (l : list ascii) : list ascii :=
  match l with
  | a :: l' => if Ascii.eqb a Str.slash_char then strip_slashes l' else l
  | [] => []
  end.

(** The reversed characters after the last slash are dropped. *)
Fixpoint drop_base (l : list ascii) : list ascii :=
  match l with
  | a :: l' => if Ascii.eqb a Str.slash_char then l else drop_base l'
  | [] => []
  end.

(** [os.path.dirname(p)]: up to the last slash, without the slashes that
    end it unless it is made of slashes only. *)
Definition dirname (p : string) : string :=
  let head := drop_base (rev (Str.chars p)) in
  match strip_slashes head with
  | [] => Str.of_chars (rev head)
  | stripped => Str.of_chars (rev stripped)
  end.

(** The first component of [l]: up to the first slash. *)
Fixpoint first_component (l : list ascii) : list ascii :=
  match l with
  | a :: l' => if Ascii.eqb a Str.slash_char then [] else a :: first_component l'
  | [] => []
  end.

End Path.

Import Py Re.

(** ** The world: files, objects, interactions *)

(** The places where the script runs a shell command. *)
Inductive site : Type :=
  | FetchLog        (* scp of the remote pragma_boot.log, isDagRunning *)
  | ListCluster     (* pragma list cluster, isDagRunning *)
  | Ping            (* ping, isDagRunning *)
  | RemoteMkdir     (* ssh mkdir -p, startDagPB *)
  | CopyTree        (* scp -r of the dag directory, startDagPB *)
  | Boot            (* pragma_boot / pragma boot, startDagPB *)
  | Shutdown        (* pragma shutdown, stopDagPB *)
  | Clean.          (* pragma clean, stopDagPB *)

Inductive level : Type := DEBUG | INFO | ERROR.

(** Python objects: scalars are values, lists and dictionaries live in the
    heap and are reached through references, so that two names can share
    one object.  Of the JSON numbers only the integers are modelled. *)
Inductive pyval : Type :=
  | VNone
  | VBool (b : bool)
  | VInt (z : Z)
  | VStr (s : string)
  | VRef (l : nat).

Inductive pyobj : Type :=
  | ODict (d : gmap string pyval)
  | OList (l : list pyval).

(** JSON documents as they travel to and from the calendar. *)
Inductive json : Type :=
  | JNull
  | JBool (b : bool)
  | JNum (z : Z)
  | JStr (s : string)
  | JArr (items : list json)
  | JObj (members : list (string * json)).

Inductive event : Type :=
  | EvShell (at_ : site) (dir : string) (cmd : string) (rc : Z)
  | EvWrite (path content : string)         (* the script writes a file *)
  | EvLog (lvl : level) (msg : string)
  | EvPrint (msg : string) (arg : pyval)     (* print msg + str(arg) *)
  | EvStderr (msg : string)
  | EvSleep (secs : Z)
  | EvHttp (method path : string) (body : json)
           (headers : list (string * pyval)) (status : Z).

(** The calendar's answer to a request: status line, the body as text and
    the body as JSON when it is JSON. *)
Record response : Type := {
  status : Z;
  reason : string;
  body_text : string;
  body_json : option json
}.

(** The outside, as oracles that may look at everything that happened so
    far: what a shell command returns and prints, what the scp of a remote
    log brings back (None when it brings nothing), this host's name, the
    clock, whether the calendar's host accepts a connection, and its answer
    to a request. *)
Record Env : Type := {
  sh_exit : list event -> string -> Z;
  sh_stdout : list event -> string -> string;
  scp_log : list event -> string -> option string;
  gethostname : string;
  now : list event -> string;
  connect : list event -> string -> bool;
  http : list event -> string -> string -> json -> list (string * pyval) -> response
}.

(** Files are kept by path; a directory is there when a file lies below
    it.  Paths are compared as strings. *)
Record World : Type := {
  files : gmap string string;
  heap : list pyobj;
  trace : list event
}.

Definition set_files (f : gmap string string -> gmap string string) (w : World) : World :=
  {| files := f (files w); heap := heap w; trace := trace w |}.
Definition set_heap (f : list pyobj -> list pyobj) (w : World) : World :=
  {| files := files w; heap := f (heap w); trace := trace w |}.
Definition add_event (e : event) (w : World) : World :=
  {| files := files w; heap := heap w; trace := trace w ++ [e] |}.

(** ** The monad of the script's functions *)

Definition M (A : Type) : Type := World -> res A * World.

Definition ret {A} (a : A) : M A := fun w => (Ok a, w).
Definition raise {A} (e : exn) : M A := fun w => (Raise e, w).
Definition bind {A B} (m : M A) (f : A -> M B) : M B :=
  fun w => match m w with
           | (Ok a, w') => f a w'
           | (Raise e, w') => (Raise e, w')
           end.
Definition lift {A} (r : res A) : M A := fun w => (r, w).

Declare Scope py_scope.
Delimit Scope py_scope with py.
Notation "x <- m ;; k" := (bind m (fun x => k))
  (at level 100, m at level 99, right associativity) : py_scope.
Notation "m ;; k" := (bind m (fun _ => k))
  (at level 100, right associativity) : py_scope.
Local Open Scope py_scope.

(** [try: m except: h], the bare except that catches everything. *)
Definition try_except {A} (m h : M A) : M A :=
  fun w => match m w with
           | (Ok a, w') => (Ok a, w')
           | (Raise _, w') => h w'
           end.

(** A loop body ends an iteration with the next loop state (falling off
    its end, or [continue]) or leaves the function with [return]. *)
Inductive ctl (S R : Type) : Type :=
  | Next (s : S)
  | Return (r : R).
Arguments Next {S R} s.
Arguments Return {S R} r.

Fixpoint for_each {X S R} (body : X -> S -> M (ctl S R)) (xs : list X) (s : S)
    : M (ctl S R) :=
  match xs with
  | [] => ret (Next s)
  | x :: xs' =>
      c <- body x s ;;
      match c with
      | Next s' => for_each body xs' s'
      | Return r => ret (Return r)
      end
  end.

Definition emit (e : event) : M unit := fun w => (Ok tt, add_event e w).
Definition log (lvl : level) (msg : string) : M unit := emit (EvLog lvl msg).
Definition get_trace : M (list event) := fun w => (Ok (trace w), w).

(** *** Files *)

Definition is_dir (fs : gmap string string) (p : string) : bool :=
  existsb (fun kv => Str.startswith (fst kv) (p +:+ "/")) (map_to_list fs).

(** [os.path.exists(p)] *)
Definition path_exists (p : string) : M bool :=
  fun w => (Ok (bool_decide (is_Some (files w !! p)) || is_dir (files w) p), w).

(** [f = open(p, "r"); f.read()] *)
Definition read_file (p : string) : M string :=
  fun w => match files w !! p with
           | Some c => (Ok c, w)
           | None => (Raise (IOError p), w)
           end.

(** [f = open(p, "w"); f.write(c); f.close()] *)
Definition write_file (p c : string) : M unit :=
  fun w => if is_dir (files w) p then (Raise (IOError p), w)
           else (Ok tt, add_event (EvWrite p c) (set_files (insert p c) w)).

(** [os.listdir(d)]: the first components of the paths below [d]. *)
Definition listdir (fs : gmap string string) (d : string) : list string :=
  remove_dups
    (omap (fun kv =>
             match Str.strip_prefix (Str.chars (Path.join d EmptyString))
                     (Str.chars (fst kv)) with
             | Some rest =>
                 match Path.first_component rest with
                 | [] => None
                 | name => Some (Str.of_chars name)
                 end
             | None => None
             end) (map_to_list fs)).

Definition endswith (s suffix : string) : bool :=
  match Str.strip_prefix (rev (Str.chars suffix)) (rev (Str.chars s)) with
  | Some _ => true
  | None => false
  end.

(** [glob.glob(os.path.join(d, "*.sub"))] for a directory name [d] without
    the wildcard characters of glob: the entries of [d] that end in .sub
    and do not start with a dot. *)
Definition glob_sub (d : string) : M (list string) :=
  fun w => (Ok (map (Path.join d)
                  (List.filter
                     (fun n => negb (Str.startswith n ".") && endswith n ".sub")
                     (listdir (files w) d))), w).

(** [subprocess.call(cmd, shell=True)], with what it leaves in the files. *)
Definition shell (env : Env) (at_ : site) (dir cmd : string)
    (effect : list event -> gmap string string -> gmap string string) : M Z :=
  fun w =>
    let rc := sh_exit env (trace w) cmd in
    (Ok rc, add_event (EvShell at_ dir cmd rc) (set_files (effect (trace w)) w)).

(** ** The script *)

(** *** Patterns

    Each pattern of the script, with its source text; in the source text a
    blank is put after an opening and before a closing parenthesis, and Q
    stands for the double quote. *)

(** ( .* ) *)
Definition re_any : re := Group 0 (Star (One Dot)).
(** .*\s( \S+ )$ *)
Definition re_sub_token : re :=
  cat [Star (One Dot); One Ws; Group 0 (Plus (One NWs)); Eol].
(** key\s*=\s*( .* ) *)
Definition re_key_rest (key : string) : re :=
  cat [lit key; Star (One Ws); lit "="; Star (One Ws); Group 0 (Star (One Dot))].
(** key\s*=\s*( \S+ ) *)
Definition re_key_word (key : string) : re :=
  cat [lit key; Star (One Ws); lit "="; Star (One Ws); Group 0 (Plus (One NWs))].
(** fqdn=( \S+ )* *)
Definition re_fqdn : re :=
  Cat (lit "fqdn=") (Star (Group 0 (Plus (One NWs)))).
(** Found available public IP [\d\.]+ -> ( \S+ ) *)
Definition re_public_ip : re :=
  cat [lit "Found available public IP "; Plus (One (AnyOf [Dig; Lit "."%char]));
       lit " -> "; Group 0 (Plus (One NWs))].
(** numcpus=( .+ ) *)
Definition re_numcpus : re :=
  Cat (lit "numcpus=") (Group 0 (Plus (One Dot))).
(** Requesting ( \d+ ) CPUs *)
Definition re_requesting : re :=
  cat [lit "Requesting "; Group 0 (Plus (One Dig)); lit " CPUs"].
(** cnodes='?( [^']+ ) *)
Definition re_cnodes : re :=
  cat [lit "cnodes="; Opt (One (Lit Str.squote_char));
       Group 0 (Plus (One (NoneOf [Lit Str.squote_char])))].
(** Allocated cluster \S+ with compute nodes: ( .+ ) *)
Definition re_allocated_nodes : re :=
  cat [lit "Allocated cluster "; Plus (One NWs); lit " with compute nodes: ";
       Group 0 (Plus (One Dot))].
(** Allocated cluster ( \S+ ) *)
Definition re_allocated : re :=
  Cat (lit "Allocated cluster ") (Group 0 (Plus (One NWs))).
(** fqdn=( .* ) *)
Definition re_cached_fqdn : re :=
  Cat (lit "fqdn=") (Group 0 (Star (One Dot))).
(** cnodes=( .* ) *)
Definition re_cached_cnodes : re :=
  Cat (lit "cnodes=") (Group 0 (Star (One Dot))).
(** Machine ==Q( [^Q]+ )Q *)
Definition re_machine : re :=
  cat [lit "Machine =="; One (Lit Str.dquote_char);
       Group 0 (Plus (One (NoneOf [Lit Str.dquote_char]))); One (Lit Str.dquote_char)].
(** ( --\S+ )\s+=\s+( .* ) *)
Definition re_vmconf_v1 : re :=
  cat [Group 0 (Cat (lit "--") (Plus (One NWs))); Plus (One Ws); lit "=";
       Plus (One Ws); Group 1 (Star (One Dot))].
(** --( \S+ )\s+=\s+( \S+ ) *)
Definition re_vmconf_v2 : re :=
  cat [lit "--"; Group 0 (Plus (One NWs)); Plus (One Ws); lit "=";
       Plus (One Ws); Group 1 (Plus (One NWs))].

(** *** getRegexFromFile, writeStringToFile, runShellCommand *)

(** What getRegexFromFile makes of the text of the file. *)
Definition regex_result (regex : re) (text : string) : rx :=
  match Re.search true regex text with
  | None => RxEmptyList
  | Some groups =>
      if (List.length groups =? 1)%nat
      then match Re.group groups 0 with Some s => RxStr s | None => RxNone end
      else RxTuple groups
  end.

Definition getRegexFromFile (file : string) (regex : re) : M rx :=
  text <- read_file file ;;
  ret (regex_result regex text).

Definition writeStringToFile (file aString : string) : M unit :=
  write_file file aString.

(** The command prints into [stdout_filename], which is then read back. *)
Definition runShellCommand (env : Env) (at_ : site) (dir cmd stdout_filename : string)
    : M (Z * string) :=
  write_file stdout_filename EmptyString ;;
  result <- shell env at_ dir cmd
              (fun tr => insert stdout_filename (sh_stdout env tr cmd)) ;;
  stdout_text <- read_file stdout_filename ;;
  ret (result, stdout_text).

(** *** The templates of the files of a dag directory *)

Definition NODE_TEMPLATE (id host memory jobdir version username var_run : string)
    : string :=
  Str.nl +:+
  "universe                     = vm" +:+ Str.nl +:+
  "executable                   = rocks_vc_" +:+ id +:+ Str.nl +:+
  "requirements                 = Machine ==" +:+ Str.dquote +:+ host +:+ Str.dquote +:+ Str.nl +:+
  "log                          = vc" +:+ id +:+ ".log.txt" +:+ Str.nl +:+
  "vm_type                      = rocks" +:+ Str.nl +:+
  "vm_memory                    = " +:+ memory +:+ Str.nl +:+
  "rocks_job_dir                  = " +:+ jobdir +:+ Str.nl +:+
  "JobLeaseDuration             = 7200" +:+ Str.nl +:+
  "RequestMemory = " +:+ memory +:+ Str.nl +:+
  "pragma_boot_version          = " +:+ version +:+ Str.nl +:+
  "username                     = " +:+ username +:+ Str.nl +:+
  "var_run                      = " +:+ var_run +:+ Str.nl +:+
  "rocks_should_transfer_files = Yes" +:+ Str.nl +:+
  "RunAsOwner=True" +:+ Str.nl +:+
  "queue" +:+ Str.nl.

Definition VMCONF_TEMPLATE (sshKeyPath cpus vcname jobdir : string) : string :=
  "--executable      = pragma_boot" +:+ Str.nl +:+
  "--key             = " +:+ sshKeyPath +:+ Str.nl +:+
  "--num_cpus       = " +:+ cpus +:+ "       " +:+ Str.nl +:+
  "--vcname          = " +:+ vcname +:+ Str.nl +:+
  "--logfile         = " +:+ jobdir +:+ "/pragma_boot.log" +:+ Str.nl.

(** *** The notices appended to a reservation's description *)

Definition banner (date : string) : string :=
  "----- PRAGMA Cloud Scheduler Update @ " +:+ date +:+ " -----" +:+ Str.nl +:+ Str.nl.

Definition EMAIL_STARTING (date : string) : string :=
  banner date +:+
  "Your resource reservation is being started.  You will receive an email when" +:+ Str.nl +:+
  "the resources are ready for you to login." +:+ Str.nl +:+ Str.nl.

Definition EMAIL_STARTED (date resourceinfo fqdn : string) : string :=
  banner date +:+
  "Your resource reservation has been activated: " +:+ resourceinfo +:+ Str.nl +:+ Str.nl +:+
  "To access resources, login to the frontend.  E.g.," +:+ Str.nl +:+ Str.nl +:+
  "> ssh root@" +:+ fqdn +:+ Str.nl +:+ Str.nl.

Definition EMAIL_STOPPING (date : string) : string :=
  banner date +:+ "Your resource reservation is being shutdown." +:+ Str.nl +:+ Str.nl.

Definition EMAIL_STOPPED (date : string) : string :=
  banner date +:+ "Your resource reservation has been shutdown" +:+ Str.nl +:+ Str.nl.

(** *** isDagRunning *)

(** The local variables that live across the iterations of the loop. *)
Record dag_state : Type := {
  active : list rx;
  inactive : list rx;
  resourceinfo : string;
  frontendFqdn : string
}.

(** What isDagRunning returns: False, None or the text of the notice. *)
Inductive dag_result : Type :=
  | DagFalse
  | DagNone
  | DagStarted (info : string).

(** [if info:] at the call. *)
Definition dag_ready (r : dag_result) : bool :=
  match r with
  | DagStarted info => negb (Str.is_empty info)
  | _ => false
  end.

Definition first_label (fqdn : string) : string :=
  hd EmptyString (Str.split fqdn ".").

(** The end of an iteration, from [frontendFqdn = cluster_fqdn] on: the
    summary and the liveness probe. *)
Definition isDagRunning_probe (env : Env) (vcdir : string)
    (username hostname pragma_boot_version : rx)
    (cluster_fqdn : string) (nodes : list string) (st : dag_state)
    : M (ctl dag_state dag_result) :=
  let info :=
    resourceinfo st +:+ Str.nl +:+ Str.nl +:+ "Frontend: " +:+ cluster_fqdn +:+ Str.nl +:+
    "Number of compute nodes: " +:+ pretty (Z.of_nat (List.length nodes) - 1) in
  if Py.eq_str pragma_boot_version "2" then
    frontend <- getRegexFromFile (Path.join vcdir "pragma_boot.log") re_allocated ;;
    let ssh := "ssh " +:+ Py.str username +:+ "@" +:+ Py.str hostname +:+
               " /opt/python/bin/python /opt/pragma_boot/bin/pragma list cluster " +:+
               Py.str frontend in
    let pragma_status_filename := Path.join vcdir "pragma_list_cluster" in
    write_file pragma_status_filename EmptyString ;;
    result <- shell env ListCluster vcdir ssh
                (fun tr => insert pragma_status_filename (sh_stdout env tr ssh)) ;;
    status <- read_file pragma_status_filename ;;
    log INFO ("   " +:+ status) ;;
    ret (Next {| active := if result =? 0 then active st ++ [frontend] else active st;
                 inactive := if result =? 0 then inactive st else inactive st ++ [frontend];
                 resourceinfo := info;
                 frontendFqdn := cluster_fqdn |})
  else
    let ping := "ping -c 1 " +:+ cluster_fqdn +:+ " >& /dev/null" in
    ping_status <- shell env Ping vcdir ping (fun _ fs => fs) ;;
    log DEBUG ("  Ping to '" +:+ cluster_fqdn +:+ "': " +:+ pretty ping_status) ;;
    ret (Next {| active := if ping_status =? 0 then active st ++ [RxStr cluster_fqdn]
                           else active st;
                 inactive := if ping_status =? 0 then inactive st
                             else inactive st ++ [RxStr cluster_fqdn];
                 resourceinfo := info;
                 frontendFqdn := cluster_fqdn |}).

(** The number of CPUs: the numcpus= marker, or else the line that
    requests the CPUs (the first try/except of the function). *)
Definition isDagRunning_numcpus (logfile : string) : M Z :=
  try_except
    (v <- getRegexFromFile logfile re_numcpus ;; lift (Py.int v))
    (v <- getRegexFromFile logfile re_requesting ;; lift (Py.int v)).

(** The compute nodes, as found and split: the cnodes= marker, split at
    the newlines, or else the line that lists the nodes of the allocated
    cluster, split at the commas (the second try/except). *)
Definition isDagRunning_cnodes (logfile : string) : M (string * list string) :=
  try_except
    (v <- getRegexFromFile logfile re_cnodes ;;
     cnodes <- lift (Py.as_str v) ;;
     ret (cnodes, Str.split cnodes Str.nl))
    (v <- getRegexFromFile logfile re_allocated_nodes ;;
     cnodes <- lift (Py.as_str v) ;;
     ret (cnodes, Str.split cnodes ", ")).

(** One iteration of the loop over the lines of dag.sub. *)
Definition isDagRunning_resource (env : Env) (refNumber : string)
    (line : string) (st : dag_state) : M (ctl dag_state dag_result) :=
  match Re.py_match re_sub_token line with
  | None => ret (Next st)
  | Some matched =>
      token <- lift (match Re.group matched 0 with
                     | Some s => Ok s
                     | None => Raise AttributeError
                     end) ;;
      let vcdir := Path.dirname token in
      hostname <- getRegexFromFile (Path.join vcdir "hostname") re_any ;;
      confs <- glob_sub vcdir ;;
      conf <- lift (match confs with [conf] => Ok conf | _ => Raise ValueError end) ;;
      username <- getRegexFromFile conf (re_key_rest "username") ;;
      var_run <- getRegexFromFile conf (re_key_rest "var_run") ;;
      pragma_boot_version <- getRegexFromFile conf (re_key_rest "pragma_boot_version") ;;
      var_run_s <- lift (Py.as_str var_run) ;;
      let remoteDagDir := Path.join var_run_s ("dag-" +:+ refNumber) in
      let cluster_info_filename := Path.join vcdir "cluster_info" in
      let logfile := Path.join vcdir "pragma_boot.log" in
      cached <- path_exists cluster_info_filename ;;
      if negb cached then
        let scp := "scp " +:+ Py.str username +:+ "@" +:+ Py.str hostname +:+ ":" +:+
                   Path.join remoteDagDir "pragma_boot.log" +:+ " " +:+ vcdir +:+
                   " >& /dev/null" in
        log DEBUG ("  " +:+ scp) ;;
        shell env FetchLog vcdir scp
          (fun tr fs => match scp_log env tr scp with
                        | Some text => <[logfile := text]> fs
                        | None => fs
                        end) ;;
        found <- getRegexFromFile logfile re_fqdn ;;
        found <- (if Py.falsy found then getRegexFromFile logfile re_public_ip
                  else ret found) ;;
        if Py.falsy found then
          log INFO "   No FQDN info available yet" ;;
          ret (Return DagFalse)
        else
          cluster_fqdn <- lift (Py.as_str found) ;;
          let nodes := [first_label cluster_fqdn] in
          numcpus <- isDagRunning_numcpus logfile ;;
          if 0 <? numcpus then
            found_nodes <- isDagRunning_cnodes logfile ;;
            let '(cnodes, cnodes_array) := found_nodes in
            if Str.is_empty cnodes then
              log INFO "   No compute nodes info available yet" ;;
              ret (Next st)
            else
              writeStringToFile cluster_info_filename
                ("fqdn=" +:+ cluster_fqdn +:+ Str.nl +:+ "cnodes=" +:+
                 Str.join " " cnodes_array) ;;
              isDagRunning_probe env vcdir username hostname pragma_boot_version
                cluster_fqdn (nodes ++ cnodes_array) st
          else
            writeStringToFile cluster_info_filename
              ("fqdn=" +:+ cluster_fqdn +:+ Str.nl +:+ "cnodes=") ;;
            isDagRunning_probe env vcdir username hostname pragma_boot_version
              cluster_fqdn nodes st
      else
        log DEBUG ("  Reading " +:+ cluster_info_filename) ;;
        found <- getRegexFromFile cluster_info_filename re_cached_fqdn ;;
        cluster_fqdn <- lift (Py.as_str found) ;;
        let nodes := [first_label cluster_fqdn] in
        cnodes <- getRegexFromFile cluster_info_filename re_cached_cnodes ;;
        n <- lift (Py.len cnodes) ;;
        more <- (if (0 <? n)%nat
                 then lift (match cnodes with
                            | RxStr s => Ok (Str.split_ws s)
                            | _ => Raise TypeError
                            end)
                 else ret []) ;;
        isDagRunning_probe env vcdir username hostname pragma_boot_version
          cluster_fqdn (nodes ++ more) st
  end.

Definition dag_init : dag_state :=
  {| active := []; inactive := []; resourceinfo := EmptyString;
     frontendFqdn := EmptyString |}.

Definition isDagRunning (env : Env) (dagDir refNumber : string) : M dag_result :=
  subf <- read_file (Path.join dagDir "dag.sub") ;;
  c <- for_each (isDagRunning_resource env refNumber) (Str.lines subf) dag_init ;;
  match c with
  | Return r => ret r
  | Next st =>
      log INFO ("   Active clusters: " +:+ Py.str_list (active st)) ;;
      log INFO ("   Inactive clusters: " +:+ Py.str_list (inactive st)) ;;
      if (List.length (inactive st) =? 0)%nat then
        tr <- get_trace ;;
        ret (DagStarted (EMAIL_STARTED (now env tr) (resourceinfo st) (frontendFqdn st)))
      else ret DagNone
  end.

(** *** startDagPB *)

(** [d[k]] on the dictionary of the arguments read from a .vmconf file. *)
Definition arg (args : gmap string string) (k : string) : M string :=
  match args !! k with
  | Some v => ret v
  | None => raise (KeyError k)
  end.

(** The arguments of pragma_boot, version 1: every flag of the .vmconf file
    but --executable and --logfile, with the local dag directory replaced
    by the remote one in its value. *)
Definition boot_args_v1 (dagDir remoteDagDir : string) (vmf : list string) : string :=
  fold_left
    (fun args line =>
       match Re.py_match re_vmconf_v1 line with
       | Some matched =>
           match Re.group matched 0, Re.group matched 1 with
           | Some flag, Some value =>
               if negb (bool_decide (flag = "--executable"))
                  && negb (bool_decide (flag = "--logfile"))
               then args +:+ " " +:+ flag +:+ "=" +:+ Str.replace value dagDir remoteDagDir
               else args
           | _, _ => args
           end
       | None => args
       end)
    vmf EmptyString.

(** The arguments of pragma boot, version 2, as a dictionary; a line that
    is not of the form has no groups to ask for. *)
Fixpoint boot_args_v2 (vmf : list string) (args : gmap string string)
    : M (gmap string string) :=
  match vmf with
  | [] => ret args
  | line :: vmf' =>
      match Re.py_match re_vmconf_v2 line with
      | Some matched =>
          match Re.group matched 0, Re.group matched 1 with
          | Some k, Some v => boot_args_v2 vmf' (<[k := v]> args)
          | _, _ => raise TypeError
          end
      | None => raise AttributeError
      end
  end.

(** One iteration of the loop over the lines of dag.sub. *)
Definition startDagPB_resource (env : Env) (dagDir refNumber : string)
    (line : string) (st : unit) : M (ctl unit bool) :=
  match Re.py_match re_sub_token line with
  | None => ret (Next st)
  | Some matched =>
      vcfile <- lift (match Re.group matched 0 with
                      | Some s => Ok s
                      | None => Raise AttributeError
                      end) ;;
      found_host <- getRegexFromFile vcfile re_machine ;;
      username <- getRegexFromFile vcfile (re_key_rest "username") ;;
      pragma_boot_version <- getRegexFromFile vcfile (re_key_word "pragma_boot_version") ;;
      found_run <- getRegexFromFile vcfile (re_key_word "var_run") ;;
      var_run <- lift (Py.as_str found_run) ;;
      let remoteDagDir := Path.join var_run ("dag-" +:+ refNumber) in
      let vcdir := Path.dirname vcfile in
      let host_f := Path.join vcdir "hostname" in
      write_file host_f EmptyString ;;
      hostname <- lift (match found_host with
                        | RxStr s => Ok s
                        | _ => Raise TypeError
                        end) ;;
      write_file host_f hostname ;;
      (if negb (bool_decide (hostname = gethostname env)) then
         log DEBUG ("  Copying dir " +:+ dagDir +:+ " over to " +:+ hostname +:+ ":" +:+
                    remoteDagDir +:+ " ") ;;
         shell env RemoteMkdir vcdir
           ("ssh " +:+ Py.str username +:+ "@" +:+ hostname +:+ " mkdir -p " +:+ var_run)
           (fun _ fs => fs) ;;
         shell env CopyTree vcdir
           ("scp -r " +:+ dagDir +:+ " " +:+ Py.str username +:+ "@" +:+ hostname +:+ ":" +:+
            remoteDagDir +:+ " >& /dev/null")
           (fun _ fs => fs) ;;
         ret tt
       else ret tt) ;;
      let vmconf_file := Str.replace vcfile ".sub" ".vmconf" in
      vmf <- read_file vmconf_file ;;
      cmdline <-
        (if Py.eq_str pragma_boot_version "1" then
           let args := boot_args_v1 dagDir remoteDagDir (Str.lines vmf) in
           ret ("ssh -f " +:+ Py.str username +:+ "@" +:+ hostname +:+ " 'cd " +:+
                remoteDagDir +:+ "; /opt/pragma_boot/bin/pragma_boot " +:+ args +:+
                "' >& " +:+ dagDir +:+ "/ssh.out")
         else if Py.eq_str pragma_boot_version "2" then
           args <- boot_args_v2 (Str.lines vmf) ∅ ;;
           key <- arg args "key" ;;
           let args := <["key" := Str.replace key dagDir remoteDagDir]> args in
           vcname <- arg args "vcname" ;;
           num_cpus <- arg args "num_cpus" ;;
           key <- arg args "key" ;;
           logfile <- arg args "logfile" ;;
           ret ("ssh -f " +:+ Py.str username +:+ "@" +:+ hostname +:+ " 'cd " +:+
                dagDir +:+ "; /opt/python/bin/python /opt/pragma_boot/bin/pragma boot " +:+
                vcname +:+ " " +:+ num_cpus +:+ " key=" +:+ key +:+
                " loglevel=DEBUG logfile=" +:+ logfile +:+ "' >& " +:+ dagDir +:+ "/ssh.out")
         else
           msg <- lift (Py.fmt1 pragma_boot_version) ;;
           log ERROR ("Error, unknown pragma_boot version " +:+ msg) ;;
           raise (SystemExit 1)) ;;
      log DEBUG ("  Running pragma_boot: " +:+ cmdline) ;;
      shell env Boot vcdir cmdline
        (fun tr => insert (dagDir +:+ "/ssh.out") (sh_stdout env tr cmdline)) ;;
      ret (Next st)
  end.

Definition startDagPB (env : Env) (dagDir refNumber : string) : M bool :=
  subf <- read_file (Path.join dagDir "dag.sub") ;;
  c <- for_each (startDagPB_resource env dagDir refNumber) (Str.lines subf) tt ;;
  match c with
  | Return r => ret r
  | Next _ =>
      log DEBUG "  Sleeping 10 seconds" ;;
      emit (EvSleep 10) ;;
      ret true
  end.

(** *** stopDagPB *)

(** One iteration of the loop over the lines of dag.sub. *)
Definition stopDagPB_resource (env : Env) (dagDir refNumber : string)
    (line : string) (st : unit) : M (ctl unit bool) :=
  match Re.py_match re_sub_token line with
  | None => ret (Next st)
  | Some matched =>
      vcfile <- lift (match Re.group matched 0 with
                      | Some s => Ok s
                      | None => Raise AttributeError
                      end) ;;
      let vcdir := Path.dirname vcfile in
      hostname <- getRegexFromFile vcfile re_machine ;;
      username <- getRegexFromFile vcfile (re_key_rest "username") ;;
      frontend <- getRegexFromFile (Path.join dagDir "pragma_boot.log") re_allocated ;;
      let ssh_pragma := "ssh " +:+ Py.str username +:+ "@" +:+ Py.str hostname +:+
                        " /opt/python/bin/python /opt/pragma_boot/bin/pragma" in
      let shutdown_cmd := ssh_pragma +:+ " shutdown " +:+ Py.str frontend in
      log DEBUG ("  Shutting down " +:+ Py.str frontend +:+ ": " +:+ shutdown_cmd) ;;
      out <- runShellCommand env Shutdown vcdir shutdown_cmd
               (Path.join vcdir "pragma_shutdown") ;;
      if negb (fst out =? 0) then
        msg <- lift (Py.fmt1 frontend) ;;
        log ERROR ("  Error shutting down virtual cluster " +:+ msg) ;;
        ret (Return false)
      else
        log DEBUG ("  " +:+ snd out) ;;
        let clean_cmd := ssh_pragma +:+ " clean " +:+ Py.str frontend in
        log DEBUG ("  Cleaning " +:+ Py.str frontend +:+ ": " +:+ clean_cmd) ;;
        out <- runShellCommand env Clean vcdir clean_cmd
                 (Path.join vcdir "pragma_clean") ;;
        log DEBUG ("  " +:+ snd out) ;;
        if negb (fst out =? 0) then
          msg <- lift (Py.fmt1 frontend) ;;
          log ERROR ("  Error cleaning virtual cluster " +:+ msg) ;;
          ret (Return false)
        else ret (Next st)
  end.

Definition stopDagPB (env : Env) (dagDir refNumber : string) : M bool :=
  subf <- read_file (Path.join dagDir "dag.sub") ;;
  c <- for_each (stopDagPB_resource env dagDir refNumber) (Str.lines subf) tt ;;
  match c with
  | Return r => ret r
  | Next _ => ret true
  end.

(** *** Objects and JSON *)

Global Instance pyval_eq_dec : EqDecision pyval.
Proof. solve_decision. Defined.

Global Instance pyval_countable : Countable pyval.
Proof.
  refine (inj_countable'
    (fun v => match v with
              | VNone => inl tt
              | VBool b => inr (inl b)
              | VInt z => inr (inr (inl z))
              | VStr s => inr (inr (inr (inl s)))
              | VRef l => inr (inr (inr (inr l)))
              end)
    (fun x => match x with
              | inl _ => VNone
              | inr (inl b) => VBool b
              | inr (inr (inl z)) => VInt z
              | inr (inr (inr (inl s))) => VStr s
              | inr (inr (inr (inr l))) => VRef l
              end) _).
  intros []; reflexivity.
Defined.

(** A new object; its reference is the next free cell. *)
Definition alloc (o : pyobj) : M pyval :=
  fun w => (Ok (VRef (List.length (heap w))), set_heap (fun h => h ++ [o]) w).

(** [v[k]] for a string [k]. *)
Definition getitem (h : list pyobj) (v : pyval) (k : string) : res pyval :=
  match v with
  | VRef l =>
      match h !! l with
      | Some (ODict d) =>
          match d !! k with
          | Some x => Ok x
          | None => Raise (KeyError k)
          end
      | _ => Raise TypeError
      end
  | _ => Raise TypeError
  end.

Definition subscript (v : pyval) (k : string) : M pyval :=
  fun w => (getitem (heap w) v k, w).

(** [v[k] = x] for a string [k]. *)
Definition assign (v : pyval) (k : string) (x : pyval) : M unit :=
  fun w => match v with
           | VRef l =>
               match heap w !! l with
               | Some (ODict d) =>
                   (Ok tt, set_heap (fun h => <[l := ODict (<[k := x]> d)]> h) w)
               | _ => (Raise TypeError, w)
               end
           | _ => (Raise TypeError, w)
           end.

(** [for x in v]: the items of a list, the keys of a dictionary, the
    characters of a string. *)
Definition items (h : list pyobj) (v : pyval) : res (list pyval) :=
  match v with
  | VRef l =>
      match h !! l with
      | Some (OList xs) => Ok xs
      | Some (ODict d) => Ok (map (fun kv => VStr (fst kv)) (map_to_list d))
      | None => Raise TypeError
      end
  | VStr s => Ok (map (fun a => VStr (String a EmptyString)) (Str.chars s))
  | _ => Raise TypeError
  end.

Definition iterate (v : pyval) : M (list pyval) :=
  fun w => (items (heap w) v, w).

(** [k in v.keys()] *)
Definition contains_key (h : list pyobj) (v : pyval) (k : string) : res bool :=
  match v with
  | VRef l =>
      match h !! l with
      | Some (ODict d) => Ok (bool_decide (is_Some (d !! k)))
      | _ => Raise AttributeError
      end
  | _ => Raise AttributeError
  end.

Definition has_key (v : pyval) (k : string) : M bool :=
  fun w => (contains_key (heap w) v k, w).

(** [json.dumps]: the document of a value.  With [n] levels of nesting
    allowed; a structure of [h] that is not circular nests less deep than
    [h] has objects. *)
Fixpoint dumps_fuel (n : nat) (h : list pyobj) (v : pyval) : option json :=
  match v with
  | VNone => Some JNull
  | VBool b => Some (JBool b)
  | VInt z => Some (JNum z)
  | VStr s => Some (JStr s)
  | VRef l =>
      match n with
      | O => None
      | S n' =>
          match h !! l with
          | Some (OList xs) => JArr <$> mapM (dumps_fuel n' h) xs
          | Some (ODict d) =>
              JObj <$> mapM (fun kv => pair (fst kv) <$> dumps_fuel n' h (snd kv))
                         (map_to_list d)
          | None => None
          end
      end
  end.

(** A circular structure makes json.dumps raise ValueError. *)
Definition dumps (v : pyval) : M json :=
  fun w => match dumps_fuel (S (List.length (heap w))) (heap w) v with
           | Some j => (Ok j, w)
           | None => (Raise ValueError, w)
           end.

(** [json.loads] of a document: new objects; of two members with the same
    name the later one stays.  An item of a list, a member of an object: *)
Definition load_item (load : json -> list pyobj -> pyval * list pyobj)
    (acc : list pyval * list pyobj) (i : json) : list pyval * list pyobj :=
  let '(x, h') := load i (snd acc) in (fst acc ++ [x], h').

Definition load_member (load : json -> list pyobj -> pyval * list pyobj)
    (acc : gmap string pyval * list pyobj) (m : string * json)
    : gmap string pyval * list pyobj :=
  let '(x, h') := load (snd m) (snd acc) in (<[fst m := x]> (fst acc), h').

Fixpoint load (j : json) (h : list pyobj) : pyval * list pyobj :=
  match j with
  | JNull => (VNone, h)
  | JBool b => (VBool b, h)
  | JNum z => (VInt z, h)
  | JStr s => (VStr s, h)
  | JArr items =>
      let '(xs, h1) := fold_left (load_item load) items ([], h) in
      (VRef (List.length h1), h1 ++ [OList xs])
  | JObj members =>
      let '(d, h1) := fold_left (load_member load) members (∅, h) in
      (VRef (List.length h1), h1 ++ [ODict d])
  end.

Definition loads (j : json) : M pyval :=
  fun w => let '(v, h) := load j (heap w) in (Ok v, set_heap (fun _ => h) w).

(** The member named [k] of an object; the last one, as json.loads has it,
    when several have the name. *)
Definition member (k : string) (j : json) : option json :=
  match j with
  | JObj members =>
      snd <$> List.find (fun kv => bool_decide (fst kv = k)) (rev members)
  | _ => None
  end.

(** *** The calendar: query, queryBooked, updateStatus *)

(** The configuration file: sections of options. *)
Definition config_get (config : gmap string (gmap string string))
    (section option : string) : M string :=
  match config !! section with
  | None => raise (NoSectionError section)
  | Some options =>
      match options !! option with
      | Some v => ret v
      | None => raise (NoOptionError section option)
      end
  end.

Definition query (env : Env) (path method : string) (params : pyval)
    (headers : list (string * pyval)) : M pyval :=
  body <- dumps params ;;
  tr <- get_trace ;;
  let response := http env tr method path body headers in
  emit (EvHttp method path body headers (status response)) ;;
  if negb (status response =? 200) then
    emit (EvStderr ("Problem querying " +:+ path +:+ ": " +:+ reason response)) ;;
    emit (EvStderr (body_text response)) ;;
    raise (SystemExit 1)
  else
    match body_json response with
    | Some j => loads j
    | None => raise ValueError
    end.

Definition queryBooked (env : Env) (config : gmap string (gmap string string))
    (function method : string) (params : pyval)
    (headers : option (list (string * pyval)))
    : M (list (string * pyval) * pyval) :=
  host <- config_get config "Server" "hostname" ;;
  tr <- get_trace ;;
  (if connect env tr host then ret tt else raise SocketError) ;;
  headers <-
    match headers with
    | Some hs => ret hs
    | None =>
        username <- config_get config "Authentication" "username" ;;
        password <- config_get config "Authentication" "password" ;;
        creds <- alloc (ODict (<["username" := VStr username]>
                                (<["password" := VStr password]> ∅))) ;;
        baseUrl <- config_get config "Server" "baseUrl" ;;
        session <- query env (baseUrl +:+ "Authentication/Authenticate") "POST" creds [] ;;
        token <- subscript session "sessionToken" ;;
        userId <- subscript session "userId" ;;
        ret [("X-Booked-SessionToken", token); ("X-Booked-UserId", userId)]
    end ;;
  baseUrl <- config_get config "Server" "baseUrl" ;;
  data <- query env (baseUrl +:+ function) method params headers ;;
  ret (headers, data).

Definition ACK : string := "The reservation was updated".

(** The loop over the custom attributes: an attribute with an id and a
    value gives a new dictionary of the two, any other one is printed. *)
Fixpoint reformat_attributes (attrs : list pyval) (acc : list pyval)
    : M (list pyval) :=
  match attrs with
  | [] => ret acc
  | attr :: attrs' =>
      has_id <- has_key attr "id" ;;
      has_value <- (if has_id then has_key attr "value" else ret false) ;;
      if has_id && has_value then
        id <- subscript attr "id" ;;
        value <- subscript attr "value" ;;
        flat <- alloc (ODict (<["attributeId" := id]>
                                (<["attributeValue" := value]> ∅))) ;;
        reformat_attributes attrs' (acc ++ [flat])
      else
        emit (EvPrint "Bad attr " attr) ;;
        reformat_attributes attrs' acc
  end.

(** The loop over the resources: the id of each. *)
Fixpoint reformat_resources (resources : list pyval) (acc : list pyval)
    : M (list pyval) :=
  match resources with
  | [] => ret acc
  | resource :: resources' =>
      id <- subscript resource "id" ;;
      reformat_resources resources' (acc ++ [id])
  end.

(** [bookedReservation] is the global variable of the main loop, which
    updateStatus reads for the path of its request. *)
Definition updateStatus (env : Env) (config : gmap string (gmap string string))
    (bookedReservation : pyval) (data : pyval) (status : string)
    (headers : option (list (string * pyval))) : M bool :=
  document <- dumps data ;;
  updateData <- loads document ;;
  attrs <- subscript updateData "customAttributes" ;;
  attrs <- iterate attrs ;;
  reformatted <- reformat_attributes attrs [] ;;
  reformattedAttributes <- alloc (OList reformatted) ;;
  assign updateData "customAttributes" reformattedAttributes ;;
  resources <- subscript updateData "resources" ;;
  resources <- iterate resources ;;
  reformatted <- reformat_resources resources [] ;;
  reformattedResources <- alloc (OList reformatted) ;;
  assign updateData "resources" reformattedResources ;;
  statusId <- config_get config "Status" status ;;
  assign updateData "statusId" (VStr statusId) ;;
  ref <- subscript bookedReservation "referenceNumber" ;;
  ref <- lift (match ref with VStr s => Ok s | _ => Raise TypeError end) ;;
  answer <- queryBooked env config ("Reservations/" +:+ ref) "POST" updateData headers ;;
  message <- subscript (snd answer) "message" ;;
  message <- lift (match message with VStr s => Ok s | _ => Raise TypeError end) ;;
  log DEBUG ("  Server response was: " +:+ message) ;;
  ret (bool_decide (message = ACK)).

(** *** The main loop *)

(** A dictionary key: lists and dictionaries cannot be one, and True and
    False are the keys 1 and 0. *)
Definition dict_key (v : pyval) : res pyval :=
  match v with
  | VRef _ => Raise TypeError
  | VBool b => Ok (VInt (if b then 1 else 0))
  | _ => Ok v
  end.

(** [bookedReservations[entry['referenceNumber']] = entry] for every entry
    of the list the calendar returned. *)
Fixpoint collect_reservations (entries : list pyval)
    (bookedReservations : gmap pyval pyval) : M (gmap pyval pyval) :=
  match entries with
  | [] => ret bookedReservations
  | bookedReservation :: entries' =>
      ref <- subscript bookedReservation "referenceNumber" ;;
      key <- lift (dict_key ref) ;;
      collect_reservations entries' (<[key := bookedReservation]> bookedReservations)
  end.

(** [bookedReservations.values()], in the order of the dictionary. *)
Definition values (bookedReservations : gmap pyval pyval) : list pyval :=
  map snd (map_to_list bookedReservations).

(** The start of the main program up to the loop: the reservations are
    fetched and the loop is given one entry per reference number. *)
Definition unique_reservations (env : Env) (config : gmap string (gmap string string))
    : M (list (string * pyval) * list pyval) :=
  log DEBUG "Reading current and future reservations" ;;
  answer <- queryBooked env config "Reservations/" "GET" VNone None ;;
  reservations <- subscript (snd answer) "reservations" ;;
  entries <- iterate reservations ;;
  bookedReservations <- collect_reservations entries ∅ ;;
  ret (fst answer, values bookedReservations).

(** *** convertAttributesToDict *)

(** The loop [dictAttrs[attr['label']] = attr['value']]: Python evaluates
    the right-hand side of the assignment first. *)
Fixpoint convert_attributes (attrs : list pyval) (dictAttrs : gmap pyval pyval)
    : M (gmap pyval pyval) :=
  match attrs with
  | [] => ret dictAttrs
  | attr :: attrs' =>
      value <- subscript attr "value" ;;
      label <- subscript attr "label" ;;
      key <- lift (dict_key label) ;;
      convert_attributes attrs' (<[key := value]> dictAttrs)
  end.

(** The dictionary it returns is new and is only read afterwards; it is
    given here by its content. *)
Definition convertAttributesToDict (attrs : pyval) : M (gmap pyval pyval) :=
  attrs <- iterate attrs ;;
  convert_attributes attrs ∅.

(** [data['description'] += text] *)
Definition append_description (data : pyval) (text : string) : M unit :=
  old <- subscript data "description" ;;
  match old with
  | VStr s => assign data "description" (VStr (s +:+ text))
  | VRef l =>
      fun w => match heap w !! l with
               | Some (OList xs) =>
                   assign data "description" old
                     (set_heap (fun h => <[l := OList (xs ++ map (fun a => VStr (String a EmptyString))
                                                         (Str.chars text))]> h) w)
               | _ => (Raise TypeError, w)
               end
  | _ => raise TypeError
  end.

(** The last branch of the dispatch but one: the reservation is running
    and its time is up. *)
Definition shutdown_expired (env : Env) (config : gmap string (gmap string string))
    (bookedReservation data : pyval) (headers : option (list (string * pyval)))
    : M unit :=
  log DEBUG "  Reservation has expired; shutting down cluster" ;;
  tr <- get_trace ;;
  append_description data (Str.nl +:+ Str.nl +:+ EMAIL_STOPPING (now env tr)) ;;
  updateStatus env config bookedReservation data "stopping" headers ;;
  root <- config_get config "Server" "dagDir" ;;
  ref <- subscript data "referenceNumber" ;;
  ref <- lift (match ref with VStr s => Ok s | _ => Raise TypeError end) ;;
  let dagDir := Path.join root ("dag-" +:+ ref) in
  stopped <- stopDagPB env dagDir ref ;;
  if stopped then
    tr <- get_trace ;;
    append_description data (Str.nl +:+ Str.nl +:+ EMAIL_STOPPED (now env tr)) ;;
    updateStatus env config bookedReservation data "created" headers ;;
    ret tt
  else ret tt.

(** The branch before it but one: the reservation is starting. *)
Definition check_starting (env : Env) (config : gmap string (gmap string string))
    (bookedReservation data : pyval) (headers : option (list (string * pyval)))
    : M unit :=
  log INFO "   Checking status of reservation " ;;
  root <- config_get config "Server" "dagDir" ;;
  ref <- subscript data "referenceNumber" ;;
  ref <- lift (match ref with VStr s => Ok s | _ => Raise TypeError end) ;;
  let dagDir := Path.join root ("dag-" +:+ ref) in
  info <- isDagRunning env dagDir ref ;;
  match info with
  | DagStarted text =>
      if negb (Str.is_empty text) then
        log INFO "   Reservation is running" ;;
        append_description data (Str.nl +:+ Str.nl +:+ text) ;;
        updateStatus env config bookedReservation data "running" headers ;;
        ret tt
      else ret tt
  | _ => ret tt
  end.

(** * Specification vocabulary *)

(** The key under which the main loop files an entry of the calendar's
    list: its reference number. *)
Definition reference_key (h : list pyobj) (entry : pyval) : option pyval :=
  match getitem h entry "referenceNumber" with
  | Ok ref => match dict_key ref with Ok key => Some key | Raise _ => None end
  | Raise _ => None
  end.

(** A pattern that ends in its only group, and the group takes one
    character or more. *)
Fixpoint ends_in_filled_group (r : re) : bool :=
  match r with
  | Cat _ r2 => ends_in_filled_group r2
  | Group O (Plus (One _)) => true
  | _ => false
  end.

(** Where a successful match ends: in a call of the continuation, on a
    rest of the input, with as many groups as before. *)
Definition via (m : list ascii -> caps -> cont -> option caps) : Prop :=
  forall s c k x, m s c k = Some x ->
    exists s' c', (List.length s' <= List.length s)%nat /\
                  List.length c' = List.length c /\ k s' c' = Some x.

(** The events of a run: what the trace has gained from [w] to [w']. *)
Definition new_events (w w' : World) : list event :=
  drop (List.length (trace w)) (trace w').

(** From [w0] to [w] the trace has only gained events that satisfy [P]. *)
Definition extends (P : event -> Prop) (w0 w : World) : Prop :=
  exists new, trace w = trace w0 ++ new /\ Forall P new.

(** A shutdown or clean sub-command that did not exit with 0. *)
Definition teardown_failure (e : event) : Prop :=
  exists dir cmd rc, rc <> 0 /\
    (e = EvShell Shutdown dir cmd rc \/ e = EvShell Clean dir cmd rc).

(** A request that writes the status [sid] of a reservation. *)
Definition writes_status (sid : string) (e : event) : Prop :=
  exists method path body headers status,
    e = EvHttp method path body headers status /\
    member "statusId" body = Some (JStr sid).

(** No shutdown or clean sub-command has failed. *)
Definition quiet (e : event) : Prop := ~ teardown_failure e.

(** The last word of a line of dag.sub, which names the file of a
    resource; None for a line without one. *)
Definition sub_token (line : string) : option string :=
  match Re.py_match re_sub_token line with
  | Some matched => Re.group matched 0
  | None => None
  end.

(** The command that boots the cluster of a resource. *)
Definition is_boot (e : event) : Prop :=
  exists dir cmd rc, e = EvShell Boot dir cmd rc.

(** A shutdown or clean sub-command is given the cluster [name]. *)
Definition names_cluster (name : string) (e : event) : Prop :=
  match e with
  | EvShell Shutdown _ cmd _ => exists ssh_pragma, cmd = ssh_pragma +:+ " shutdown " +:+ name
  | EvShell Clean _ cmd _ => exists ssh_pragma, cmd = ssh_pragma +:+ " clean " +:+ name
  | _ => True
  end.

(** The shell commands of a trace, with the directory of their resource. *)
Definition commands (tr : list event) : list (site * string * string) :=
  omap (fun e => match e with
                 | EvShell at_ dir cmd _ => Some (at_, dir, cmd)
                 | _ => None
                 end) tr.

(** The remote log of the resource in [vcdir] is fetched. *)
Definition fetches (vcdir : string) (e : event) : Prop :=
  exists cmd rc, e = EvShell FetchLog vcdir cmd rc.

(** The script writes the file [path]. *)
Definition writes_file (path : string) (e : event) : Prop :=
  exists content, e = EvWrite path content.

(** [n] polls of a reservation that is starting, one after the other,
    whatever each of them returns or raises. *)
Fixpoint polls (env : Env) (dagDir refNumber : string) (n : nat) (w : World) : World :=
  match n with
  | O => w
  | S n' => polls env dagDir refNumber n' (snd (isDagRunning env dagDir refNumber w))
  end.

(** An event that leaves the cached record of the resource in [vcdir]
    alone: no fetch of its remote log, no write of its cluster_info. *)
Definition kept (vcdir : string) (e : event) : Prop :=
  ~ fetches vcdir e /\ ~ writes_file (Path.join vcdir "cluster_info") e.

(** The liveness probe of the resource in [vcdir] succeeded. *)
Definition probe_ok (vcdir : string) (e : event) : Prop :=
  exists cmd, e = EvShell Ping vcdir cmd 0 \/ e = EvShell ListCluster vcdir cmd 0.

(** A liveness probe failed. *)
Definition probe_failed (e : event) : Prop :=
  exists at_ dir cmd rc,
    (at_ = Ping \/ at_ = ListCluster) /\ rc <> 0 /\ e = EvShell at_ dir cmd rc.

(** The directories of the resources that the lines name. *)
Definition resources (lines : list string) : list string :=
  omap (fun line => Path.dirname <$> sub_token line) lines.

(** Every path that is a file in [w] is one in [w']. *)
Definition grows (w w' : World) : Prop :=
  forall p, is_Some (files w !! p) -> is_Some (files w' !! p).

(** What an iteration of the detector does to the loop state. *)
Definition step_post (line : string) (st : dag_state) (w1 : World)
    (r : res (ctl dag_state dag_result)) (w' : World) : Prop :=
  grows w1 w' /\
  exists new, trace w' = trace w1 ++ new /\
    match r with
    | Ok (Next st') =>
        inactive st' = [] ->
        inactive st = [] /\ Forall (fun e => ~ probe_failed e) new /\
        forall token, sub_token line = Some token ->
          is_Some (files w' !! Path.join (Path.dirname token) "cluster_info")
          /\ Exists (probe_ok (Path.dirname token)) new
    | Ok (Return v) => v = DagFalse
    | Raise _ => True
    end.

(** What the loop has established after the lines [done]. *)
Definition loop_inv (w : World) (done : list string) (st : dag_state) (w1 : World) : Prop :=
  grows w w1 /\
  exists new, trace w1 = trace w ++ new /\
    (inactive st = [] ->
     Forall (fun e => ~ probe_failed e) new /\
     Forall (fun vcdir => is_Some (files w1 !! Path.join vcdir "cluster_info")
                          /\ Exists (probe_ok vcdir) new) (resources done)).

(** [h'] is [h] with more objects at its end. *)
Definition extended (h h' : list pyobj) : Prop := exists ext, h' = h ++ ext.

(** From [w0] to [w] the files are the same and the objects that [w0] had
    are as they were. *)
Definition framed (w0 w : World) : Prop :=
  files w = files w0 /\ take (List.length (heap w0)) (heap w) = heap w0.

(** ** Documents and the objects they stand for *)

(** [v] is the value of the document [j] in the heap [h], through objects
    whose places satisfy [P] only. *)
Inductive denotes (h : list pyobj) (P : nat -> Prop) : pyval -> json -> Prop :=
  | den_null : denotes h P VNone JNull
  | den_bool b : denotes h P (VBool b) (JBool b)
  | den_num z : denotes h P (VInt z) (JNum z)
  | den_str s : denotes h P (VStr s) (JStr s)
  | den_arr l xs items :
      P l -> h !! l = Some (OList xs) ->
      Forall2 (denotes h P) xs items ->
      denotes h P (VRef l) (JArr items)
  | den_obj l d members :
      P l -> h !! l = Some (ODict d) ->
      Forall2 (fun kv mem => fst kv = fst mem /\ denotes h P (snd kv) (snd mem))
        (map_to_list d) members ->
      denotes h P (VRef l) (JObj members).

(** A document as json.dumps writes it: the members of an object come in
    the order of a dictionary, each name once. *)
Inductive canonical : json -> Prop :=
  | can_null : canonical JNull
  | can_bool b : canonical (JBool b)
  | can_num z : canonical (JNum z)
  | can_str s : canonical (JStr s)
  | can_arr items : Forall canonical items -> canonical (JArr items)
  | can_obj members (d : gmap string pyval) :
      map fst members = map fst (map_to_list d) ->
      Forall (fun mem => canonical (snd mem)) members ->
      canonical (JObj members).

(** The places from [a] up to [b], without [b]. *)
Definition between (a b : nat) (l : nat) : Prop := (a <= l < b)%nat.

(** What json.loads makes of a document denotes it, through new objects. *)
Definition loads_well (i : json) : Prop :=
  forall h v h', load i h = (v, h') ->
    denotes h' (between (List.length h) (List.length h')) v i.

Definition flat_attribute (attr : json) : option json :=
  match member "id" attr, member "value" attr with
  | Some id, Some value =>
      Some (JObj [("attributeId", id); ("attributeValue", value)])
  | _, _ => None
  end.

Definition config_lookup (config : gmap string (gmap string string))
    (section name : string) : option string :=
  match config !! section with
  | Some options => options !! name
  | None => None
  end.

(** From [h] to [h'] every object but the one at [l0] is as it was. *)
Definition stable (l0 : nat) (h h' : list pyobj) : Prop :=
  forall l o, l <> l0 -> h !! l = Some o -> h' !! l = Some o.

(** The new dictionary of an attribute: where it is, and what its two
    values denote. *)
Definition flat_cell (h : list pyobj) (l0 a : nat) (x : pyval) (fj : json) : Prop :=
  exists lf id value idj valuej,
    x = VRef lf /\ lf <> l0 /\
    h !! lf = Some (ODict (<["attributeId" := id]> (<["attributeValue" := value]> ∅))) /\
    denotes h (between a l0) id idj /\ denotes h (between a l0) value valuej /\
    fj = JObj [("attributeId", idj); ("attributeValue", valuej)].

(** An event that is neither a failed shutdown or clean sub-command nor a
    request that writes a status. *)
Definition plain (e : event) : Prop :=
  quiet e /\ forall sid, ~ writes_status sid e.

(** What a request for [params] leaves in the trace after [pre], and what
    it returns.  [h] is the heap the body was taken from. *)
Definition requested (env : Env) (method path : string) (params : pyval)
    (w : World) (pre : list event) (h : list pyobj)
    (r : res (list (string * pyval) * pyval)) (w' : World) : Prop :=
  exists body hs st errs,
    dumps_fuel (S (List.length h)) h params = Some body /\
    trace w' = trace w ++ pre ++ EvHttp method path body hs st :: errs /\
    Forall plain errs /\
    match r with
    | Ok (hs', v) =>
        errs = [] /\ st = 200 /\ hs' = hs /\
        exists answer,
          body_json (http env (trace w ++ pre) method path body hs) = Some answer /\
          load answer h = (v, heap w')
    | Raise _ => True
    end.

Definition booked (env : Env) (config : gmap string (gmap string string))
    (function method : string) (params : pyval) (w : World)
    (r : res (list (string * pyval) * pyval)) (w' : World) : Prop :=
  exists pre,
    Forall plain pre /\ extended (heap w) (heap w') /\ files w' = files w /\
    ((exists e, r = Raise e) /\ trace w' = trace w ++ pre \/
     exists baseUrl h,
       config_lookup config "Server" "baseUrl" = Some baseUrl /\
       extended (heap w) h /\
       requested env method (baseUrl +:+ function) params w pre h r w').

(** An event of updateStatus for the status named [status]: if it writes
    a status, then the one the configuration has for the name. *)
Definition status_event (config : gmap string (gmap string string))
    (status : string) (e : event) : Prop :=
  quiet e /\
  forall sid, writes_status sid e -> config_lookup config "Status" status = Some sid.

(** updateStatus has sent a request that writes the status named
    [status]. *)
Definition sent (config : gmap string (gmap string string)) (status : string)
    (w w' : World) : Prop :=
  exists sid, config_lookup config "Status" status = Some sid /\
              Exists (writes_status sid) (new_events w w').

(** An event that is not a request to the calendar. *)
Definition local_event (e : event) : Prop :=
  match e with EvHttp _ _ _ _ _ => False | _ => True end.

(** An event that writes no other status than Stopping. *)
Definition stopping_event (config : gmap string (gmap string string)) (e : event) : Prop :=
  forall sid, writes_status sid e -> config_lookup config "Status" "stopping" = Some sid.

(** ** Worlds to run the script in

    The dag directory of reservation 7 on resource 1, as writeDag and
    startDagPB leave it, for a resource that speaks [version]. *)
Definition dag7 : string := "/var/pcc/dag-7".

Definition dag7_files (version : string) : gmap string string :=
  <[ "/var/pcc/dag-7/dag.sub" := " JOB VC1  /var/pcc/dag-7/vc1/vc1.sub" +:+ Str.nl ]>
  (<[ "/var/pcc/dag-7/vc1/vc1.sub" :=
        NODE_TEMPLATE "1" "host1.example.org" "4" dag7 version "root" "/var/run/pcc" ]>
  (<[ "/var/pcc/dag-7/vc1/vc1.vmconf" :=
        VMCONF_TEMPLATE "/var/pcc/dag-7/public_key" "2" "vc-7" dag7 ]>
  (<[ "/var/pcc/dag-7/vc1/hostname" := "host1.example.org" ]> ∅))).

Definition world_of (fs : gmap string string) : World :=
  {| files := fs; heap := []; trace := [] |}.

(** An outside in which every command exits with [rc], the scp brings
    [remote_log] and the calendar answers [answer] to everything. *)
Definition env_of (rc : Z) (remote_log : option string) (answer : json) : Env :=
  {| sh_exit := fun _ _ => rc;
     sh_stdout := fun _ _ => "ok";
     scp_log := fun _ _ => remote_log;
     gethostname := "pcc.example.org";
     now := fun _ => "2016-03-01 12:00:00";
     connect := fun _ _ => true;
     http := fun _ _ _ _ _ =>
       {| status := 200; reason := "OK"; body_text := EmptyString;
          body_json := Some answer |} |}.

Definition answer_ok : json := JObj [("message", JStr ACK)].

(** The log of Scenario B: address, two CPUs, two compute nodes. *)
Definition log_complete : string :=
  "fqdn=cluster1.example.org" +:+ Str.nl +:+ "numcpus=2" +:+ Str.nl +:+
  "cnodes=node1" +:+ Str.nl +:+ "node2".

(** A log with the address and the CPU count, and no compute nodes yet. *)
Definition log_no_nodes : string :=
  "fqdn=cluster1.example.org" +:+ Str.nl +:+ "numcpus=2" +:+ Str.nl.

(** A log with the address only. *)
Definition log_no_cpus : string :=
  "fqdn=cluster1.example.org" +:+ Str.nl.

(** The dag directory of reservation 9 on two resources, both up: the log
    of each resource names its cluster, alpha and beta; the log at the top
    of the directory names a cluster omega. *)
Definition dag9 : string := "/var/pcc/dag-9".

Definition dag9_files : gmap string string :=
  <[ "/var/pcc/dag-9/dag.sub" :=
       " JOB VC1  /var/pcc/dag-9/vc1/vc1.sub" +:+ Str.nl +:+
       " JOB VC2  /var/pcc/dag-9/vc2/vc2.sub" +:+ Str.nl ]>
  (<[ "/var/pcc/dag-9/vc1/vc1.sub" :=
        NODE_TEMPLATE "1" "host1.example.org" "4" dag9 "2" "root" "/var/run/pcc" ]>
  (<[ "/var/pcc/dag-9/vc2/vc2.sub" :=
        NODE_TEMPLATE "2" "host2.example.org" "4" dag9 "2" "root" "/var/run/pcc" ]>
  (<[ "/var/pcc/dag-9/vc1/pragma_boot.log" :=
        "Allocated cluster alpha with compute nodes: a1, a2" +:+ Str.nl ]>
  (<[ "/var/pcc/dag-9/vc2/pragma_boot.log" :=
        "Allocated cluster beta with compute nodes: b1, b2" +:+ Str.nl ]>
  (<[ "/var/pcc/dag-9/pragma_boot.log" :=
        "Allocated cluster omega with compute nodes: o1" +:+ Str.nl ]> ∅))))).

(** The list of the calendar for two reservations, of which 7 is on two
    resources. *)
Definition listed_heap : list pyobj :=
  [ ODict (<["referenceNumber" := VStr "7"]> (<["resourceId" := VStr "1"]> ∅));
    ODict (<["referenceNumber" := VStr "7"]> (<["resourceId" := VStr "2"]> ∅));
    ODict (<["referenceNumber" := VStr "8"]> (<["resourceId" := VStr "1"]> ∅)) ].

Definition listed_world : World := {| files := ∅; heap := listed_heap; trace := [] |}.

Definition listed_entries : list pyval := [VRef 0; VRef 1; VRef 2].

Definition listed_collected : gmap pyval pyval :=
  <[VStr "7" := VRef 1]> (<[VStr "8" := VRef 2]> ∅).

Definition dag7_cached : gmap string string :=
  <[ "/var/pcc/dag-7/vc1/cluster_info" :=
       "fqdn=cluster1.example.org" +:+ Str.nl +:+ "cnodes=node1" +:+ Str.nl +:+ "node2" ]>
  (dag7_files "1").

(** The dag directory of reservation 8 on two resources: the first is up
    since an earlier run, which has left its record; the second is still
    booting. *)
Definition dag8 : string := "/var/pcc/dag-8".

Definition dag8_files : gmap string string :=
  <[ "/var/pcc/dag-8/dag.sub" :=
       " JOB VC1  /var/pcc/dag-8/vc1/vc1.sub" +:+ Str.nl +:+
       " JOB VC2  /var/pcc/dag-8/vc2/vc2.sub" +:+ Str.nl ]>
  (<[ "/var/pcc/dag-8/vc1/vc1.sub" :=
        NODE_TEMPLATE "1" "host1.example.org" "4" dag8 "1" "root" "/var/run/pcc" ]>
  (<[ "/var/pcc/dag-8/vc2/vc2.sub" :=
        NODE_TEMPLATE "2" "host2.example.org" "4" dag8 "1" "root" "/var/run/pcc" ]>
  (<[ "/var/pcc/dag-8/vc1/hostname" := "host1.example.org" ]>
  (<[ "/var/pcc/dag-8/vc2/hostname" := "host2.example.org" ]>
  (<[ "/var/pcc/dag-8/vc1/cluster_info" :=
        "fqdn=cluster1.example.org" +:+ Str.nl +:+ "cnodes=node1 node2" ]> ∅))))).

(** The configuration of the examples. *)
Definition demo_config : gmap string (gmap string string) :=
  <[ "Server" := <[ "hostname" := "calendar.example.org" ]>
                 (<[ "baseUrl" := "/booked/Web/Services/index.php/" ]>
                 (<[ "dagDir" := "/var/pcc" ]> ∅)) ]>
  (<[ "Status" := <[ "created" := "1" ]> (<[ "starting" := "2" ]>
                  (<[ "running" := "3" ]> (<[ "stopping" := "4" ]> ∅))) ]> ∅).

(** Reservation 9 as the calendar returned it: two custom attributes, of
    which the second has no value, and one resource. *)
Definition demo_heap : list pyobj :=
  [ ODict (<["id" := VStr "1"]> (<["label" := VStr "image"]> (<["value" := VStr "ubuntu"]> ∅)));
    ODict (<["id" := VStr "2"]> (<["label" := VStr "note"]> ∅));
    OList [VRef 0; VRef 1];
    ODict (<["id" := VStr "5"]> (<["name" := VStr "cluster1"]> ∅));
    OList [VRef 3];
    ODict (<["referenceNumber" := VStr "9"]> (<["description" := VStr "demo"]>
          (<["customAttributes" := VRef 2]> (<["resources" := VRef 4]>
          (<["statusId" := VStr "3"]> ∅))))) ].

Definition demo_reservation : pyval := VRef 5.

Definition demo_headers : list (string * pyval) :=
  [("X-Booked-SessionToken", VStr "token"); ("X-Booked-UserId", VStr "1")].

Definition demo_world (fs : gmap string string) : World :=
  {| files := fs; heap := demo_heap; trace := [] |}.

(** Its document, and the two lists of it. *)
Definition demo_attributes : list json :=
  [ JObj [("id", JStr "1"); ("value", JStr "ubuntu"); ("label", JStr "image")];
    JObj [("id", JStr "2"); ("label", JStr "note")] ].

Definition demo_resources : list json :=
  [ JObj [("id", JStr "5"); ("name", JStr "cluster1")] ].

Definition demo_document : json :=
  JObj [("statusId", JStr "3");
        ("customAttributes", JArr demo_attributes);
        ("resources", JArr demo_resources);
        ("referenceNumber", JStr "9"); ("description", JStr "demo")].

(** The body of the request that sets it to Stopping. *)
Definition demo_body : json :=
  JObj [("statusId", JStr "4");
        ("customAttributes",
         JArr [JObj [("attributeId", JStr "1"); ("attributeValue", JStr "ubuntu")]]);
        ("resources", JArr [JStr "5"]);
        ("referenceNumber", JStr "9"); ("description", JStr "demo")].

(** ** Worlds of the further properties *)

(** Reservation 7 as the calendar returned it while it is starting: two
    custom attributes, both with a value, and one resource. *)
Definition starting_heap : list pyobj :=
  [ ODict (<["id" := VStr "1"]> (<["label" := VStr "image"]> (<["value" := VStr "ubuntu"]> ∅)));
    ODict (<["id" := VStr "2"]> (<["label" := VStr "CPUs"]> (<["value" := VStr "4"]> ∅)));
    OList [VRef 0; VRef 1];
    ODict (<["id" := VStr "5"]> (<["name" := VStr "cluster1"]> ∅));
    OList [VRef 3];
    ODict (<["referenceNumber" := VStr "7"]> (<["description" := VStr "demo"]>
          (<["customAttributes" := VRef 2]> (<["resources" := VRef 4]>
          (<["statusId" := VStr "2"]> ∅))))) ].

Definition starting_reservation : pyval := VRef 5.

Definition starting_world : World :=
  {| files := dag7_files "1"; heap := starting_heap; trace := [] |}.

(** Its attributes by label. *)
Definition starting_attributes : gmap pyval pyval :=
  <[VStr "image" := VStr "ubuntu"]> (<[VStr "CPUs" := VStr "4"]> ∅).

(** The configuration of the examples with the account of the script. *)
Definition login_config : gmap string (gmap string string) :=
  <[ "Authentication" := <[ "username" := "pcc" ]> (<[ "password" := "secret" ]> ∅) ]>
  demo_config.

(** The calendar's answer to a login: the token is a string, the id of
    the user a number. *)
Definition answer_session : json :=
  JObj [("sessionToken", JStr "token"); ("userId", JNum 5); ("message", JStr ACK)].

(** An outside in which the calendar refuses every request. *)
Definition env_refusing : Env :=
  {| sh_exit := fun _ _ => 0;
     sh_stdout := fun _ _ => "ok";
     scp_log := fun _ _ => None;
     gethostname := "pcc.example.org";
     now := fun _ => "2016-03-01 12:00:00";
     connect := fun _ _ => true;
     http := fun _ _ _ _ _ =>
       {| status := 401; reason := "Unauthorized";
          body_text := "You must be authenticated"; body_json := None |} |}.

(** A dag directory with the complete log of its resource. *)
Definition dag7_logged : gmap string string :=
  <[ "/var/pcc/dag-7/vc1/pragma_boot.log" := log_complete ]> (dag7_files "1").

(** ** The payload of updateStatus

    An attribute is flattened to a pair, as the specification words it. *)
Definition flattened (attr flat : json) : Prop :=
  exists id value, flat = JObj [("attributeId", id); ("attributeValue", value)].

(** What updateStatus has sent and returned, for a reservation whose
    document is [doc], with the custom attributes [attrs] and the
    resources [resources]: the request is the last event but one, [b] is
    what was returned. *)
Definition payload_sent (env : Env) (config : gmap string (gmap string string))
    (status : string) (w w' : World) (doc : json) (attrs resources : list json)
    (b : bool) : Prop :=
  exists pre path body hs answer msg sid ids,
    trace w' = trace w ++ pre ++
      [EvHttp "POST" path body hs 200;
       EvLog DEBUG ("  Server response was: " +:+ msg)] /\
    member "customAttributes" body = Some (JArr (omap flat_attribute attrs)) /\
    member "resources" body = Some (JArr ids) /\
    Forall2 (fun r id => member "id" r = Some id) resources ids /\
    config_lookup config "Status" status = Some sid /\
    member "statusId" body = Some (JStr sid) /\
    (forall k, k <> "customAttributes" -> k <> "resources" -> k <> "statusId" ->
               member k body = member k doc) /\
    body_json (http env (trace w ++ pre) "POST" path body hs) = Some answer /\
    member "message" answer = Some (JStr msg) /\
    b = bool_decide (msg = ACK).

(** ** The vocabulary of the further properties *)

(** A command that the script has run. *)
Definition is_command (e : event) : Prop :=
  match e with EvShell _ _ _ _ => True | _ => False end.

(** The events of a teardown that was given up: sub-commands that exited
    with 0, then one that did not, and no command after it. *)
Definition halted (new : list event) : Prop :=
  exists pre e post,
    new = pre ++ e :: post /\ Forall quiet pre /\ teardown_failure e /\
    Forall (fun x => ~ is_command x) post.

(** Two requests, one after the other: the first writes the status named
    [first], the second the status named [second]. *)
Definition sent_in_order (config : gmap string (gmap string string))
    (first second : string) (new : list event) : Prop :=
  exists sid1 sid2 pre e1 mid e2 post,
    config_lookup config "Status" first = Some sid1 /\
    config_lookup config "Status" second = Some sid2 /\
    new = pre ++ e1 :: mid ++ e2 :: post /\
    writes_status sid1 e1 /\ writes_status sid2 e2.

(** An event of the calendar client: a message or a request; no command
    and no file. *)
Definition calendar_event (e : event) : Prop :=
  match e with
  | EvShell _ _ _ _ | EvWrite _ _ | EvSleep _ => False
  | _ => True
  end.

(** What one request leaves and returns: the request with the document of
    [params] as its body, after it the two messages of a refusal if the
    answer is not 200; the result is the answer, loaded. *)
Definition queried (env : Env) (path method : string) (params : pyval)
    (headers : list (string * pyval)) (w : World) (r : res pyval) (w' : World) : Prop :=
  exists body,
    dumps_fuel (S (List.length (heap w))) (heap w) params = Some body /\
    let answer := http env (trace w) method path body headers in
    if status answer =? 200 then
      trace w' = trace w ++ [EvHttp method path body headers 200] /\
      match body_json answer with
      | Some j => exists v, r = Ok v /\ load j (heap w) = (v, heap w')
      | None => r = Raise ValueError /\ heap w' = heap w
      end
    else
      r = Raise (SystemExit 1) /\ heap w' = heap w /\
      trace w' = trace w ++
        [EvHttp method path body headers (status answer);
         EvStderr ("Problem querying " +:+ path +:+ ": " +:+ reason answer);
         EvStderr (body_text answer)].

(** What queryBooked has done when it was given no headers and returns
    [hs'] and [v], for parameters whose document is [body]: the two
    requests; the headers, read from the answer to the first as it was
    loaded after the credentials; the result, loaded from the answer to
    the second. *)
Definition authenticated (env : Env) (config : gmap string (gmap string string))
    (function method : string) (body : json) (w w' : World)
    (hs' : list (string * pyval)) (v : pyval) : Prop :=
  exists username password baseUrl session sv h1 token userId answer,
    config_lookup config "Authentication" "username" = Some username /\
    config_lookup config "Authentication" "password" = Some password /\
    config_lookup config "Server" "baseUrl" = Some baseUrl /\
    let credentials := JObj [("username", JStr username); ("password", JStr password)] in
    let creds := ODict (<["username" := VStr username]> (<["password" := VStr password]> ∅)) in
    let authUrl := baseUrl +:+ "Authentication/Authenticate" in
    let login := EvHttp "POST" authUrl credentials [] 200 in
    new_events w w' = [login; EvHttp method (baseUrl +:+ function) body hs' 200] /\
    body_json (http env (trace w) "POST" authUrl credentials []) = Some session /\
    load session (heap w ++ [creds]) = (sv, h1) /\
    getitem h1 sv "sessionToken" = Ok token /\
    getitem h1 sv "userId" = Ok userId /\
    hs' = [("X-Booked-SessionToken", token); ("X-Booked-UserId", userId)] /\
    body_json (http env (trace w ++ [login]) method (baseUrl +:+ function) body hs')
    = Some answer /\
    load answer h1 = (v, heap w').

(** The key under which an attribute is filed: its label. *)
Definition label_key (h : list pyobj) (attr : pyval) : option pyval :=
  match getitem h attr "label" with
  | Ok label => match dict_key label with Ok key => Some key | Raise _ => None end
  | Raise _ => None
  end.

(** The directories in which a boot command was run, in order. *)
Definition boots (l : list event) : list string :=
  omap (fun e => match e with EvShell Boot dir _ _ => Some dir | _ => None end) l.

(** How deep the lists and objects of a document nest. *)
Fixpoint depth (j : json) : nat :=
  match j with
  | JArr items => S (list_max (map depth items))
  | JObj members => S (list_max (map (fun mem => depth (snd mem)) members))
  | _ => O
  end.

(** What follows [.*] in the pattern of a line of dag.sub. *)
Definition after_dots : cont :=
  fun s c => mt false (Cat (One Ws) (Cat (Group 0 (Plus (One NWs))) Eol)) s c
               (fun _ c' => Some c').

(** ** Reasoning about the programs of the monad *)

(** [wp m Q w]: run from [w], [m] ends in a result and a world that
    satisfy [Q]. *)
Definition wp {A} (m : M A) (Q : res A -> World -> Prop) (w : World) : Prop :=
  Q (fst (m w)) (snd (m w)).

(** * Properties *)

Section wp_rules.
Context {A B : Type}.
Implicit Types (Q : res A -> World -> Prop) (w : World).

Lemma wp_run (m : M A) Q w r w' : wp m Q w -> m w = (r, w') -> Q r w'.
Proof. unfold wp. intros H E. rewrite E in H. exact H. Qed.

Lemma wp_ret (a : A) Q w : Q (Ok a) w -> wp (ret a) Q w.
Proof. exact id. Qed.

Lemma wp_raise e Q w : Q (Raise e) w -> wp (raise e) Q w.
Proof. exact id. Qed.

Lemma wp_lift (r : res A) Q w : Q r w -> wp (lift r) Q w.
Proof. exact id. Qed.

Lemma wp_bind (m : M B) (f : B -> M A) Q w :
wp m (fun r w' => match r with
                  | Ok b => wp (f b) Q w'
                  | Raise e => Q (Raise e) w'
                  end) w ->
wp (bind m f) Q w.
Proof. unfold wp, bind. destruct (m w) as [[b|e] w']; exact id. Qed.

Lemma wp_try_except (m h : M A) Q w :
wp m (fun r w' => match r with
                  | Ok a => Q (Ok a) w'
                  | Raise _ => wp h Q w'
                  end) w ->
wp (try_except m h) Q w.
Proof. unfold wp, try_except. destruct (m w) as [[b|e] w']; exact id. Qed.

Lemma wp_mono (m : M A) Q Q' w :
(forall r w', Q r w' -> Q' r w') -> wp m Q w -> wp m Q' w.
Proof. unfold wp. auto. Qed.
End wp_rules.

Section wp_primitives.
Implicit Types (w : World).

Lemma wp_emit e (Q : res unit -> World -> Prop) w :
Q (Ok tt) (add_event e w) -> wp (emit e) Q w.
Proof. exact id. Qed.

Lemma wp_log lvl msg (Q : res unit -> World -> Prop) w :
Q (Ok tt) (add_event (EvLog lvl msg) w) -> wp (log lvl msg) Q w.
Proof. exact id. Qed.

Lemma wp_get_trace (Q : res (list event) -> World -> Prop) w :
Q (Ok (trace w)) w -> wp get_trace Q w.
Proof. exact id. Qed.

Lemma wp_read_file p (Q : res string -> World -> Prop) w :
(forall c, files w !! p = Some c -> Q (Ok c) w) ->
(files w !! p = None -> Q (Raise (IOError p)) w) ->
wp (read_file p) Q w.
Proof.
unfold wp, read_file. intros H1 H2.
destruct (files w !! p) eqn:E; simpl; auto.
Qed.

Lemma wp_write_file p c (Q : res unit -> World -> Prop) w :
(is_dir (files w) p = false ->
 Q (Ok tt) (add_event (EvWrite p c) (set_files (insert p c) w))) ->
(is_dir (files w) p = true -> Q (Raise (IOError p)) w) ->
wp (write_file p c) Q w.
Proof. unfold wp, write_file. destruct (is_dir (files w) p); simpl; auto. Qed.

Lemma wp_path_exists p (Q : res bool -> World -> Prop) w :
(forall b, (b = false -> files w !! p = None) -> Q (Ok b) w) ->
wp (path_exists p) Q w.
Proof.
unfold wp, path_exists. intros H. apply H. simpl.
intros [Hn _]%orb_false_elim. apply bool_decide_eq_false in Hn.
destruct (files w !! p); [destruct Hn; eauto | reflexivity].
Qed.

Lemma wp_glob_sub d (Q : res (list string) -> World -> Prop) w :
(forall l, Q (Ok l) w) -> wp (glob_sub d) Q w.
Proof. intros H. apply H. Qed.

Lemma wp_shell env at_ dir cmd effect (Q : res Z -> World -> Prop) w :
Q (Ok (sh_exit env (trace w) cmd))
  (add_event (EvShell at_ dir cmd (sh_exit env (trace w) cmd))
     (set_files (effect (trace w)) w)) ->
wp (shell env at_ dir cmd effect) Q w.
Proof. exact id. Qed.

Lemma wp_getRegexFromFile file regex (Q : res rx -> World -> Prop) w :
(forall text, files w !! file = Some text -> Q (Ok (regex_result regex text)) w) ->
(files w !! file = None -> Q (Raise (IOError file)) w) ->
wp (getRegexFromFile file regex) Q w.
Proof.
intros H1 H2. unfold getRegexFromFile. apply wp_bind, wp_read_file; auto.
Qed.

(** A loop, with an invariant over the items done and the loop state. *)
Lemma wp_for_each {X S R} (I : list X -> S -> World -> Prop)
  (body : X -> S -> M (ctl S R)) xs s0 (Q : res (ctl S R) -> World -> Prop) w :
I [] s0 w ->
(forall done x rest s w1, xs = done ++ x :: rest -> I done s w1 ->
   wp (body x s) (fun r w' => match r with
                              | Ok (Next s') => I (done ++ [x]) s' w'
                              | Ok (Return v) => Q (Ok (Return v)) w'
                              | Raise e => Q (Raise e) w'
                              end) w1) ->
(forall s w1, I xs s w1 -> Q (Ok (Next s)) w1) ->
wp (for_each body xs s0) Q w.
Proof.
intros H0 Hbody Hend.
assert (G : forall rest done s w1, xs = done ++ rest -> I done s w1 ->
            wp (for_each body rest s) Q w1).
{ induction rest as [|x rest IH]; intros done s w1 E HI.
  - rewrite app_nil_r in E. subst done. apply Hend, HI.
  - simpl. apply wp_bind.
    eapply wp_mono; [|eapply Hbody; eauto].
    intros [[s'|v]|e] w' H; simpl in *; auto.
    eapply IH; [|exact H]. rewrite <- app_assoc. exact E. }
apply (G xs [] s0 w); [reflexivity | exact H0].
Qed.
End wp_primitives.

Section wp_objects.
Implicit Types (w : World).

Lemma wp_subscript v k (Q : res pyval -> World -> Prop) w :
Q (getitem (heap w) v k) w -> wp (subscript v k) Q w.
Proof. exact id. Qed.

Lemma wp_iterate v (Q : res (list pyval) -> World -> Prop) w :
Q (items (heap w) v) w -> wp (iterate v) Q w.
Proof. exact id. Qed.

Lemma wp_has_key v k (Q : res bool -> World -> Prop) w :
Q (contains_key (heap w) v k) w -> wp (has_key v k) Q w.
Proof. exact id. Qed.
End wp_objects.

(** ** The reservations the main loop goes through *)

(** What collect_reservations leaves in the dictionary: the world is as it
    was; every key is the reference number of its entry, which is an old
    entry of the dictionary or one of the list; and the keys are the old
    ones and those of the list. *)
Lemma collect_reservations_spec entries :
  forall m0 w,
    wp (collect_reservations entries m0)
       (fun r w' =>
          w' = w /\
          match r with
          | Ok m =>
              (forall key e, m !! key = Some e ->
                 m0 !! key = Some e \/
                 (e ∈ entries /\ reference_key (heap w) e = Some key)) /\
              (forall key, is_Some (m !! key) <->
                 is_Some (m0 !! key) \/ key ∈ omap (reference_key (heap w)) entries) /\
              Forall (fun e => is_Some (reference_key (heap w) e)) entries
          | Raise _ => True
          end) w.
Proof.
  induction entries as [|e entries IH]; intros m0 w.
  - apply wp_ret. split; [reflexivity|]. split; [auto|]. split; [|constructor].
    intros key. split; [auto|]. intros [H|H]; [exact H|]. inversion H.
  - simpl. apply wp_bind, wp_subscript.
    destruct (getitem (heap w) e "referenceNumber") as [ref|ex] eqn:Eg; [|done].
    apply wp_bind, wp_lift.
    destruct (dict_key ref) as [k|ex] eqn:Ek; [|done].
    assert (Hk : reference_key (heap w) e = Some k).
    { unfold reference_key. rewrite Eg, Ek. reflexivity. }
    eapply wp_mono; [|apply IH].
    intros [m|ex] w' [-> H]; (split; [reflexivity|]); [|exact I].
    destruct H as (H1 & H2 & H3). split; [|split].
    + intros key e' Hm. destruct (H1 _ _ Hm) as [Hin|[Hin Hr]].
      * destruct (decide (k = key)) as [->|Hne].
        -- rewrite lookup_insert_eq in Hin. injection Hin as <-.
           right. split; [left|exact Hk].
        -- rewrite lookup_insert_ne in Hin by exact Hne. left. exact Hin.
      * right. split; [right; exact Hin|exact Hr].
    + intros key. rewrite H2. simpl. rewrite Hk.
      rewrite elem_of_cons. destruct (decide (k = key)) as [->|Hne].
      * rewrite lookup_insert_eq. split; [intros _; right; left; reflexivity|].
        intros _. left. eauto.
      * rewrite lookup_insert_ne by exact Hne.
        split; [tauto|]. intros [H|[H|H]]; [tauto|congruence|tauto].
    + constructor; [rewrite Hk; eauto | exact H3].
Qed.

Lemma keys_of_values (h : list pyobj) (l : list (pyval * pyval)) :
  Forall (fun kv => reference_key h (snd kv) = Some (fst kv)) l ->
  omap (reference_key h) (map snd l) = map fst l.
Proof.
  induction 1 as [|[k e] l Hk _ IH]; [reflexivity|].
  simpl in Hk. rewrite fmap_cons. change (omap ?f (?x :: ?l)) with
    (match f x with Some y => y :: omap f l | None => omap f l end).
  simpl. rewrite Hk. f_equal. exact IH.
Qed.

(** C6. The loop over the reservations is given one entry per reference
    number: when the entries of the calendar's list have been filed, the
    reference numbers of the entries the loop goes through are those of
    the list, each once, however many entries of the list share one; and
    every entry the loop goes through is an entry of the list. *)
Theorem one_reservation_per_reference entries w m w' :
  collect_reservations entries ∅ w = (Ok m, w') ->
  omap (reference_key (heap w)) (values m)
    ≡ₚ remove_dups (omap (reference_key (heap w)) entries)
  /\ Forall (fun e => e ∈ entries) (values m)
  /\ List.length (values m)
     = List.length (remove_dups (omap (reference_key (heap w)) entries)).
Proof.
  intros Hrun.
  pose proof (wp_run _ _ _ _ _ (collect_reservations_spec entries ∅ w) Hrun)
    as (-> & H1 & H2 & _).
  assert (HL : Forall (fun kv => snd kv ∈ entries /\
                         reference_key (heap w) (snd kv) = Some (fst kv))
                 (map_to_list m)).
  { apply Forall_forall. intros [k e] Hin%elem_of_map_to_list. simpl.
    destruct (H1 _ _ Hin) as [H|H]; [|exact H]. rewrite lookup_empty in H. done. }
  assert (Hkeys : omap (reference_key (heap w)) (values m) = map fst (map_to_list m)).
  { apply keys_of_values. eapply Forall_impl; [exact HL|]. intros ? [_ ?]; done. }
  assert (Hperm : omap (reference_key (heap w)) (values m)
                    ≡ₚ remove_dups (omap (reference_key (heap w)) entries)).
  { rewrite Hkeys. apply NoDup_Permutation.
    - apply NoDup_fst_map_to_list.
    - apply NoDup_remove_dups.
    - intros key. rewrite elem_of_remove_dups. split.
      + intros [[k e] [-> Hin%elem_of_map_to_list]]%list_elem_of_fmap.
        destruct (proj1 (H2 k)) as [[? H]|H]; [eauto | | exact H].
        rewrite lookup_empty in H. done.
      + intros Hin. destruct (proj2 (H2 key)) as [e He]; [right; exact Hin|].
        apply list_elem_of_fmap. exists (key, e). split; [reflexivity|].
        apply elem_of_map_to_list. exact He. }
  split; [exact Hperm|]. split.
  - unfold values. apply Forall_fmap. eapply Forall_impl; [exact HL|].
    intros ? [? _]; done.
  - rewrite <- (Permutation_length Hperm), Hkeys.
    unfold values. rewrite !length_map. reflexivity.
Qed.

Lemma one_reservation_per_reference_witness :
  List.length (values listed_collected) = 2%nat.
Proof.
  exact (proj2 (proj2 (one_reservation_per_reference listed_entries listed_world
                         listed_collected listed_world
                         ltac:(vm_compute; reflexivity)))).
Defined.

(** ** The matcher *)

Section matcher.
Implicit Types (s : list ascii) (c x : caps) (k : cont).

Lemma star_loop_via m n : via m -> via (star_loop m n).
Proof.
  intros Hm. induction n as [|n IH]; intros s c k x H; simpl in H.
  - exists s, c. auto.
  - destruct (m s c _) as [y|] eqn:E.
    + injection H as ->. apply Hm in E as (s1 & c1 & Hs & Hc & E).
      destruct (Nat.ltb_spec (List.length s1) (List.length s)); [|discriminate].
      apply IH in E as (s' & c' & Hs' & Hc' & E).
      exists s', c'. split; [lia|]. split; [congruence|exact E].
    + exists s, c. auto.
Qed.

Lemma mt_via ml r : via (mt ml r).
Proof.
  induction r as [|p|r1 IH1 r2 IH2|r IH|r IH|r IH|i r IH|]; intros s c k x H; simpl in H.
  - exists s, c. auto.
  - destruct s as [|a s]; [discriminate|].
    destruct (cls_match p a); [|discriminate].
    exists s, c. simpl. auto.
  - apply IH1 in H as (s1 & c1 & Hs & Hc & H).
    apply IH2 in H as (s' & c' & Hs' & Hc' & H).
    exists s', c'. split; [lia|]. split; [congruence|exact H].
  - eapply star_loop_via; eauto.
  - apply IH in H as (s1 & c1 & Hs & Hc & H).
    apply (star_loop_via _ _ IH) in H as (s' & c' & Hs' & Hc' & H).
    exists s', c'. split; [lia|]. split; [congruence|exact H].
  - destruct (mt ml r s c k) as [y|] eqn:E.
    + injection H as ->. apply IH in E. exact E.
    + exists s, c. auto.
  - apply IH in H as (s' & c' & Hs & Hc & H).
    eexists s', _. split; [exact Hs|]. split; [|exact H].
    transitivity (List.length c'); [apply length_insert | exact Hc].
  - exists s, c. split; [lia|]. split; [reflexivity|].
    destruct s as [|a s]; [exact H|].
    destruct (_ && _); [exact H|discriminate].
Qed.

(** One character or more: the rest is shorter. *)
Lemma mt_plus_one ml p s c k x :
  mt ml (Plus (One p)) s c k = Some x ->
  exists s' c', (List.length s' < List.length s)%nat /\
                List.length c' = List.length c /\ k s' c' = Some x.
Proof.
  simpl. destruct s as [|a s]; [discriminate|].
  destruct (cls_match p a); [|discriminate]. intros H.
  apply (star_loop_via _ _ (mt_via ml (One p))) in H as (s' & c' & Hs & Hc & H).
  exists s', c'. simpl. split; [lia|]. auto.
Qed.

Lemma of_chars_take_filled (n : nat) s :
  (0 < n)%nat -> (0 < List.length s)%nat -> Str.of_chars (take n s) <> EmptyString.
Proof. destruct n, s; simpl; intros; try lia. discriminate. Qed.

Lemma filled_group_match ml r : ends_in_filled_group r = true ->
  forall s c x, List.length c = 1%nat ->
    mt ml r s c (fun _ c' => Some c') = Some x ->
    exists g, x = [Some g] /\ g <> EmptyString.
Proof.
  induction r as [|p|r1 _ r2 IH2|r _|r _|r _|i r _|]; try discriminate; simpl.
  - intros Hr s c x Hc H.
    apply mt_via in H as (s1 & c1 & _ & Hc1 & H).
    eapply IH2; [exact Hr| |exact H]. congruence.
  - destruct i; [|discriminate]. destruct r; try discriminate.
    destruct r; try discriminate. intros _ s c0 x Hc H.
    apply mt_plus_one in H as (s' & c' & Hs & Hc' & H).
    injection H as <-.
    destruct c' as [|y [|? ?]]; simpl in *; try lia.
    eexists. split; [reflexivity|].
    apply of_chars_take_filled; lia.
Qed.

Lemma filled_group_search ml r : ends_in_filled_group r = true -> ngroups r = 1%nat ->
  forall s x, search_go ml r s = Some x -> exists g, x = [Some g] /\ g <> EmptyString.
Proof.
  intros Hr Hn. induction s as [|a s IH]; intros x; simpl;
    (destruct (match_at ml r _) as [y|] eqn:E;
     [intros [= <-]; unfold match_at, no_caps in E; rewrite Hn in E;
      eapply filled_group_match; [exact Hr| |exact E]; reflexivity|]).
  - discriminate.
  - apply IH.
Qed.
End matcher.

(** With such a pattern getRegexFromFile finds a string that is not empty,
    or nothing. *)
Lemma regex_result_filled r text :
  ends_in_filled_group r = true -> ngroups r = 1%nat ->
  regex_result r text = RxEmptyList \/
  exists g, regex_result r text = RxStr g /\ g <> EmptyString.
Proof.
  intros Hr Hn. unfold regex_result, Re.search.
  destruct (search_go true r _) as [x|] eqn:E; [|left; reflexivity].
  apply (filled_group_search _ _ Hr Hn) in E as (g & -> & Hg).
  right. exists g. split; [reflexivity|exact Hg].
Qed.

(** ** Sanity checks: the scenarios of the readiness detector *)

(** Scenario B: the log has the address and two nodes and the ping
    succeeds: the detector returns the notice, which names two nodes, and
    caches the record. *)
Example scenario_B :
  let '(r, w) := isDagRunning (env_of 0 (Some log_complete) answer_ok) dag7 "7"
                   (world_of (dag7_files "1")) in
  r = Ok (DagStarted (EMAIL_STARTED "2016-03-01 12:00:00"
            (Str.nl +:+ Str.nl +:+ "Frontend: cluster1.example.org" +:+ Str.nl +:+
             "Number of compute nodes: 2") "cluster1.example.org"))
  /\ files w !! "/var/pcc/dag-7/vc1/cluster_info"
     = Some ("fqdn=cluster1.example.org" +:+ Str.nl +:+ "cnodes=node1 node2").
Proof. vm_compute. split; reflexivity. Qed.

(** The same with a ping that fails: None. *)
Example scenario_B_down :
  fst (isDagRunning (env_of 1 (Some log_complete) answer_ok) dag7 "7"
         (world_of (dag7_files "1"))) = Ok DagNone.
Proof. vm_compute. reflexivity. Qed.

(** A log without address: False. *)
Example scenario_no_address :
  fst (isDagRunning (env_of 0 (Some "booting") answer_ok) dag7 "7"
         (world_of (dag7_files "1"))) = Ok DagFalse.
Proof. vm_compute. reflexivity. Qed.

(** ** The readiness detector: what a log without node data does *)

(** Reading the number of CPUs leaves the world as it is. *)
Lemma wp_isDagRunning_numcpus logfile (Q : res Z -> World -> Prop) w :
  (forall r, Q r w) -> wp (isDagRunning_numcpus logfile) Q w.
Proof.
  intros H. unfold isDagRunning_numcpus.
  apply wp_try_except, wp_bind, wp_getRegexFromFile.
  - intros text _. apply wp_lift.
    destruct (Py.int _); [apply H|].
    apply wp_bind, wp_getRegexFromFile; intros; [apply wp_lift|]; apply H.
  - intros _. apply wp_bind, wp_getRegexFromFile; intros; [apply wp_lift|]; apply H.
Qed.

(** When neither pattern of the number of CPUs matches the log, the
    conversion of the empty list to a number raises TypeError in the
    handler, where nothing catches it. *)
Lemma numcpus_missing_raises logfile text w :
  files w !! logfile = Some text ->
  regex_result re_numcpus text = RxEmptyList ->
  regex_result re_requesting text = RxEmptyList ->
  isDagRunning_numcpus logfile w = (Raise TypeError, w).
Proof.
  intros Hf H1 H2.
  unfold isDagRunning_numcpus, try_except, getRegexFromFile, bind, read_file, ret, lift.
  rewrite Hf, H1. simpl. rewrite Hf, H2. reflexivity.
Qed.

(** Reading the compute nodes leaves the world as it is, and the string
    found is never empty: the test [if not cnodes] that follows in the
    script cannot succeed. *)
Lemma wp_isDagRunning_cnodes logfile (Q : res (string * list string) -> World -> Prop) w :
  (forall cnodes cnodes_array, cnodes <> EmptyString -> Q (Ok (cnodes, cnodes_array)) w) ->
  (forall e, Q (Raise e) w) ->
  wp (isDagRunning_cnodes logfile) Q w.
Proof.
  intros Hok Herr. unfold isDagRunning_cnodes.
  assert (Hh : wp (v <- getRegexFromFile logfile re_allocated_nodes ;;
                   cnodes <- lift (Py.as_str v) ;;
                   ret (cnodes, Str.split cnodes ", ")) Q w).
  { apply wp_bind, wp_getRegexFromFile; [intros text _|intros _; apply Herr].
    apply wp_bind, wp_lift.
    destruct (regex_result_filled re_allocated_nodes text eq_refl eq_refl)
      as [->|(g & -> & Hg)]; simpl; [apply Herr|].
    apply wp_ret, Hok, Hg. }
  apply wp_try_except, wp_bind, wp_getRegexFromFile; [intros text _|intros _; exact Hh].
  apply wp_bind, wp_lift.
  destruct (regex_result_filled re_cnodes text eq_refl eq_refl)
    as [->|(g & -> & Hg)]; simpl; [exact Hh|].
  apply wp_ret, Hok, Hg.
Qed.

(** When neither pattern of the compute nodes matches the log, the split
    of the empty list raises AttributeError in the handler, where nothing
    catches it. *)
Lemma cnodes_missing_raises logfile text w :
  files w !! logfile = Some text ->
  regex_result re_cnodes text = RxEmptyList ->
  regex_result re_allocated_nodes text = RxEmptyList ->
  isDagRunning_cnodes logfile w = (Raise AttributeError, w).
Proof.
  intros Hf H1 H2.
  unfold isDagRunning_cnodes, try_except, getRegexFromFile, bind, read_file, ret, lift.
  rewrite Hf, H1. simpl. rewrite Hf, H2. reflexivity.
Qed.

(** C10. There is a log with an address that neither pattern of the number
    of CPUs matches, on which the detector does not return: int of the
    empty list raises TypeError, in the handler of the first failure. *)
Theorem detector_raises_without_cpu_count :
  exists log : string,
    regex_result re_fqdn log = RxStr "cluster1.example.org"
    /\ regex_result re_numcpus log = RxEmptyList
    /\ regex_result re_requesting log = RxEmptyList
    /\ fst (isDagRunning (env_of 0 (Some log) answer_ok) dag7 "7"
              (world_of (dag7_files "1"))) = Raise TypeError.
Proof. exists log_no_cpus. vm_compute. repeat split. Qed.

(** C8, on the code: with the address and two CPUs in the log and no
    compute nodes, the detector does not return Pending: AttributeError
    leaves isDagRunning, and with it the run; cluster_info is not
    written. *)
Theorem detector_raises_without_nodes :
  regex_result re_fqdn log_no_nodes = RxStr "cluster1.example.org"
  /\ regex_result re_numcpus log_no_nodes = RxStr "2"
  /\ regex_result re_cnodes log_no_nodes = RxEmptyList
  /\ regex_result re_allocated_nodes log_no_nodes = RxEmptyList
  /\ fst (isDagRunning (env_of 0 (Some log_no_nodes) answer_ok) dag7 "7"
            (world_of (dag7_files "1"))) = Raise AttributeError
  /\ files (snd (isDagRunning (env_of 0 (Some log_no_nodes) answer_ok) dag7 "7"
                   (world_of (dag7_files "1"))))
       !! "/var/pcc/dag-7/vc1/cluster_info" = None.
Proof. vm_compute. repeat split. Qed.

(** ** Traces *)

Lemma extends_refl (P : event -> Prop) w : extends P w w.
Proof. exists []. rewrite app_nil_r. split; [reflexivity|constructor]. Qed.

Lemma extends_event (P : event -> Prop) w0 w e :
  P e -> extends P w0 w -> extends P w0 (add_event e w).
Proof.
  intros He (new & Hn & HP). exists (new ++ [e]). simpl. rewrite Hn, app_assoc.
  split; [reflexivity|]. apply Forall_app. split; [exact HP|]. repeat constructor. exact He.
Qed.

Lemma extends_files (P : event -> Prop) w0 w f :
  extends P w0 w -> extends P w0 (set_files f w).
Proof. exact id. Qed.

Lemma extends_heap (P : event -> Prop) w0 w f :
  extends P w0 w -> extends P w0 (set_heap f w).
Proof. exact id. Qed.

Lemma extends_weaken (P P' : event -> Prop) w0 w :
  (forall e, P e -> P' e) -> extends P w0 w -> extends P' w0 w.
Proof.
  intros H (new & Hn & HP). exists new. split; [exact Hn|].
  eapply Forall_impl; [exact HP|exact H].
Qed.

Lemma extends_trans (P : event -> Prop) w0 w1 w2 :
  extends P w0 w1 -> extends P w1 w2 -> extends P w0 w2.
Proof.
  intros (n1 & H1 & P1) (n2 & H2 & P2). exists (n1 ++ n2).
  rewrite H2, H1, app_assoc. split; [reflexivity|]. apply Forall_app. auto.
Qed.

Lemma extends_new_events (P : event -> Prop) w0 w :
  extends P w0 w -> Forall P (new_events w0 w).
Proof.
  intros (new & Hn & HP). unfold new_events. rewrite Hn, drop_app_length. exact HP.
Qed.

(** ** Steps of a proof about a program of the monad *)

Ltac wp_step :=
  lazymatch goal with
  | |- wp (bind _ _) _ _ => apply wp_bind
  | |- wp (ret _) _ _ => apply wp_ret
  | |- wp (raise _) _ _ => apply wp_raise
  | |- wp (lift _) _ _ => apply wp_lift
  | |- wp (log _ _) _ _ => apply wp_log
  | |- wp (emit _) _ _ => apply wp_emit
  | |- wp get_trace _ _ => apply wp_get_trace
  | |- wp (read_file _) _ _ => apply wp_read_file; [intros ? ?|intros ?]
  | |- wp (write_file _ _) _ _ => apply wp_write_file; intros ?
  | |- wp (writeStringToFile _ _) _ _ => apply wp_write_file; intros ?
  | |- wp (getRegexFromFile _ _) _ _ => apply wp_getRegexFromFile; [intros ? ?|intros ?]
  | |- wp (shell _ _ _ _ _) _ _ => apply wp_shell
  | |- wp (glob_sub _) _ _ => apply wp_glob_sub; intros ?
  | |- wp (try_except _ _) _ _ => apply wp_try_except
  | |- wp (subscript _ _) _ _ => apply wp_subscript
  | |- wp (iterate _) _ _ => apply wp_iterate
  | |- wp (has_key _ _) _ _ => apply wp_has_key
  | |- wp (runShellCommand _ _ _ _ _) _ _ => unfold runShellCommand
  | |- wp (if ?b then _ else _) _ _ => destruct b eqn:?
  | |- wp (match ?x with _ => _ end) _ _ => destruct x eqn:?
  | |- match ?r with Ok _ => _ | Raise _ => _ end => destruct r eqn:?
  end; cbv beta iota zeta.

Ltac wp_steps := repeat wp_step.

Ltac extends_solve :=
  repeat first
    [ assumption
    | apply extends_refl
    | apply extends_files
    | apply extends_heap
    | apply extends_event ].

(** ** One-group patterns *)

Lemma search_go_length ml r s x : search_go ml r s = Some x -> List.length x = ngroups r.
Proof.
  induction s as [|a s IH]; simpl;
    (destruct (match_at ml r _) as [y|] eqn:E;
     [intros [= <-]; apply mt_via in E as (? & c' & _ & Hc & [= <-]);
      rewrite Hc; apply length_replicate|]).
  - discriminate.
  - exact IH.
Qed.

(** What a one-group pattern finds is never a tuple, so that it can be
    formatted with [%s]. *)
Lemma fmt1_regex_result r text :
  ngroups r = 1%nat -> fmt1 (regex_result r text) = Ok (str (regex_result r text)).
Proof.
  intros Hn. unfold regex_result, Re.search.
  destruct (search_go true r _) as [x|] eqn:E; [|reflexivity].
  apply search_go_length in E. rewrite E, Hn. simpl.
  destruct (group x 0); reflexivity.
Qed.

(** ** The teardown executor *)

Lemma quiet_log lvl msg : quiet (EvLog lvl msg).
Proof. intros (? & ? & ? & _ & [H|H]); discriminate. Qed.

Lemma quiet_write p c : quiet (EvWrite p c).
Proof. intros (? & ? & ? & _ & [H|H]); discriminate. Qed.

Lemma quiet_shell at_ dir cmd rc : negb (rc =? 0) = false -> quiet (EvShell at_ dir cmd rc).
Proof.
  intros Hz (? & ? & rc' & Hrc & [H|H]); injection H as _ _ _ <-; apply Hrc;
    apply negb_false_iff, Z.eqb_eq in Hz; exact Hz.
Qed.

Ltac event_solve :=
  first [ exact I | apply quiet_log | apply quiet_write
        | (eapply quiet_shell; eassumption) ].

Ltac trace_solve :=
  repeat first
    [ assumption
    | apply extends_refl
    | apply extends_files
    | apply extends_heap
    | apply extends_event; [event_solve|]
    | (eapply extends_weaken; [|eassumption]; intros; exact I) ].

(** A file that was just written is there to be read. *)
Ltac just_written :=
  match goal with
  | H : files _ !! _ = None |- _ =>
      cbn [files add_event set_files set_heap] in H;
      rewrite lookup_insert_eq in H; discriminate H
  end.

Ltac fmt1_fails :=
  match goal with
  | H : fmt1 (regex_result _ _) = Raise _ |- _ =>
      rewrite fmt1_regex_result in H by reflexivity; discriminate H
  end.

(** An iteration of the teardown loop goes on to the next resource, or
    raises, only after sub-commands that exited with 0; it returns only
    False. *)
Lemma stopDagPB_resource_spec env dagDir ref line w0 w :
  extends quiet w0 w ->
  wp (stopDagPB_resource env dagDir ref line tt)
     (fun r w' => match r with
                  | Ok (Next _) => extends quiet w0 w'
                  | Ok (Return b) => b = false /\ extends (fun _ => True) w0 w'
                  | Raise _ => extends quiet w0 w'
                  end) w.
Proof.
  intros H0. unfold stopDagPB_resource.
  wp_steps.
  all: try just_written.
  all: try fmt1_fails.
  all: try (split; [reflexivity|]).
  all: solve [trace_solve].
Qed.

Lemma stopDagPB_spec env dagDir ref w :
  wp (stopDagPB env dagDir ref)
     (fun r w' => match r with
                  | Ok true => extends quiet w w'
                  | Ok false => extends (fun _ => True) w w'
                  | Raise _ => extends quiet w w'
                  end) w.
Proof.
  unfold stopDagPB. apply wp_bind, wp_read_file; [intros subf _|intros _; apply extends_refl].
  apply wp_bind.
  apply (wp_for_each (fun _ _ w1 => extends quiet w w1)).
  - apply extends_refl.
  - intros done line rest [] w1 _ H1.
    eapply wp_mono; [|apply stopDagPB_resource_spec; exact H1].
    intros [[[]|b]|e] w'; cbv beta iota; [auto| |auto].
    intros [-> H]. apply wp_ret. exact H.
  - intros [] w1 H1. apply wp_ret. exact H1.
Qed.

(** On the teardown executor alone: a shutdown or
    clean sub-command that exits with another status than 0 makes
    stopDagPB return False. *)
Lemma stopDagPB_failure env dagDir ref w r w' :
  stopDagPB env dagDir ref w = (r, w') ->
  Exists teardown_failure (new_events w w') ->
  r = Ok false.
Proof.
  intros Hrun Hex.
  pose proof (wp_run _ _ _ _ _ (stopDagPB_spec env dagDir ref w) Hrun) as H.
  destruct r as [[|]|e]; [|reflexivity|];
    apply extends_new_events in H; apply Exists_exists in Hex as (ev & Hin & Hev);
    rewrite Forall_forall in H; destruct (H ev Hin Hev).
Qed.

(** ** Paths *)

Lemma chars_app (s t : string) : Str.chars (s +:+ t) = Str.chars s ++ Str.chars t.
Proof. induction s as [|a s IH]; simpl; [reflexivity|]. f_equal. exact IH. Qed.

Lemma last_app_filled {A} (l1 l2 : list A) : l2 <> [] -> last (l1 ++ l2) = last l2.
Proof.
  intros H. induction l1 as [|a l1 IH]; [reflexivity|].
  simpl. rewrite <- IH. destruct (l1 ++ l2) eqn:E; [|reflexivity].
  apply app_eq_nil in E as [_ ->]. done.
Qed.

(** A path made by os.path.join ends as the name it was given. *)
Lemma join_last_char a b :
  Str.startswith b "/" = false -> b <> EmptyString ->
  Str.last_char (Path.join a b) = Str.last_char b.
Proof.
  intros Hs Hb. unfold Path.join. rewrite Hs.
  assert (Hc : Str.chars b <> []) by (destruct b; [done|discriminate]).
  unfold Str.last_char.
  destruct (_ || _); rewrite !chars_app; rewrite ?last_app_filled; auto.
Qed.

(** Two joined paths that end in different characters are different. *)
Ltac paths_differ :=
  let H := fresh in
  intros H; apply (f_equal Str.last_char) in H;
  rewrite !join_last_char in H by (reflexivity || discriminate);
  discriminate H.

(** ** Where the teardown executor reads the name of the cluster *)

(** Whatever lies in the directories of the resources, the name that
    stopDagPB gives to every shutdown and clean sub-command is the one found
    in pragma_boot.log at the top of the dag directory. *)
Lemma stopDagPB_cluster_name env dagDir ref w top :
  files w !! Path.join dagDir "pragma_boot.log" = Some top ->
  wp (stopDagPB env dagDir ref)
     (fun _ w' => extends (names_cluster (Py.str (regex_result re_allocated top))) w w') w.
Proof.
  intros Htop. unfold stopDagPB.
  apply wp_bind, wp_read_file; [intros subf _|intros _; apply extends_refl].
  apply wp_bind.
  set (P := names_cluster (Py.str (regex_result re_allocated top))).
  apply (wp_for_each (fun _ _ w1 =>
           files w1 !! Path.join dagDir "pragma_boot.log" = Some top /\ extends P w w1)).
  - split; [exact Htop|apply extends_refl].
  - intros done line rest [] w1 _ [Hf H1]. unfold stopDagPB_resource.
    wp_steps.
    all: try just_written.
    all: try (split; [cbn [files add_event set_files]; rewrite ?lookup_insert_ne by paths_differ;
                      exact Hf|]).
    all: try match goal with
         | Ht : files ?w !! ?p = Some ?t |- _ =>
             match type of Hf with
             | files w !! p = Some _ => assert (t = top) as -> by congruence
             end
         end.
    all: repeat first
           [ assumption
           | apply extends_files
           | apply extends_event;
               [first [exact I | eexists; reflexivity]|] ].
  - intros [] w1 [_ H1]. apply wp_ret. exact H1.
Qed.

(** C4, on the code: with the clusters alpha and beta in the logs of the
    two resources and omega in the log at the top of the dag directory,
    stopDagPB shuts down and cleans omega on both hosts; with no log at
    the top it raises IOError before any sub-command. *)
Theorem teardown_reads_top_level_log :
  commands (trace (snd (stopDagPB (env_of 0 None answer_ok) dag9 "9" (world_of dag9_files))))
  = [(Shutdown, "/var/pcc/dag-9/vc1",
      "ssh root@host1.example.org /opt/python/bin/python /opt/pragma_boot/bin/pragma shutdown omega");
     (Clean, "/var/pcc/dag-9/vc1",
      "ssh root@host1.example.org /opt/python/bin/python /opt/pragma_boot/bin/pragma clean omega");
     (Shutdown, "/var/pcc/dag-9/vc2",
      "ssh root@host2.example.org /opt/python/bin/python /opt/pragma_boot/bin/pragma shutdown omega");
     (Clean, "/var/pcc/dag-9/vc2",
      "ssh root@host2.example.org /opt/python/bin/python /opt/pragma_boot/bin/pragma clean omega")]
  /\ stopDagPB (env_of 0 None answer_ok) dag9 "9"
       (world_of (delete "/var/pcc/dag-9/pragma_boot.log" dag9_files))
     = (Raise (IOError "/var/pcc/dag-9/pragma_boot.log"),
        world_of (delete "/var/pcc/dag-9/pragma_boot.log" dag9_files)).
Proof. vm_compute. split; reflexivity. Qed.

(** ** Directories *)

Lemma startswith_longer p : Str.startswith p (p +:+ "/") = false.
Proof.
  unfold Str.startswith. rewrite chars_app.
  induction (Str.chars p) as [|a l IH]; simpl; [reflexivity|].
  rewrite Ascii.eqb_refl. exact IH.
Qed.

Lemma is_dir_true fs p :
  is_dir fs p = true <-> exists k c, fs !! k = Some c /\ Str.startswith k (p +:+ "/") = true.
Proof.
  unfold is_dir. rewrite existsb_exists. split.
  - intros [[k c] [Hin H]]. exists k, c. split; [|exact H].
    apply elem_of_map_to_list, list_elem_of_In. exact Hin.
  - intros (k & c & Hk & H). exists (k, c). split; [|exact H].
    apply list_elem_of_In, elem_of_map_to_list. exact Hk.
Qed.

Lemma is_dir_insert fs p c : is_dir (<[p := c]> fs) p = is_dir fs p.
Proof.
  apply eq_true_iff_eq. rewrite !is_dir_true. split.
  - intros (k & x & Hk & H). destruct (decide (p = k)) as [<-|Hne].
    + rewrite startswith_longer in H. discriminate.
    + rewrite lookup_insert_ne in Hk by exact Hne. eauto.
  - intros (k & x & Hk & H). destruct (decide (p = k)) as [<-|Hne].
    + rewrite startswith_longer in H. discriminate.
    + exists k, x. rewrite lookup_insert_ne by exact Hne. eauto.
Qed.

Lemma not_boot_log lvl msg : ~ is_boot (EvLog lvl msg).
Proof. intros (? & ? & ? & H); discriminate. Qed.
Lemma not_boot_write p c : ~ is_boot (EvWrite p c).
Proof. intros (? & ? & ? & H); discriminate. Qed.
Lemma not_boot_mkdir dir cmd rc : ~ is_boot (EvShell RemoteMkdir dir cmd rc).
Proof. intros (? & ? & ? & H); discriminate. Qed.
Lemma not_boot_copy dir cmd rc : ~ is_boot (EvShell CopyTree dir cmd rc).
Proof. intros (? & ? & ? & H); discriminate. Qed.

Ltac same_file Hf :=
  lazymatch type of Hf with
  | files ?w0 !! ?p = Some ?tx =>
      repeat match goal with
        | Hx : files w0 !! p = Some ?t |- _ =>
            lazymatch t with
            | tx => fail
            | _ => assert (t = tx) as -> by congruence
            end
        end
  end.

(** ** A resource that speaks an unknown version

    An iteration of the launcher on such a resource raises, and runs no
    boot command; when the file of the resource names the host and the
    remote directory and the hostname marker and the .vmconf file can be
    written and read, what it raises is SystemExit(1), right after the
    error was logged. *)
Lemma unknown_version_spec env dagDir ref line vcfile text w :
  sub_token line = Some vcfile ->
  files w !! vcfile = Some text ->
  Py.eq_str (regex_result (re_key_word "pragma_boot_version") text) "1" = false ->
  Py.eq_str (regex_result (re_key_word "pragma_boot_version") text) "2" = false ->
  wp (startDagPB_resource env dagDir ref line tt)
     (fun r w' =>
        (exists e, r = Raise e)
        /\ extends (fun e => ~ is_boot e) w w'
        /\ (forall host var_run,
              regex_result re_machine text = RxStr host ->
              regex_result (re_key_word "var_run") text = RxStr var_run ->
              is_dir (files w) (Path.join (Path.dirname vcfile) "hostname") = false ->
              is_Some (files w !! Str.replace vcfile ".sub" ".vmconf") ->
              r = Raise (SystemExit 1)
              /\ last (trace w') =
                 Some (EvLog ERROR ("Error, unknown pragma_boot version " +:+
                   Py.str (regex_result (re_key_word "pragma_boot_version") text))))) w.
Proof.
  intros Ht Hf H1 H2. unfold startDagPB_resource, sub_token in *.
  destruct (py_match re_sub_token line) as [matched|]; [|discriminate].
  cbv beta iota. rewrite Ht. 
  wp_steps.
  all: same_file Hf.
  all: try congruence.
  all: split; [eauto|split].
  all: try solve [repeat first
         [ apply extends_refl | apply extends_files
         | apply extends_event;
             [first [apply not_boot_log | apply not_boot_write
                    | apply not_boot_mkdir | apply not_boot_copy]|] ]].
  all: intros host var_run Hm Hv Hd Hs.
  all: rewrite ?Hm, ?Hv in *.
  all: repeat match goal with
         | H : is_dir _ _ = true |- _ =>
             cbn [files add_event set_files] in H; rewrite ?is_dir_insert in H; congruence
         | H : _ !! _ = None |- _ =>
             exfalso; cbn [files add_event set_files] in H;
             rewrite !lookup_insert in H; repeat case_decide; try discriminate H;
             rewrite H in Hs; destruct Hs; discriminate
         end.
  all: try discriminate.
  all: try fmt1_fails.
  all: match goal with
       | H : fmt1 _ = Ok _ |- _ =>
           rewrite fmt1_regex_result in H by reflexivity; injection H as <-
       end.
  all: split; [reflexivity|].
  all: cbn [trace add_event]; apply last_snoc.
Qed.



(** ** The cached record of a resource *)

Lemma kept_log vcdir lvl msg : kept vcdir (EvLog lvl msg).
Proof. split; intros H; [destruct H as (? & ? & H)|destruct H as (? & H)]; discriminate. Qed.

Lemma kept_write vcdir p c : p <> Path.join vcdir "cluster_info" -> kept vcdir (EvWrite p c).
Proof.
  intros Hp. split; intros H; [destruct H as (? & ? & H); discriminate|].
  destruct H as (? & [= -> _]). apply Hp. reflexivity.
Qed.

Lemma kept_shell vcdir at_ dir cmd rc :
  at_ <> FetchLog \/ dir <> vcdir -> kept vcdir (EvShell at_ dir cmd rc).
Proof.
  intros Hd. split; intros H; [|destruct H as (? & H); discriminate].
  destruct H as (? & ? & [= -> -> _ _]). destruct Hd as [Hd|Hd]; apply Hd; reflexivity.
Qed.

Ltac kept_solve Hne :=
  first [ apply kept_log
        | apply kept_write; first [paths_differ | exact Hne | congruence]
        | apply kept_shell; first [left; discriminate | right; congruence] ].

Ltac keep_files Hf Hne :=
  cbn [files add_event set_files];
  repeat match goal with
    | |- context [scp_log ?e ?t ?c] => destruct (scp_log e t c)
    end;
  rewrite ?lookup_insert_ne by first [paths_differ | exact Hne];
  exact Hf.

Ltac keep_trace Hne :=
  solve [repeat first [ assumption | apply extends_files
                      | apply extends_event; [kept_solve Hne|] ]].

Lemma wp_isDagRunning_probe_keeps env vcdir' u h v fq nodes st vcdir record w0 w :
  files w !! Path.join vcdir "cluster_info" = Some record ->
  extends (kept vcdir) w0 w ->
  wp (isDagRunning_probe env vcdir' u h v fq nodes st)
     (fun _ w' => files w' !! Path.join vcdir "cluster_info" = Some record
                  /\ extends (kept vcdir) w0 w') w.
Proof.
  intros Hf He. unfold isDagRunning_probe.
  wp_steps.
  all: split;
    [ cbn [files add_event set_files]; rewrite ?lookup_insert_ne by paths_differ; exact Hf
    | repeat first [ assumption | apply extends_files
                   | apply extends_event; [kept_solve I|] ] ].
Qed.

(** An iteration of the detector keeps what is cached. *)
Lemma isDagRunning_resource_keeps env ref line st vcdir record w0 w :
  files w !! Path.join vcdir "cluster_info" = Some record ->
  extends (kept vcdir) w0 w ->
  wp (isDagRunning_resource env ref line st)
     (fun _ w' => files w' !! Path.join vcdir "cluster_info" = Some record
                  /\ extends (kept vcdir) w0 w') w.
Proof.
  intros Hf He. unfold isDagRunning_resource.
  destruct (py_match re_sub_token line) as [matched|]; [|apply wp_ret; auto].
  wp_steps.
  all: try solve [auto].
  apply wp_path_exists. intros cached Hc. cbv beta iota zeta.
  destruct cached; cbn [negb].
  - (* the record is cached *)
    wp_steps.
    all: try solve [split; [exact Hf | repeat first [assumption | apply extends_event; [kept_solve I|]]]].
    all: try (apply wp_isDagRunning_probe_keeps; [exact Hf|]).
    all: try solve [repeat first [assumption | apply extends_event; [kept_solve I|]]].
  - (* it is not: this is another resource *)
    specialize (Hc eq_refl).
    assert (Hne : Path.join (Path.dirname a) "cluster_info" <> Path.join vcdir "cluster_info")
      by congruence.
    wp_steps.
    all: try (apply wp_isDagRunning_numcpus; intros [numcpus|e]; cbv beta iota zeta; wp_steps).
    all: try (apply wp_isDagRunning_cnodes;
              [intros cnodes cnodes_array Hfilled|intros e]; cbv beta iota zeta; wp_steps).
    all: try (apply wp_isDagRunning_probe_keeps).
    all: try keep_files Hf Hne.
    all: try keep_trace Hne.
    all: try solve [split; [keep_files Hf Hne|keep_trace Hne]].
Qed.

Lemma isDagRunning_keeps env dagDir ref vcdir record w0 w :
  files w !! Path.join vcdir "cluster_info" = Some record ->
  extends (kept vcdir) w0 w ->
  wp (isDagRunning env dagDir ref)
     (fun _ w' => files w' !! Path.join vcdir "cluster_info" = Some record
                  /\ extends (kept vcdir) w0 w') w.
Proof.
  intros Hf He. unfold isDagRunning.
  apply wp_bind, wp_read_file; [intros subf _|intros _; auto].
  apply wp_bind.
  apply (wp_for_each (fun _ _ w1 =>
           files w1 !! Path.join vcdir "cluster_info" = Some record
           /\ extends (kept vcdir) w0 w1)).
  - auto.
  - intros done line rest st w1 _ [Hf1 He1].
    eapply wp_mono; [|apply isDagRunning_resource_keeps; eassumption].
    intros [[st'|v]|e] w' H; cbv beta iota; [exact H| |exact H].
    apply wp_ret. exact H.
  - intros st w1 [Hf1 He1]. wp_steps.
    all: split; [exact Hf1|keep_trace I].
Qed.

(** C2. Once the cluster_info of a resource exists, any number of runs of
    the detector leaves it as it is: the file keeps its content, the
    script never writes it, and no remote log is fetched for the resource. *)
Theorem cached_record_is_final env dagDir ref vcdir record w :
  files w !! Path.join vcdir "cluster_info" = Some record ->
  forall n,
    files (polls env dagDir ref n w) !! Path.join vcdir "cluster_info" = Some record
    /\ Forall (kept vcdir) (new_events w (polls env dagDir ref n w)).
Proof.
  intros Hf n.
  assert (G : forall w1, files w1 !! Path.join vcdir "cluster_info" = Some record ->
                extends (kept vcdir) w w1 ->
                files (polls env dagDir ref n w1) !! Path.join vcdir "cluster_info"
                  = Some record
                /\ extends (kept vcdir) w (polls env dagDir ref n w1)).
  { induction n as [|n IH]; intros w1 Hf1 He1; [auto|].
    simpl. destruct (isDagRunning_keeps env dagDir ref vcdir record w w1 Hf1 He1) as [H1 H2].
    apply IH; assumption. }
  destruct (G w Hf (extends_refl _ _)) as [H1 H2].
  split; [exact H1|]. apply extends_new_events. exact H2.
Qed.

Lemma cached_record_is_final_witness :
  files (polls (env_of 0 (Some log_complete) answer_ok) dag7 "7" 2 (world_of dag7_cached))
    !! Path.join "/var/pcc/dag-7/vc1" "cluster_info"
  = Some ("fqdn=cluster1.example.org" +:+ Str.nl +:+ "cnodes=node1" +:+ Str.nl +:+ "node2").
Proof.
  exact (proj1 (cached_record_is_final (env_of 0 (Some log_complete) answer_ok) dag7 "7"
                  "/var/pcc/dag-7/vc1" _ (world_of dag7_cached)
                  ltac:(vm_compute; reflexivity) 2%nat)).
Defined.

(** ** Readiness is the conjunction over the resources *)

Lemma is_Some_insert (fs : gmap string string) k v p :
  is_Some (fs !! p) -> is_Some (<[k := v]> fs !! p).
Proof.
  intros H. destruct (decide (k = p)) as [->|Hne].
  - rewrite lookup_insert_eq. eauto.
  - rewrite lookup_insert_ne by exact Hne. exact H.
Qed.

Lemma not_failed_log lvl msg : ~ probe_failed (EvLog lvl msg).
Proof. intros (? & ? & ? & ? & _ & _ & H); discriminate. Qed.
Lemma not_failed_write p c : ~ probe_failed (EvWrite p c).
Proof. intros (? & ? & ? & ? & _ & _ & H); discriminate. Qed.
Lemma not_failed_fetch dir cmd rc : ~ probe_failed (EvShell FetchLog dir cmd rc).
Proof. intros (? & ? & ? & ? & [->| ->] & _ & H); discriminate. Qed.
Lemma not_failed_zero at_ dir cmd rc : (rc =? 0) = true -> ~ probe_failed (EvShell at_ dir cmd rc).
Proof.
  intros Hz%Z.eqb_eq (? & ? & ? & ? & _ & Hrc & [= _ _ _ <-]). apply Hrc. exact Hz.
Qed.


Ltac grows_solve :=
  let p := fresh "p" in let Hp := fresh "Hp" in
  intros p Hp; cbn [files add_event set_files];
  repeat match goal with
    | |- context [scp_log ?e ?t ?c] => destruct (scp_log e t c)
    end;
  repeat apply is_Some_insert; exact Hp.

Lemma since_refl w : trace w = trace w ++ [].
Proof. symmetry. apply app_nil_r. Qed.

Lemma since_event w1 w' new e :
  trace w' = trace w1 ++ new -> trace (add_event e w') = trace w1 ++ (new ++ [e]).
Proof. intros H. simpl. rewrite H, app_assoc. reflexivity. Qed.

Lemma since_files w1 w' new f :
  trace w' = trace w1 ++ new -> trace (set_files f w') = trace w1 ++ new.
Proof. exact id. Qed.

Ltac news_solve :=
  eexists; split;
  [ repeat first [apply since_refl | apply since_files | apply since_event] | ].

Lemma probe_ok_zero at_ dir cmd rc :
  (rc =? 0) = true -> at_ = Ping \/ at_ = ListCluster ->
  probe_ok dir (EvShell at_ dir cmd rc).
Proof.
  intros ->%Z.eqb_eq [-> | ->]; exists cmd; [left|right]; reflexivity.
Qed.

Ltac not_failed_solve Erc :=
  first [ apply not_failed_log | apply not_failed_write | apply not_failed_fetch
        | apply not_failed_zero; exact Erc ].

Ltac all_not_failed Erc :=
  repeat first
    [ apply Forall_nil
    | apply Forall_singleton; not_failed_solve Erc
    | apply Forall_cons; split; [not_failed_solve Erc|]
    | apply Forall_app_2 ].

Ltac find_elem :=
  first [ apply list_elem_of_singleton; reflexivity
        | apply list_elem_of_here
        | (apply elem_of_app; left; find_elem)
        | (apply elem_of_app; right; find_elem)
        | (apply list_elem_of_further; find_elem) ].

Ltac probe_found at_ Erc :=
  apply Exists_exists; eexists (EvShell at_ _ _ _); split;
  [ find_elem | apply probe_ok_zero; [exact Erc | auto] ].

Ltac record_there Hrec :=
  cbn [files add_event set_files];
  repeat first
    [ (rewrite lookup_insert_eq; eexists; reflexivity)
    | apply is_Some_insert ];
  try (cbn [files add_event set_files] in Hrec; rewrite Hrec; eexists; reflexivity).

(** A leaf of the iteration that goes on to the next line. *)
Ltac next_solve Em Hrec :=
  split; [grows_solve|]; news_solve; cbn [inactive];
  let Hin := fresh "Hin" in let Erc := fresh "Erc" in
  intros Hin;
  match type of Hin with
  | (if ?b then _ else _) = [] =>
      destruct b eqn:Erc; [|destruct (inactive _); discriminate Hin]
  end;
  split; [exact Hin|]; split; [all_not_failed Erc|];
  let token := fresh "token" in let Htok := fresh "Htok" in
  intros token Htok; unfold sub_token in Htok; rewrite Em in Htok;
  match goal with
  | Hg : match group _ 0 with Some _ => _ | None => _ end = Ok ?a |- _ =>
      rewrite Htok in Hg; injection Hg as <-
  end;
  split;
  [ record_there Hrec
  | first [ probe_found Ping Erc | probe_found ListCluster Erc ] ].

(** An iteration of the detector: it goes on only after it has the record
    of the resource and has probed it; when the probe failed the resource
    is put on the list of the inactive ones; it returns only False. *)
Lemma isDagRunning_resource_step env ref line st w1 :
  wp (isDagRunning_resource env ref line st) (step_post line st w1) w1.
Proof.
  unfold isDagRunning_resource.
  destruct (py_match re_sub_token line) as [matched|] eqn:Em.
  2:{ apply wp_ret. split; [grows_solve|]. exists []. split; [symmetry; apply app_nil_r|].
      intros Hin. split; [exact Hin|]. split; [constructor|].
      unfold sub_token. rewrite Em. intros ? ?; discriminate. }
  wp_steps.
  all: try solve [split; [grows_solve|]; news_solve; exact I].
  apply wp_path_exists. intros cached Hc. cbv beta iota zeta.
  destruct cached; cbn [negb]; unfold isDagRunning_probe.
  - wp_steps.
    all: try solve [split; [grows_solve|]; news_solve; exact I].
    1:{ split; [grows_solve|]; news_solve; cbn [inactive].
        intros Hin.
  match type of Hin with
  | (if ?b then _ else _) = [] =>
      destruct b eqn:Erc; [|destruct (inactive _); discriminate Hin]
  end.
  split; [exact Hin|]; split; [all_not_failed Erc|].
  intros token Htok; unfold sub_token in Htok; rewrite Em in Htok.
  match goal with
  | Hg : match group _ 0 with Some _ => _ | None => _ end = Ok ?a |- _ =>
      rewrite Htok in Hg; injection Hg as <-
  end.
  split.
  record_there H3.
  first [ probe_found Ping Erc | probe_found ListCluster Erc ]. }
    all: match goal with
         | Hrec : files _ !! Path.join (Path.dirname _) "cluster_info" = Some _ |- _ =>
             next_solve Em Hrec
         end.
  - wp_steps.
    all: try (apply wp_isDagRunning_numcpus; intros [numcpus|e]; cbv beta iota zeta; wp_steps).
    all: try (apply wp_isDagRunning_cnodes;
              [intros cnodes cnodes_array Hfilled|intros e]; cbv beta iota zeta; wp_steps).
    all: try solve [split; [grows_solve|]; news_solve; first [exact I | reflexivity]].
    all: try (exfalso; apply Hfilled; destruct cnodes; [reflexivity|discriminate]).
    all: next_solve Em Em.
Qed.



Lemma loop_inv_step w done line st w1 r w' :
  loop_inv w done st w1 -> step_post line st w1 r w' ->
  match r with
  | Ok (Next st') => loop_inv w (done ++ [line]) st' w'
  | Ok (Return v) => v = DagFalse /\ exists new, trace w' = trace w ++ new
  | Raise _ => exists new, trace w' = trace w ++ new
  end.
Proof.
  intros (Hg & new & Hn & Hinv) (Hg1 & new1 & Hn1 & Hstep).
  assert (Ht : trace w' = trace w ++ (new ++ new1)).
  { rewrite Hn1, Hn, app_assoc. reflexivity. }
  destruct r as [[st'|v]|e]; [|eauto|eauto].
  split; [intros p Hp; apply Hg1, Hg, Hp|].
  exists (new ++ new1). split; [exact Ht|].
  intros Hin. destruct (Hstep Hin) as (Hin0 & Hnf & Htok).
  destruct (Hinv Hin0) as (Hnf0 & Hres).
  split; [apply Forall_app_2; assumption|].
  unfold resources. rewrite omap_app. apply Forall_app_2.
  - eapply Forall_impl; [exact Hres|]. intros vcdir [Hrec Hex].
    split; [apply Hg1, Hrec|]. apply Exists_app. left. exact Hex.
  - simpl. destruct (sub_token line) as [token|] eqn:Et; simpl; [|constructor].
    destruct (Htok token eq_refl) as [Hrec Hex].
    repeat constructor; [exact Hrec|]. apply Exists_app. right. exact Hex.
Qed.

Lemma isDagRunning_ready env dagDir ref subf w :
  files w !! Path.join dagDir "dag.sub" = Some subf ->
  wp (isDagRunning env dagDir ref)
     (fun r w' =>
        exists new, trace w' = trace w ++ new /\
          forall info, r = Ok (DagStarted info) ->
            Forall (fun e => ~ probe_failed e) new /\
            Forall (fun vcdir => is_Some (files w' !! Path.join vcdir "cluster_info")
                                 /\ Exists (probe_ok vcdir) new)
              (resources (Str.lines subf))) w.
Proof.
  intros Hsub. unfold isDagRunning.
  apply wp_bind, wp_read_file; [intros c Hc|congruence].
  assert (c = subf) as -> by congruence.
  apply wp_bind.
  apply (wp_for_each (loop_inv w)).
  - split; [intros p Hp; exact Hp|]. exists []. split; [symmetry; apply app_nil_r|].
    intros _. split; constructor.
  - intros done line rest st w1 _ Hinv.
    eapply wp_mono; [|apply isDagRunning_resource_step].
    intros r w' Hstep. pose proof (loop_inv_step _ _ _ _ _ _ _ Hinv Hstep) as H.
    destruct r as [[st'|v]|e]; [exact H| |].
    + destruct H as [-> [new Hn]]. apply wp_ret. exists new. split; [exact Hn|].
      intros info [=].
    + destruct H as [new Hn]. exists new. split; [exact Hn|]. intros info [=].
  - intros st w1 (Hg & new & Hn & Hinv).
    wp_steps.
    + eexists. split; [do 2 apply since_event; exact Hn|].
      intros info _. apply Nat.eqb_eq, length_zero_iff_nil in Heqb.
      destruct (Hinv Heqb) as [Hnf Hres]. split.
      * repeat apply Forall_app_2; [exact Hnf| |];
          apply Forall_singleton, not_failed_log.
      * eapply Forall_impl; [exact Hres|]. intros vcdir [Hrec Hex].
        split; [exact Hrec|]. do 2 (apply Exists_app; left). exact Hex.
    + eexists. split; [do 2 apply since_event; exact Hn|]. intros info [=].
Qed.

(** X20. The detector returns the notice (Ready) only when every resource
    that dag.sub lists has its cluster_info file after the run, cached
    before or written in this run, and has answered the liveness probe in
    this run, and no probe has failed; so that a probe that fails, or a
    resource without the file, keeps the result from being the notice. *)
Theorem ready_only_when_all_resources_up env dagDir ref subf w r w' :
  files w !! Path.join dagDir "dag.sub" = Some subf ->
  isDagRunning env dagDir ref w = (r, w') ->
  (forall info, r = Ok (DagStarted info) ->
     Forall (fun vcdir => is_Some (files w' !! Path.join vcdir "cluster_info")
                          /\ Exists (probe_ok vcdir) (new_events w w'))
       (resources (Str.lines subf))
     /\ Forall (fun e => ~ probe_failed e) (new_events w w'))
  /\ (Exists probe_failed (new_events w w') ->
      forall info, r <> Ok (DagStarted info))
  /\ (Exists (fun vcdir => files w' !! Path.join vcdir "cluster_info" = None)
        (resources (Str.lines subf)) ->
      forall info, r <> Ok (DagStarted info)).
Proof.
  intros Hsub Hrun.
  pose proof (wp_run _ _ _ _ _ (isDagRunning_ready env dagDir ref subf w Hsub) Hrun)
    as (new & Hn & H).
  assert (Hnew : new_events w w' = new).
  { unfold new_events. rewrite Hn, drop_app_length. reflexivity. }
  rewrite Hnew. split; [|split].
  - intros info Hr. destruct (H info Hr) as [H1 H2]. split; assumption.
  - intros Hex info Hr. destruct (H info Hr) as [H1 _].
    apply Exists_exists in Hex as (e & Hin & He).
    rewrite Forall_forall in H1. exact (H1 e Hin He).
  - intros Hex info Hr. destruct (H info Hr) as [_ H2].
    apply Exists_exists in Hex as (vcdir & Hin & Hnone).
    rewrite Forall_forall in H2. destruct (H2 vcdir Hin) as [[x Hx] _]. congruence.
Qed.

Lemma ready_only_when_all_resources_up_witness :
  Forall (fun vcdir =>
            is_Some (files (snd (isDagRunning (env_of 0 (Some log_complete) answer_ok)
                                   dag7 "7" (world_of (dag7_files "1"))))
                       !! Path.join vcdir "cluster_info")
            /\ Exists (probe_ok vcdir)
                 (new_events (world_of (dag7_files "1"))
                    (snd (isDagRunning (env_of 0 (Some log_complete) answer_ok)
                            dag7 "7" (world_of (dag7_files "1"))))))
    ["/var/pcc/dag-7/vc1"].
Proof.
  refine (proj1 (proj1 (ready_only_when_all_resources_up
                   (env_of 0 (Some log_complete) answer_ok) dag7 "7"
                   (" JOB VC1  /var/pcc/dag-7/vc1/vc1.sub" +:+ Str.nl)
                   (world_of (dag7_files "1")) _ _ _ _) _ _)).
  - vm_compute. reflexivity.
  - apply surjective_pairing.
  - vm_compute. reflexivity.
Defined.

(** C1, on the code: of the two resources of a reservation the first is
    up, its record cached, and answers the ping; the log of the second
    has the address and the number of CPUs and no compute nodes yet.  The
    detector does not return Pending: AttributeError leaves isDagRunning,
    and with it the run, after the first resource was probed; no record
    is written for the second.  With the complete log for the second
    resource the same reservation is Ready. *)
Theorem detector_raises_on_unfinished_resource :
  fst (isDagRunning (env_of 0 (Some log_no_nodes) answer_ok) dag8 "8"
         (world_of dag8_files)) = Raise AttributeError
  /\ Exists (probe_ok "/var/pcc/dag-8/vc1")
       (trace (snd (isDagRunning (env_of 0 (Some log_no_nodes) answer_ok) dag8 "8"
                      (world_of dag8_files))))
  /\ files (snd (isDagRunning (env_of 0 (Some log_no_nodes) answer_ok) dag8 "8"
                   (world_of dag8_files)))
       !! "/var/pcc/dag-8/vc2/cluster_info" = None
  /\ exists info,
       fst (isDagRunning (env_of 0 (Some log_complete) answer_ok) dag8 "8"
              (world_of dag8_files)) = Ok (DagStarted info).
Proof.
  split; [vm_compute; reflexivity|].
  split; [vm_compute; right; left; eexists; left; reflexivity|].
  split; [vm_compute; reflexivity|].
  eexists. vm_compute. reflexivity.
Qed.

(** ** Objects and documents *)

(** Induction on documents. *)
Lemma json_ind' (P : json -> Prop) :
  P JNull -> (forall b, P (JBool b)) -> (forall z, P (JNum z)) -> (forall s, P (JStr s)) ->
  (forall items, Forall P items -> P (JArr items)) ->
  (forall members, Forall (fun kv => P (snd kv)) members -> P (JObj members)) ->
  forall j, P j.
Proof.
  intros Hn Hb Hz Hs Ha Ho.
  fix IH 1. intros [|b|z|s|items|members].
  - exact Hn.
  - apply Hb.
  - apply Hz.
  - apply Hs.
  - apply Ha. induction items as [|i items IHl]; constructor; [apply IH|exact IHl].
  - apply Ho. induction members as [|[k i] members IHl]; constructor; [apply IH|exact IHl].
Qed.


Lemma extended_refl h : extended h h.
Proof. exists []. symmetry. apply app_nil_r. Qed.

Lemma extended_trans h1 h2 h3 : extended h1 h2 -> extended h2 h3 -> extended h1 h3.
Proof. intros [e1 ->] [e2 ->]. exists (e1 ++ e2). symmetry. apply app_assoc. Qed.

Lemma extended_snoc h o : extended h (h ++ [o]).
Proof. eexists. reflexivity. Qed.

Lemma extended_length h h' : extended h h' -> (List.length h <= List.length h')%nat.
Proof. intros [e ->]. rewrite length_app. lia. Qed.

Lemma extended_lookup h h' l o : extended h h' -> h !! l = Some o -> h' !! l = Some o.
Proof. intros [e ->] H. apply lookup_app_l_Some. exact H. Qed.

Lemma load_items_extended items :
  Forall (fun i => forall h, extended h (snd (load i h))) items ->
  forall acc, extended (snd acc) (snd (fold_left (load_item load) items acc)).
Proof.
  induction 1 as [|i items Hi _ IH]; intros acc; simpl; [apply extended_refl|].
  eapply extended_trans; [|apply IH].
  unfold load_item. specialize (Hi (snd acc)). destruct (load i (snd acc)). exact Hi.
Qed.

Lemma load_members_extended members :
  Forall (fun kv : string * json => forall h, extended h (snd (load (snd kv) h))) members ->
  forall acc, extended (snd acc) (snd (fold_left (load_member load) members acc)).
Proof.
  induction 1 as [|i items Hi _ IH]; intros acc; simpl; [apply extended_refl|].
  eapply extended_trans; [|apply IH].
  unfold load_member. specialize (Hi (snd acc)). destruct (load (snd i) (snd acc)). exact Hi.
Qed.

(** json.loads only adds objects. *)
Lemma load_extended j : forall h, extended h (snd (load j h)).
Proof.
  induction j as [| | | |items IH|members IH] using json_ind'; intros h;
    try apply extended_refl; simpl.
  - pose proof (load_items_extended items IH ([], h)) as H.
    destruct (fold_left _ items _) as [xs h1]. simpl in *.
    eapply extended_trans; [exact H|apply extended_snoc].
  - pose proof (load_members_extended members IH (∅, h)) as H.
    destruct (fold_left _ members _) as [xs h1]. simpl in *.
    eapply extended_trans; [exact H|apply extended_snoc].
Qed.

(** The object that json.loads returns is a new one. *)
Lemma load_new j h l h' : load j h = (VRef l, h') -> (List.length h <= l)%nat.
Proof.
  destruct j as [| | | |items|members]; simpl; try discriminate.
  - pose proof (load_items_extended items
                  (proj2 (Forall_forall _ _) (fun i _ => load_extended i)) ([], h)) as H.
    destruct (fold_left _ items _) as [xs h1]. intros [= <- _].
    apply extended_length in H. exact H.
  - pose proof (load_members_extended members
                  (proj2 (Forall_forall _ _) (fun i _ => load_extended (snd i))) (∅, h)) as H.
    destruct (fold_left _ members _) as [xs h1]. intros [= <- _].
    apply extended_length in H. exact H.
Qed.

Section wp_heap.
Implicit Types (w : World).

Lemma wp_alloc o (Q : res pyval -> World -> Prop) w :
Q (Ok (VRef (List.length (heap w)))) (set_heap (fun h => h ++ [o]) w) ->
wp (alloc o) Q w.
Proof. exact id. Qed.

Lemma wp_assign v k x (Q : res unit -> World -> Prop) w :
(forall l d, v = VRef l -> heap w !! l = Some (ODict d) ->
   Q (Ok tt) (set_heap (fun h => <[l := ODict (<[k := x]> d)]> h) w)) ->
Q (Raise TypeError) w ->
wp (assign v k x) Q w.
Proof.
intros H1 H2. unfold wp, assign. destruct v as [| | | |l]; try exact H2.
destruct (heap w !! l) as [[d|xs]|] eqn:E; try exact H2.
apply (H1 l d); [reflexivity|exact E].
Qed.

Lemma wp_dumps v (Q : res json -> World -> Prop) w :
(forall j, dumps_fuel (S (List.length (heap w))) (heap w) v = Some j -> Q (Ok j) w) ->
Q (Raise ValueError) w ->
wp (dumps v) Q w.
Proof.
intros H1 H2. unfold wp, dumps.
destruct (dumps_fuel _ _ _) as [j|]; simpl; auto.
Qed.

Lemma wp_loads j (Q : res pyval -> World -> Prop) w :
(forall v h', load j (heap w) = (v, h') -> Q (Ok v) (set_heap (fun _ => h') w)) ->
wp (loads j) Q w.
Proof.
intros H. unfold wp, loads. destruct (load j (heap w)) as [v h'] eqn:E.
apply H. reflexivity.
Qed.
End wp_heap.


Lemma framed_refl w : framed w w.
Proof. split; [reflexivity|apply firstn_all]. Qed.

Lemma framed_event w0 w e : framed w0 w -> framed w0 (add_event e w).
Proof. exact id. Qed.

Lemma framed_length w0 w : framed w0 w -> (List.length (heap w0) <= List.length (heap w))%nat.
Proof.
  intros [_ H]. apply (f_equal List.length) in H. rewrite length_take in H. lia.
Qed.

Lemma framed_extended w0 w h' :
  framed w0 w -> extended (heap w) h' -> framed w0 (set_heap (fun _ => h') w).
Proof.
  intros Hf [ext ->]. split; [exact (proj1 Hf)|]. simpl.
  rewrite take_app_le by (apply framed_length; exact Hf). exact (proj2 Hf).
Qed.

Lemma framed_alloc w0 w o : framed w0 w -> framed w0 (set_heap (fun h => h ++ [o]) w).
Proof. intros Hf. apply (framed_extended w0 w (heap w ++ [o]) Hf). apply extended_snoc. Qed.

Lemma framed_update w0 w l o :
  framed w0 w -> (List.length (heap w0) <= l)%nat ->
  framed w0 (set_heap (fun h => <[l := o]> h) w).
Proof.
  intros [Hf Hh] Hl. split; [exact Hf|]. simpl. rewrite take_insert_ge by exact Hl. exact Hh.
Qed.

Ltac heap_step :=
  lazymatch goal with
  | |- wp (alloc _) _ _ => apply wp_alloc
  | |- wp (assign _ _ _) _ _ => apply wp_assign; [intros ? ? ? ?|]
  | |- wp (dumps _) _ _ => apply wp_dumps; [intros ? ?|]
  | |- wp (loads _) _ _ => apply wp_loads; intros ? ? ?
  | |- wp (config_get _ _ _) _ _ => unfold config_get
  | |- _ => wp_step
  end; cbv beta iota zeta.

Ltac heap_steps := repeat heap_step.

(** The object that is assigned to is the copy, which is new. *)
Ltac new_object :=
  simplify_eq;
  match goal with
  | H0 : load _ (heap ?w) = (VRef ?l, _), Hf : framed ?w0 ?w
    |- (List.length (heap ?w0) <= ?l)%nat =>
      let H1 := fresh in let H2 := fresh in
      pose proof (load_new _ _ _ _ H0) as H1;
      pose proof (framed_length _ _ Hf) as H2; lia
  end.

Ltac framed_solve :=
  repeat first
    [ assumption
    | apply framed_event
    | apply framed_alloc
    | (apply framed_update; [|solve [new_object]])
    | (eapply framed_extended;
       [|match goal with
         | H : load ?j ?h = (_, _) |- _ =>
             let E := fresh in
             pose proof (load_extended j h) as E; rewrite H in E; exact E
         end]) ].

(** A call of a function that is known to keep the frame. *)
Ltac call_framed lem w0 :=
  (eapply wp_mono; [|apply lem with (w0 := w0); framed_solve]);
  cbv beta; intros [?|?] ? ?; heap_steps; try solve [framed_solve].

Lemma reformat_attributes_framed attrs : forall acc w0 w,
  framed w0 w -> wp (reformat_attributes attrs acc) (fun _ w' => framed w0 w') w.
Proof.
  induction attrs as [|attr attrs IH]; intros acc w0 w Hf; simpl.
  - apply wp_ret. exact Hf.
  - heap_steps; try apply IH; framed_solve.
Qed.

Lemma reformat_resources_framed resources : forall acc w0 w,
  framed w0 w -> wp (reformat_resources resources acc) (fun _ w' => framed w0 w') w.
Proof.
  induction resources as [|r resources IH]; intros acc w0 w Hf; simpl.
  - apply wp_ret. exact Hf.
  - heap_steps; try apply IH; framed_solve.
Qed.

Lemma query_framed env path method params headers w0 w :
  framed w0 w -> wp (query env path method params headers) (fun _ w' => framed w0 w') w.
Proof. intros Hf. unfold query. heap_steps; framed_solve. Qed.

Lemma queryBooked_framed env config function method params headers w0 w :
  framed w0 w ->
  wp (queryBooked env config function method params headers) (fun _ w' => framed w0 w') w.
Proof.
  intros Hf. unfold queryBooked. heap_steps.
  all: try solve [framed_solve].
  - call_framed query_framed w0.
  - call_framed query_framed w0. call_framed query_framed w0.
Qed.

(** updateStatus works on a copy: it leaves the files and every object
    that was there before the call as they were. *)
Lemma updateStatus_framed env config bR data status headers w0 w :
  framed w0 w ->
  wp (updateStatus env config bR data status headers) (fun _ w' => framed w0 w') w.
Proof.
  intros Hf. unfold updateStatus. heap_steps.
  all: try solve [framed_solve].
  call_framed reformat_attributes_framed w0.
  call_framed reformat_resources_framed w0.
  call_framed queryBooked_framed w0.
Qed.

(** The document of a value does not depend on the fuel, once there is
    enough of it, nor on the objects that are added to the heap. *)
Lemma mapM_ext_Some {A B} (f g : A -> option B) l r :
  Forall (fun x => forall y, f x = Some y -> g x = Some y) l ->
  mapM f l = Some r -> mapM g l = Some r.
Proof.
  intros HF. revert r. induction HF as [|x l Hx _ IH]; intros r; [exact id|].
  simpl. destruct (f x) as [y|] eqn:E; [|discriminate]. simpl.
  destruct (mapM f l) as [ys|]; [|discriminate]. simpl.
  intros [= <-]. rewrite (Hx y eq_refl). simpl. rewrite (IH ys eq_refl). reflexivity.
Qed.

Lemma dumps_fuel_stable n : forall h v j,
  dumps_fuel n h v = Some j ->
  forall n' h', (n <= n')%nat -> extended h h' -> dumps_fuel n' h' v = Some j.
Proof.
  induction n as [|n IH]; intros h v j H n' h' Hn Hext.
  - destruct v; simpl in *; try discriminate; destruct n'; exact H.
  - destruct n' as [|n']; [lia|].
    destruct v as [| | | |l]; simpl in *; try exact H.
    destruct (h !! l) as [[d|xs]|] eqn:E; [| |discriminate];
      rewrite (extended_lookup _ _ _ _ Hext E).
    + destruct (mapM _ (map_to_list d)) as [ms|] eqn:Em; [|discriminate].
      erewrite mapM_ext_Some; [exact H| |exact Em].
      apply Forall_forall. intros [k x] _ y. simpl.
      destruct (dumps_fuel n h x) as [jx|] eqn:Ex; [|discriminate].
      rewrite (IH _ _ _ Ex n' h'); [exact id|lia|exact Hext].
    + destruct (mapM _ xs) as [js|] eqn:Em; [|discriminate].
      erewrite mapM_ext_Some; [exact H| |exact Em].
      apply Forall_forall. intros x _ y Ex.
      apply (IH _ _ _ Ex n' h'); [lia|exact Hext].
Qed.


(** C9. updateStatus does not change the reservation it is given: after
    the call, whatever it returned or raised, the files are the same, every
    object that was in the heap before the call is as it was, and the
    document of [data], with its customAttributes, its resources and its
    description, is the one it was before: the payload is built on a copy,
    made of new objects, and only the copy is assigned to. *)
Theorem updateStatus_leaves_data env config bR data status headers w :
  files (snd (updateStatus env config bR data status headers w)) = files w
  /\ take (List.length (heap w))
       (heap (snd (updateStatus env config bR data status headers w))) = heap w
  /\ forall doc,
       fst (dumps data w) = Ok doc ->
       fst (dumps data (snd (updateStatus env config bR data status headers w))) = Ok doc.
Proof.
  pose proof (updateStatus_framed env config bR data status headers w w (framed_refl w))
    as [Hf Hh].
  unfold wp in Hf, Hh. split; [exact Hf|]. split; [exact Hh|].
  intros doc. unfold dumps.
  destruct (dumps_fuel _ (heap w) data) as [j|] eqn:E; [|discriminate].
  intros [= <-].
  erewrite dumps_fuel_stable; [reflexivity|exact E| |].
  - apply le_n_S. rewrite <- Hh at 1. rewrite length_take. lia.
  - exists (drop (List.length (heap w))
              (heap (snd (updateStatus env config bR data status headers w)))).
    rewrite <- Hh at 1. symmetry. apply take_drop.
Qed.

Lemma updateStatus_leaves_data_witness :
  fst (dumps demo_reservation
         (snd (updateStatus (env_of 0 None answer_ok) demo_config demo_reservation
                 demo_reservation "stopping" (Some demo_headers) (demo_world ∅))))
  = Ok demo_document.
Proof.
  apply (proj2 (proj2 (updateStatus_leaves_data (env_of 0 None answer_ok) demo_config
                         demo_reservation demo_reservation "stopping"
                         (Some demo_headers) (demo_world ∅)))).
  vm_compute. reflexivity.
Defined.

(** ** The request of updateStatus *)

Lemma key_of_dict {A} (d : gmap string A) k :
  k ∈ map fst (map_to_list d) <-> is_Some (d !! k).
Proof.
  change (map fst (map_to_list d)) with (fst <$> map_to_list d).
  rewrite list_elem_of_fmap. split.
  - intros [[k' x] [-> H%elem_of_map_to_list]]. eauto.
  - intros [x H]. exists (k, x). split; [reflexivity|]. apply elem_of_map_to_list. exact H.
Qed.

(** The order of the keys of a dictionary depends on the keys only. *)
Lemma key_order {A B} (d1 : gmap string A) (d2 : gmap string B) :
  (forall k, is_Some (d1 !! k) <-> is_Some (d2 !! k)) ->
  map fst (map_to_list d1) = map fst (map_to_list d2).
Proof.
  intros Hdom.
  rewrite <- (fst_map_zip d1 d2) at 1 by (intros k; apply Hdom).
  rewrite <- (snd_map_zip d1 d2) at 2 by (intros k; apply Hdom).
  rewrite !map_to_list_fmap.
  change (map ?f ?l) with (f <$> l).
  rewrite <- !list_fmap_compose. apply list_fmap_ext. intros ? [k [a b]] _. reflexivity.
Qed.

Lemma denotes_mono h P v j :
  denotes h P v j ->
  forall h' (P' : nat -> Prop),
    (forall l o, P l -> h !! l = Some o -> P' l /\ h' !! l = Some o) ->
    denotes h' P' v j.
Proof.
  revert v. induction j as [| | | |items IH|members IH] using json_ind';
    intros v Hd h' P' Hp;
    inversion Hd as [| | | |l xs items' HP Hl HF|l d members' HP Hl HF];
    subst; try constructor.
  - destruct (Hp _ _ HP Hl) as [Hl' Hh]. econstructor; [exact Hl'|exact Hh|].
    clear Hl Hh Hd. revert xs HF.
    induction IH as [|i items Hi _ IHl]; intros xs HF; inversion HF; subst; constructor.
    + apply Hi; assumption.
    + apply IHl. assumption.
  - destruct (Hp _ _ HP Hl) as [Hl' Hh]. econstructor; [exact Hl'|exact Hh|].
    clear Hl Hh Hd. revert HF. generalize (map_to_list d).
    induction IH as [|i items Hi _ IHl]; intros xs HF; inversion HF as [|? ? ? ? Hx HF']; subst;
      constructor.
    + destruct Hx as [Hk Hv]. split; [exact Hk|]. apply Hi; assumption.
    + apply IHl. assumption.
Qed.

(** json.dumps writes the document that the value denotes. *)
Lemma denotes_det h P v j :
  denotes h P v j -> forall n j', dumps_fuel n h v = Some j' -> j' = j.
Proof.
  revert v. induction j as [| | | |items IH|members IH] using json_ind';
    intros v Hd n j' Hj;
    inversion Hd as [| | | |l xs items' HP Hl HF|l d members' HP Hl HF]; subst;
    try (destruct n; simpl in Hj; congruence).
  - destruct n as [|n]; [discriminate|]. simpl in Hj. rewrite Hl in Hj.
    destruct (mapM _ xs) as [js|] eqn:Em; [|discriminate]. injection Hj as <-.
    f_equal. apply mapM_Some in Em. clear Hl Hd.
    revert xs js HF Em.
    induction IH as [|i items Hi _ IHl]; intros xs js HF Em;
      inversion HF; subst; inversion Em; subst; [reflexivity|].
    f_equal; [eapply Hi; eassumption|eapply IHl; eassumption].
  - destruct n as [|n]; [discriminate|]. simpl in Hj. rewrite Hl in Hj.
    destruct (mapM _ (map_to_list d)) as [js|] eqn:Em; [|discriminate]. injection Hj as <-.
    f_equal. apply mapM_Some in Em. clear Hl Hd.
    revert js HF Em. generalize (map_to_list d).
    induction IH as [|[k i] items Hi _ IHl]; intros xs js HF Em;
      inversion HF as [|x ? ? ? Hx HF']; subst;
      inversion Em as [|? jy ? ? Hy Em']; subst; [reflexivity|].
    f_equal; [|eapply IHl; eassumption].
    destruct Hx as [Hk Hv]. simpl in *.
    destruct (dumps_fuel n h (snd x)) as [jx|] eqn:Ex; [|discriminate].
    simpl in Hy. injection Hy as <-. rewrite Hk. f_equal. eapply Hi; eassumption.
Qed.

Lemma dumps_canonical n : forall h v j, dumps_fuel n h v = Some j -> canonical j.
Proof.
  induction n as [|n IH]; intros h v j H.
  - destruct v; simpl in H; try discriminate; injection H as <-; constructor.
  - destruct v as [| | | |l]; simpl in H; try (injection H as <-; constructor).
    destruct (h !! l) as [[d|xs]|]; [| |discriminate].
    + destruct (mapM _ (map_to_list d)) as [ms|] eqn:Em; [|discriminate].
      injection H as <-. apply mapM_Some in Em.
      apply (can_obj ms d).
      * induction Em as [|[k x] m l1 l2 Hx _ IHl]; [reflexivity|].
        simpl in *. destruct (dumps_fuel n h x); [|discriminate].
        injection Hx as <-. simpl. f_equal. exact IHl.
      * induction Em as [|[k x] m l1 l2 Hx _ IHl]; constructor; [|exact IHl].
        simpl in Hx. destruct (dumps_fuel n h x) as [jx|] eqn:Ex; [|discriminate].
        injection Hx as <-. simpl. eapply IH. exact Ex.
    + destruct (mapM _ xs) as [js|] eqn:Em; [|discriminate].
      injection H as <-. apply mapM_Some in Em. constructor.
      induction Em as [|x jx l1 l2 Hx _ IHl]; constructor; [|exact IHl].
      eapply IH. exact Hx.
Qed.

Lemma denotes_extended h h' a b a' b' v j :
  denotes h (between a b) v j -> extended h h' -> (a' <= a)%nat -> (b <= b')%nat ->
  denotes h' (between a' b') v j.
Proof.
  intros Hd Hext Ha Hb. eapply denotes_mono; [exact Hd|].
  intros l o [H1 H2] Hl. split; [split; lia|].
  eapply extended_lookup; eassumption.
Qed.

Lemma load_items_denotes items :
  Forall loads_well items ->
  forall acc js0 n0,
    (n0 <= List.length (snd acc))%nat ->
    Forall2 (denotes (snd acc) (between n0 (List.length (snd acc)))) (fst acc) js0 ->
    Forall2 (denotes (snd (fold_left (load_item load) items acc))
               (between n0 (List.length (snd (fold_left (load_item load) items acc)))))
      (fst (fold_left (load_item load) items acc)) (js0 ++ items).
Proof.
  induction 1 as [|i items Hi _ IH]; intros [xs h] js0 n0 Hn H0; simpl in *.
  - rewrite app_nil_r. exact H0.
  - pose proof (load_extended i h) as Hext.
    destruct (load i h) as [x h1] eqn:E. simpl in Hext.
    pose proof (extended_length _ _ Hext) as Hlen.
    assert (Hs : load_item load (xs, h) i = (xs ++ [x], h1))
      by (unfold load_item; simpl; rewrite E; reflexivity).
    rewrite Hs.
    replace (js0 ++ i :: items) with ((js0 ++ [i]) ++ items)
      by (rewrite <- app_assoc; reflexivity).
    apply IH; simpl; [lia|].
    apply Forall2_app.
    + eapply Forall2_impl; [exact H0|]. intros v j Hd.
      eapply denotes_extended; [exact Hd|exact Hext|lia|lia].
    + repeat constructor. eapply denotes_extended; [apply (Hi _ _ _ E)|apply extended_refl|lia|lia].
Qed.

Lemma load_members_denotes members :
  Forall (fun mem => loads_well (snd mem)) members ->
  forall acc mems0 n0,
    (n0 <= List.length (snd acc))%nat ->
    NoDup (map fst mems0 ++ map fst members) ->
    (forall k, is_Some (fst acc !! k) <-> k ∈ map fst mems0) ->
    Forall (fun mem => exists x, fst acc !! fst mem = Some x /\
              denotes (snd acc) (between n0 (List.length (snd acc))) x (snd mem)) mems0 ->
    let r := fold_left (load_member load) members acc in
    extended (snd acc) (snd r) /\
    (forall k, is_Some (fst r !! k) <-> k ∈ map fst (mems0 ++ members)) /\
    Forall (fun mem => exists x, fst r !! fst mem = Some x /\
              denotes (snd r) (between n0 (List.length (snd r))) x (snd mem))
      (mems0 ++ members).
Proof.
  induction 1 as [|[k i] members Hi _ IH]; intros [d h] mems0 n0 Hn Hnd Hdom H0; simpl in *.
  - rewrite app_nil_r. split; [apply extended_refl|]. split; assumption.
  - pose proof (load_extended i h) as Hext.
    destruct (load i h) as [x h1] eqn:E. simpl in Hext.
    pose proof (extended_length _ _ Hext) as Hlen.
    assert (Hs : load_member load (d, h) (k, i) = (<[k := x]> d, h1))
      by (unfold load_member; simpl; rewrite E; reflexivity).
    rewrite Hs.
    replace (mems0 ++ (k, i) :: members) with ((mems0 ++ [(k, i)]) ++ members)
      by (rewrite <- app_assoc; reflexivity).
    assert (Hk : k ∉ map fst mems0).
    { apply NoDup_app in Hnd as (_ & Hd & _). intros Hin. apply (Hd _ Hin). left. }
    edestruct (IH (<[k := x]> d, h1) (mems0 ++ [(k, i)]) n0) as (H1 & H2 & H3); simpl.
    + lia.
    + rewrite map_app. simpl. rewrite <- app_assoc. exact Hnd.
    + intros k'. rewrite map_app, elem_of_app. simpl. rewrite list_elem_of_singleton.
      rewrite lookup_insert_is_Some. rewrite Hdom.
      destruct (decide (k = k')) as [->|Hne]; [tauto|].
      split; [intros [?|[_ ?]]|intros [?|?]]; auto; congruence.
    + apply Forall_app. split.
      * eapply Forall_impl; [exact H0|]. intros [k' i'] (x' & Hx & Hd). simpl in *.
        exists x'. split.
        -- rewrite lookup_insert_ne; [exact Hx|]. intros ->. apply Hk.
           apply (proj1 (Hdom k')). eauto.
        -- eapply denotes_extended; [exact Hd|exact Hext|lia|lia].
      * repeat constructor. exists x. simpl. split; [apply lookup_insert_eq|].
        eapply denotes_extended; [apply (Hi _ _ _ E)|apply extended_refl|lia|lia].
    + split; [eapply extended_trans; eassumption|]. split; assumption.
Qed.

Lemma members_in_order {A} (D : A -> json -> Prop) (d : gmap string A) members :
  map fst (map_to_list d) = map fst members ->
  Forall (fun mem => exists x, d !! fst mem = Some x /\ D x (snd mem)) members ->
  Forall2 (fun kv mem => fst kv = fst mem /\ D (snd kv) (snd mem)) (map_to_list d) members.
Proof.
  intros Hk HF.
  assert (Hin : forall kv, kv ∈ map_to_list d -> d !! fst kv = Some (snd kv)).
  { intros [k x] H. apply elem_of_map_to_list. exact H. }
  revert Hk Hin. generalize (map_to_list d). intros L.
  revert L. induction HF as [|mem members (x & Hx & Hd) _ IH]; intros [|kv L] Hk Hin;
    try discriminate; constructor.
  - injection Hk as Hk1 Hk2. split; [exact Hk1|].
    assert (snd kv = x) as ->; [|exact Hd].
    specialize (Hin kv (list_elem_of_here _ _)). rewrite Hk1 in Hin. congruence.
  - apply IH; [injection Hk as _ Hk2; exact Hk2|].
    intros kv' H. apply Hin. right. exact H.
Qed.

(** The object that json.loads makes of a canonical object. *)
Lemma load_object members (d0 : gmap string pyval) h v h' :
  map fst members = map fst (map_to_list d0) ->
  Forall (fun mem => loads_well (snd mem)) members ->
  load (JObj members) h = (v, h') ->
  exists l d,
    v = VRef l /\ h' !! l = Some (ODict d) /\ (List.length h <= l)%nat /\
    List.length h' = S l /\
    Forall2 (fun kv mem => fst kv = fst mem /\
               denotes h' (between (List.length h) l) (snd kv) (snd mem))
      (map_to_list d) members.
Proof.
  intros Hcan Hwell. simpl.
  edestruct (load_members_denotes members Hwell (∅, h) [] (List.length h))
    as (H1 & H2 & H3); simpl.
  - lia.
  - rewrite Hcan. apply NoDup_fst_map_to_list.
  - intros k. rewrite lookup_empty. split; [intros [? ?]; discriminate|intros H; inversion H].
  - constructor.
  - destruct (fold_left _ members _) as [d h1]. simpl in *. intros [= <- <-].
    exists (List.length h1), d. split; [reflexivity|].
    split; [apply list_lookup_middle; reflexivity|].
    split; [apply extended_length; exact H1|].
    split; [rewrite length_app; simpl; lia|].
    apply members_in_order.
    + rewrite Hcan. apply key_order. intros k. rewrite H2, Hcan.
      apply key_of_dict.
    + eapply Forall_impl; [exact H3|]. intros mem (x & Hx & Hd). exists x.
      split; [exact Hx|]. eapply denotes_extended; [exact Hd|apply extended_snoc|lia|lia].
Qed.

Lemma canonical_loads_well j : canonical j -> loads_well j.
Proof.
  induction j as [| | | |items IH|members IH] using json_ind'; intros Hc h v h' Hl;
    try (simpl in Hl; injection Hl as <- <-; constructor).
  - inversion Hc as [| | | |? Hitems|]; subst.
    assert (Hwell : Forall loads_well items).
    { clear Hl Hc. induction IH as [|i items Hi _ IHl]; [constructor|].
      inversion Hitems; subst. constructor; auto. }
    pose proof (load_items_denotes items Hwell ([], h) [] (List.length h)) as H.
    pose proof (load_items_extended items
                  (proj2 (Forall_forall _ _) (fun i _ => load_extended i)) ([], h)) as Hext.
    simpl in *. destruct (fold_left _ items _) as [xs h1]. simpl in *.
    injection Hl as <- <-.
    pose proof (extended_length _ _ Hext) as Hlen.
    econstructor.
    + split; [exact Hlen|]. rewrite length_app. simpl. lia.
    + apply list_lookup_middle. reflexivity.
    + eapply Forall2_impl; [apply H; [lia|constructor]|]. intros x j Hd.
      eapply denotes_extended; [exact Hd|apply extended_snoc|lia|].
      rewrite length_app. simpl. lia.
  - inversion Hc as [| | | | |? d0 Hkeys Hmem]; subst.
    assert (Hwell : Forall (fun mem => loads_well (snd mem)) members).
    { clear Hl Hc Hkeys. induction IH as [|i items Hi _ IHl]; [constructor|].
      inversion Hmem; subst. constructor; auto. }
    destruct (load_object members d0 h v h' Hkeys Hwell Hl)
      as (l & d & -> & Hd & Hlen & Hlen' & HF).
    econstructor; [split; lia|exact Hd|].
    eapply Forall2_impl; [exact HF|]. intros kv mem [Hk Hv]. split; [exact Hk|].
    eapply denotes_extended; [exact Hv|apply extended_refl|lia|lia].
Qed.

(** *** Members *)

Lemma member_snoc k members k' j :
  member k (JObj (members ++ [(k', j)])) =
  if bool_decide (k' = k) then Some j else member k (JObj members).
Proof. unfold member. rewrite rev_app_distr. simpl. destruct (bool_decide _); reflexivity. Qed.

Lemma member_in k members j :
  member k (JObj members) = Some j -> (k, j) ∈ members.
Proof.
  induction members as [|[k' j'] members IH] using rev_ind; [discriminate|].
  rewrite member_snoc. case_bool_decide as Hk.
  - intros [= <-]. subst. apply elem_of_app. right. left.
  - intros H. apply elem_of_app. left. apply IH, H.
Qed.

Lemma member_absent k members :
  k ∉ map fst members -> member k (JObj members) = None.
Proof.
  induction members as [|[k' j'] members IH] using rev_ind; [reflexivity|].
  rewrite member_snoc, map_app, elem_of_app. simpl. rewrite list_elem_of_singleton.
  intros H. case_bool_decide as Hk; [subst; tauto|]. apply IH. tauto.
Qed.

Lemma member_unique k j members :
  NoDup (map fst members) -> (k, j) ∈ members -> member k (JObj members) = Some j.
Proof.
  induction members as [|[k' j'] members IH] using rev_ind; [intros _ H; inversion H|].
  rewrite member_snoc, map_app. simpl. intros Hnd Hin.
  apply NoDup_app in Hnd as (Hnd & Hdis & _).
  apply elem_of_app in Hin as [Hin|Hin].
  - case_bool_decide as Hk; [|apply IH; assumption].
    subst. exfalso. apply (Hdis k); [|left].
    change k with (fst (k, j)). apply list_elem_of_fmap_2. exact Hin.
  - apply list_elem_of_singleton in Hin. injection Hin as <- <-.
    rewrite bool_decide_eq_true_2; reflexivity.
Qed.

(** The members of the document of a dictionary, by name. *)
Lemma members_by_name {A} (R : A -> json -> Prop) (d : gmap string A) members k :
  Forall2 (fun kv mem => fst kv = fst mem /\ R (snd kv) (snd mem)) (map_to_list d) members ->
  match d !! k with
  | Some x => exists j, member k (JObj members) = Some j /\ R x j
  | None => member k (JObj members) = None
  end.
Proof.
  intros HF.
  assert (Hkeys : map fst (map_to_list d) = map fst members).
  { clear k. induction HF as [|? ? ? ? [Hk _] _ IH]; [reflexivity|]. simpl. congruence. }
  destruct (d !! k) as [x|] eqn:E.
  - apply elem_of_map_to_list, list_elem_of_lookup in E as [i Hi].
    destruct (Forall2_lookup_l _ _ _ _ _ HF Hi) as ([k' j] & Hj & Hk & Hr). simpl in *.
    subst k'. exists j. split; [|exact Hr].
    apply member_unique.
    + rewrite <- Hkeys. apply NoDup_fst_map_to_list.
    + apply list_elem_of_lookup. eauto.
  - apply member_absent. rewrite <- Hkeys, key_of_dict, E. intros [? ?]; discriminate.
Qed.

(** The members that json.dumps writes for a dictionary, by name. *)
Lemma dumped_member n h (d : gmap string pyval) members k :
  mapM (fun kv => pair (fst kv) <$> dumps_fuel n h (snd kv)) (map_to_list d) = Some members ->
  match d !! k with
  | Some x => exists j, member k (JObj members) = Some j /\ dumps_fuel n h x = Some j
  | None => member k (JObj members) = None
  end.
Proof.
  intros Hm. apply mapM_Some in Hm.
  apply (members_by_name (fun x j => dumps_fuel n h x = Some j)).
  eapply Forall2_impl; [exact Hm|]. intros [k' x] mem H. simpl in *.
  destruct (dumps_fuel n h x); [|discriminate]. injection H as <-. auto.
Qed.

(** What json.loads makes of a string member, and of a string member
    only, is that string. *)
Lemma load_members_str members : forall acc k s,
  (fst (fold_left (load_member load) members acc) !! k = Some (VStr s)) ->
  member k (JObj members) = Some (JStr s)
  \/ (member k (JObj members) = None /\ fst acc !! k = Some (VStr s)).
Proof.
  induction members as [|[k' j'] members IH] using rev_ind; intros acc k s.
  - intros H. right. auto.
  - rewrite fold_left_app, member_snoc. simpl fold_left.
    unfold load_member at 1. simpl.
    destruct (load j' _) as [x h1] eqn:E. simpl.
    case_bool_decide as Hk.
    + subst k'. rewrite lookup_insert_eq. intros [= ->]. left. f_equal.
      destruct j'; simpl in E; try congruence;
        destruct (fold_left _ _ _); discriminate.
    + rewrite lookup_insert_ne by exact Hk. apply IH.
Qed.

Lemma loaded_string_member ans h v h' h'' k s :
  load ans h = (v, h') -> extended h' h'' ->
  getitem h'' v k = Ok (VStr s) -> member k ans = Some (JStr s).
Proof.
  intros Hl Hext Hg. unfold getitem in Hg.
  destruct v as [| | | |l]; try discriminate.
  destruct ans as [| | | |items|members]; simpl in Hl; try discriminate.
  - destruct (fold_left _ items _) as [xs h1]. injection Hl as <- <-.
    rewrite (extended_lookup _ _ _ _ Hext (list_lookup_middle _ _ _ _ eq_refl)) in Hg.
    discriminate.
  - destruct (fold_left _ members _) as [d h1] eqn:Ef. injection Hl as <- <-.
    rewrite (extended_lookup _ _ _ _ Hext (list_lookup_middle _ _ _ _ eq_refl)) in Hg.
    destruct (d !! k) as [x|] eqn:Ed; [|discriminate]. injection Hg as ->.
    destruct (load_members_str members (∅, h) k s) as [H|[_ H]].
    + rewrite Ef. exact Ed.
    + exact H.
    + simpl in H. rewrite lookup_empty in H. discriminate.
Qed.

(** *** The payload of updateStatus *)

Lemma stable_refl l0 h : stable l0 h h.
Proof. intros l o _ H. exact H. Qed.

Lemma stable_snoc l0 h h' o : stable l0 h h' -> stable l0 h (h' ++ [o]).
Proof. intros H l x Hl Hx. apply lookup_app_l_Some, H; assumption. Qed.

Lemma stable_update l0 h h' o : stable l0 h h' -> stable l0 h (<[l0 := o]> h').
Proof. intros H l x Hl Hx. rewrite list_lookup_insert_ne by congruence. apply H; assumption. Qed.

Lemma stable_extended l0 h h' h'' : extended h' h'' -> stable l0 h h' -> stable l0 h h''.
Proof. intros He H l x Hl Hx. eapply extended_lookup; [exact He|]. apply H; assumption. Qed.

Lemma denotes_stable l0 h h' a v j :
  denotes h (between a l0) v j -> stable l0 h h' -> denotes h' (fun _ => True) v j.
Proof.
  intros Hd Hs. eapply denotes_mono; [exact Hd|].
  intros l o [_ Hl] Ho. split; [exact I|]. apply Hs; [lia|exact Ho].
Qed.

(** A dictionary of an attribute's id and value, as it is written. *)
Lemma flat_fields (id value : pyval) :
  map_to_list (<["attributeId" := id]> (<["attributeValue" := value]> (∅ : gmap string pyval)))
  = [("attributeId", id); ("attributeValue", value)].
Proof. reflexivity. Qed.

Lemma flat_cell_stable h h' l0 a x fj :
  flat_cell h l0 a x fj -> stable l0 h h' ->
  (forall l o, between a l0 l -> h !! l = Some o -> h' !! l = Some o) ->
  flat_cell h' l0 a x fj.
Proof.
  intros (lf & id & value & idj & valuej & -> & Hlf & Hc & Hi & Hv & ->) Hs Hb.
  exists lf, id, value, idj, valuej. repeat split; auto.
  - eapply denotes_mono; [exact Hi|]. intros l o Hl Ho. split; [exact Hl|]. eapply Hb; eauto.
  - eapply denotes_mono; [exact Hv|]. intros l o Hl Ho. split; [exact Hl|]. eapply Hb; eauto.
Qed.

Lemma flat_cell_denotes h l0 a x fj :
  flat_cell h l0 a x fj -> denotes h (fun _ => True) x fj.
Proof.
  intros (lf & id & value & idj & valuej & -> & Hlf & Hc & Hi & Hv & ->).
  econstructor; [exact I|exact Hc|]. rewrite flat_fields.
  repeat constructor; simpl; (eapply denotes_mono; [eassumption|]); intros l o _ Ho; auto.
Qed.

Lemma plain_log lvl msg : plain (EvLog lvl msg).
Proof.
  split.
  - intros (dir & cmd & rc & _ & [H|H]); discriminate.
  - intros sid (m & p & b & hs & st & H & _). discriminate.
Qed.

Lemma plain_print msg x : plain (EvPrint msg x).
Proof.
  split.
  - intros (dir & cmd & rc & _ & [H|H]); discriminate.
  - intros sid (m & p & b & hs & st & H & _). discriminate.
Qed.

Lemma plain_stderr msg : plain (EvStderr msg).
Proof.
  split.
  - intros (dir & cmd & rc & _ & [H|H]); discriminate.
  - intros sid (m & p & b & hs & st & H & _). discriminate.
Qed.

Lemma plain_http method path body hs st :
  member "statusId" body = None -> plain (EvHttp method path body hs st).
Proof.
  intros Hm. split.
  - intros (dir & cmd & rc & _ & [H|H]); discriminate.
  - intros sid (m & p & b & hs' & st' & [= <- <- <- <- <-] & H). congruence.
Qed.

(** One request: the body is the document of [params]. *)
Lemma query_spec env path method params headers w :
  wp (query env path method params headers)
     (fun r w' =>
        (exists e, r = Raise e /\ w' = w) \/
        exists body errs,
          dumps_fuel (S (List.length (heap w))) (heap w) params = Some body /\
          trace w' = trace w ++
            EvHttp method path body headers
              (status (http env (trace w) method path body headers)) :: errs /\
          Forall plain errs /\ files w' = files w /\
          match r with
          | Ok v =>
              errs = [] /\
              status (http env (trace w) method path body headers) = 200 /\
              exists answer,
                body_json (http env (trace w) method path body headers) = Some answer /\
                load answer (heap w) = (v, heap w')
          | Raise _ => heap w' = heap w
          end) w.
Proof.
  unfold query. heap_steps.
  all: try (left; eexists; split; reflexivity).
  all: right; eexists; eexists; (split; [eassumption|]); simpl;
    rewrite <- ?app_assoc; simpl.
  - split; [reflexivity|]. split; [repeat constructor; apply plain_stderr|]. auto.
  - split; [reflexivity|]. split; [constructor|]. split; [reflexivity|].
    split; [reflexivity|]. split.
    + apply negb_false_iff, Z.eqb_eq in Heqb. exact Heqb.
    + eexists. split; [eassumption|]. assumption.
  - split; [reflexivity|]. split; [constructor|]. auto.
Qed.

Lemma extended_load j h v h' : load j h = (v, h') -> extended h h'.
Proof. intros H. pose proof (load_extended j h) as E. rewrite H in E. exact E. Qed.

(** The request of queryBooked itself, after what came before it. *)
Lemma queryBooked_request env config function method params hs baseUrl pre w w1 :
  config_lookup config "Server" "baseUrl" = Some baseUrl ->
  trace w1 = trace w ++ pre -> Forall plain pre ->
  extended (heap w) (heap w1) -> files w1 = files w ->
  wp (query env (baseUrl +:+ function) method params hs)
     (fun r w' =>
        match r with
        | Ok b => booked env config function method params w (Ok (hs, b)) w'
        | Raise e => booked env config function method params w (Raise e) w'
        end) w1.
Proof.
  intros Hc Ht Hp He Hf. eapply wp_mono; [|apply query_spec].
  intros r w' [(e & -> & ->)|(body & errs & Hb & Ht' & Hp' & Hf' & Hr)].
  - exists pre. repeat split; auto. left. split; [eexists; reflexivity|exact Ht].
  - assert (He' : extended (heap w) (heap w')).
    { destruct r as [v|e].
      - destruct Hr as (_ & _ & answer & _ & Hl).
        eapply extended_trans; [exact He|]. eapply extended_load; exact Hl.
      - rewrite Hr. exact He. }
    assert (Hq : requested env method (baseUrl +:+ function) params w pre (heap w1)
                   match r with Ok b => Ok (hs, b) | Raise e => Raise e end w').
    { exists body, hs, (status (http env (trace w1) method (baseUrl +:+ function) body hs)), errs.
      split; [exact Hb|]. split; [rewrite Ht', Ht, <- app_assoc; reflexivity|].
      split; [exact Hp'|]. destruct r as [v|e]; [|exact I].
      destruct Hr as (-> & Hs & answer & Ha & Hl). rewrite <- Ht.
      split; [reflexivity|]. split; [exact Hs|]. split; [reflexivity|].
      exists answer. split; assumption. }
    destruct r as [v|e]; exists pre; (split; [exact Hp|]); (split; [exact He'|]);
      (split; [congruence|]); right; exists baseUrl, (heap w1); auto.
Qed.

Lemma credentials_fields (username password : pyval) :
  map_to_list (<["username" := username]> (<["password" := password]> (∅ : gmap string pyval)))
  = [("username", username); ("password", password)].
Proof. reflexivity. Qed.

(** The document of the credentials has no status in it. *)
Lemma credentials_body n h username password body :
  dumps_fuel (S n)
    (h ++ [ODict (<["username" := VStr username]> (<["password" := VStr password]> ∅))])
    (VRef (List.length h)) = Some body ->
  member "statusId" body = None.
Proof.
  cbn [dumps_fuel]. rewrite list_lookup_middle by reflexivity.
  rewrite credentials_fields.
  destruct n; intros [= <-]; reflexivity.
Qed.

Lemma queryBooked_spec env config function method params headers w :
  wp (queryBooked env config function method params headers)
     (booked env config function method params w) w.
Proof.
  unfold queryBooked. heap_steps.
  all: try (exists []; split; [constructor|]; split; [apply extended_refl|];
            split; [reflexivity|]; left; split; [eexists; reflexivity|];
            simpl; rewrite app_nil_r; reflexivity).
  - eapply wp_mono; [|eapply queryBooked_request with (w := w) (pre := [])].
    + intros [b|e] w' H; [apply wp_ret|]; exact H.
    + unfold config_lookup. rewrite Heqo. exact Heqo2.
    + symmetry. apply app_nil_r.
    + constructor.
    + apply extended_refl.
    + reflexivity.
  - eapply wp_mono; [|apply query_spec].
    intros r w' [(e & -> & ->)|(body & errs & Hb & Ht' & Hp' & Hf' & Hr)].
    { exists []. split; [constructor|]. split; [apply extended_snoc|].
      split; [reflexivity|]. left. split; [eexists; reflexivity|].
      simpl. rewrite app_nil_r. reflexivity. }
    apply credentials_body in Hb. cbn [trace files set_heap heap] in Ht', Hf'.
    assert (Hpre : Forall plain (EvHttp "POST" (s2 +:+ "Authentication/Authenticate") body []
               (status (http env (trace w) "POST" (s2 +:+ "Authentication/Authenticate") body []))
               :: errs)).
    { constructor; [apply plain_http; exact Hb|exact Hp']. }
    assert (He : extended (heap w) (heap w')).
    { destruct r as [v|e].
      - destruct Hr as (_ & _ & answer & _ & Hl). apply extended_load in Hl.
        eapply extended_trans; [|exact Hl]. apply extended_snoc.
      - rewrite Hr. apply extended_snoc. }
    destruct r as [v|e].
    + heap_steps.
      all: try (eexists; split; [exact Hpre|]; split; [exact He|]; split; [exact Hf'|];
                left; split; [eexists; reflexivity|exact Ht']).
      eapply wp_mono; [|eapply queryBooked_request with (w := w)].
      * intros [b|e] w'' H; [apply wp_ret|]; exact H.
      * unfold config_lookup. rewrite Heqo. exact Heqo5.
      * exact Ht'.
      * exact Hpre.
      * exact He.
      * exact Hf'.
    + eexists; split; [exact Hpre|]; split; [exact He|]; split; [exact Hf'|].
      left; split; [eexists; reflexivity|exact Ht'].
  - exists []. split; [constructor|]. split; [apply extended_snoc|].
    split; [reflexivity|]. left. split; [eexists; reflexivity|].
    simpl. rewrite app_nil_r. reflexivity.
Qed.

Lemma plain_status_event config status e : plain e -> status_event config status e.
Proof. intros [Hq Hn]. split; [exact Hq|]. intros sid H. destruct (Hn sid H). Qed.

(** The members of the document of a dictionary. *)
Lemma dumped_dict n h l (d : gmap string pyval) body k :
  h !! l = Some (ODict d) -> dumps_fuel (S n) h (VRef l) = Some body ->
  match d !! k with
  | Some x => exists j, member k body = Some j /\ dumps_fuel n h x = Some j
  | None => member k body = None
  end.
Proof.
  intros Hl. cbn [dumps_fuel]. rewrite Hl.
  destruct (mapM _ _) as [members|] eqn:E; [|discriminate].
  intros [= <-]. eapply dumped_member. exact E.
Qed.

Lemma dumps_fuel_str n h s j : dumps_fuel n h (VStr s) = Some j -> j = JStr s.
Proof. destruct n; intros [= <-]; reflexivity. Qed.

Lemma reformat_attributes_plain attrs : forall acc w0 w,
  extends plain w0 w -> wp (reformat_attributes attrs acc) (fun _ w' => extends plain w0 w') w.
Proof.
  induction attrs as [|attr attrs IH]; intros acc w0 w He; simpl.
  - apply wp_ret. exact He.
  - heap_steps; try apply IH; extends_solve; apply plain_print.
Qed.

Lemma reformat_resources_plain resources : forall acc w0 w,
  extends plain w0 w -> wp (reformat_resources resources acc) (fun _ w' => extends plain w0 w') w.
Proof.
  induction resources as [|x resources IH]; intros acc w0 w He; simpl.
  - apply wp_ret. exact He.
  - heap_steps; try apply IH; extends_solve.
Qed.

Lemma extends_app (P : event -> Prop) w0 w1 w2 new :
  extends P w0 w1 -> trace w2 = trace w1 ++ new -> Forall P new -> extends P w0 w2.
Proof.
  intros (n1 & H1 & P1) H2 P2. exists (n1 ++ new). rewrite H2, H1, app_assoc.
  split; [reflexivity|]. apply Forall_app. auto.
Qed.

(** The request that updateStatus makes writes the status it was given. *)
Lemma status_event_request config status sid method path body hs st n h l
    (d : gmap string pyval) :
  config_lookup config "Status" status = Some sid ->
  h !! l = Some (ODict (<["statusId" := VStr sid]> d)) ->
  dumps_fuel (S n) h (VRef l) = Some body ->
  status_event config status (EvHttp method path body hs st).
Proof.
  intros Hc Hl Hb. split.
  - intros (dir & cmd & rc & _ & [H|H]); discriminate.
  - intros sid' (m & p & b & hs' & st' & [= <- <- <- <- <-] & H).
    pose proof (dumped_dict _ _ _ _ _ "statusId" Hl Hb) as Hm.
    rewrite lookup_insert_eq in Hm. destruct Hm as (j & Hj & Hd).
    apply dumps_fuel_str in Hd. congruence.
Qed.

Lemma updateStatus_events env config bR data status headers w :
  wp (updateStatus env config bR data status headers)
     (fun r w' => extends (status_event config status) w w' /\
                  match r with Ok _ => sent config status w w' | Raise _ => True end) w.
Proof.
  unfold updateStatus. heap_steps.
  all: try solve [split; [extends_solve|exact I]].
  eapply wp_mono; [|apply reformat_attributes_plain with (w0 := w); extends_solve].
  cbv beta. intros [b|e] w1 He1;
    [|split; [eapply extends_weaken; [apply plain_status_event|exact He1]|exact I]].
  heap_steps.
  all: try solve [split; [eapply extends_weaken; [apply plain_status_event|extends_solve]|exact I]].
  eapply wp_mono; [|apply reformat_resources_plain with (w0 := w); extends_solve].
  cbv beta. intros [b'|e] w2 He2;
    [|split; [eapply extends_weaken; [apply plain_status_event|exact He2]|exact I]].
  heap_steps.
  all: try solve [split; [eapply extends_weaken; [apply plain_status_event|extends_solve]|exact I]].
  eapply wp_mono; [|apply queryBooked_spec].
  intros r w' (pre & Hp & He & Hf & Hcase).
  assert (Hc : config_lookup config "Status" status = Some s).
  { unfold config_lookup. rewrite Heqo. exact Heqo0. }
  destruct He2 as (new2 & Hn2 & Hp2). cbn [trace set_heap] in Hcase.
  assert (E : exists new, trace w' = trace w ++ new /\
                Forall (status_event config status) new /\
                match r with Ok _ => Exists (writes_status s) new | Raise _ => True end).
  { destruct Hcase as [[[e ->] Ht]|(baseUrl & h & _ & Hh & body & hs & st & errs & Hb & Ht & Hp' & Hr)].
    - cbn [trace set_heap] in Ht. exists (new2 ++ pre). rewrite Ht, Hn2, app_assoc. split; [reflexivity|].
      split; [|exact I]. apply Forall_app_2; (eapply Forall_impl; [eassumption|]);
        apply plain_status_event.
    - assert (Hl : h !! l1 = Some (ODict (<["statusId" := VStr s]> d1))).
      { eapply extended_lookup; [exact Hh|]. cbn [heap set_heap].
        apply list_lookup_insert_eq. eapply lookup_lt_Some. exact H6. }
      rewrite H5 in Hb. cbn [trace set_heap] in Ht.
      exists (new2 ++ pre ++ EvHttp "POST" (baseUrl +:+ "Reservations/" +:+ a4) body hs st :: errs).
      split; [rewrite Ht, Hn2, <- app_assoc; reflexivity|]. split.
      + apply Forall_app_2; [eapply Forall_impl; [exact Hp2|]; apply plain_status_event|].
        apply Forall_app_2; [eapply Forall_impl; [exact Hp|]; apply plain_status_event|].
        constructor; [|eapply Forall_impl; [exact Hp'|]; apply plain_status_event].
        eapply status_event_request; [exact Hc|exact Hl|exact Hb].
      + destruct r as [x|e]; [|exact I].
        apply Exists_app. right. apply Exists_app. right. apply Exists_cons_hd.
        eexists _, _, _, _, _. split; [reflexivity|].
        pose proof (dumped_dict _ _ _ _ _ "statusId" Hl Hb) as Hm.
        rewrite lookup_insert_eq in Hm. destruct Hm as (j' & Hj & Hd).
        apply dumps_fuel_str in Hd. congruence. }
  destruct E as (new & Hn & HF & HE).
  destruct r as [[hs v']|e]; [|split; [exists new; auto|exact I]].
  heap_steps; try (split; [exists new; auto|exact I]).
  split.
  - eexists. cbn [trace add_event]. rewrite Hn, <- app_assoc. split; [reflexivity|].
    apply Forall_app_2; [exact HF|]. constructor; [apply plain_status_event, plain_log|constructor].
  - exists s. split; [exact Hc|]. unfold new_events. cbn [trace add_event].
    rewrite Hn, <- app_assoc, drop_app_length. apply Exists_app. left. exact HE.
Qed.

Lemma local_no_status e sid : local_event e -> ~ writes_status sid e.
Proof. intros H (m & p & b & hs & st & -> & _). exact H. Qed.

Lemma stopDagPB_resource_local env dagDir ref line w0 w :
  extends local_event w0 w ->
  wp (stopDagPB_resource env dagDir ref line tt) (fun _ w' => extends local_event w0 w') w.
Proof.
  intros H0. unfold stopDagPB_resource. wp_steps.
  all: repeat first [assumption | apply extends_files | apply extends_heap
                    | apply extends_event; [exact I|] ].
Qed.

Lemma stopDagPB_local env dagDir ref w :
  wp (stopDagPB env dagDir ref) (fun _ w' => extends local_event w w') w.
Proof.
  unfold stopDagPB. apply wp_bind, wp_read_file; [intros subf _|intros _; apply extends_refl].
  apply wp_bind.
  apply (wp_for_each (fun _ _ w1 => extends local_event w w1)).
  - apply extends_refl.
  - intros done line rest [] w1 _ H1.
    eapply wp_mono; [|apply stopDagPB_resource_local; exact H1].
    intros [[[]|b]|e] w' H; exact H.
  - intros [] w1 H1. apply wp_ret. exact H1.
Qed.

Lemma wp_conj {A} (m : M A) (Q1 Q2 : res A -> World -> Prop) w :
  wp m Q1 w -> wp m Q2 w -> wp m (fun r w' => Q1 r w' /\ Q2 r w') w.
Proof. intros H1 H2. split; assumption. Qed.

Lemma append_description_trace data text w :
  wp (append_description data text) (fun _ w' => trace w' = trace w) w.
Proof.
  unfold append_description. heap_steps; try reflexivity.
  match goal with |- wp _ _ ?w0 => unfold wp at 1; destruct (heap w0 !! _) as [[|xs]|] end;
    try reflexivity.
  match goal with
  | |- trace (snd (assign ?v ?k ?x ?w0)) = _ =>
      apply (wp_assign v k x (fun _ w' => trace w' = trace w) w0)
  end; [intros ? ? ? ?|]; reflexivity.
Qed.

Lemma sent_within config status w w1 w2 w3 (P Q R : event -> Prop) :
  extends P w w1 -> extends Q w1 w2 -> extends R w2 w3 ->
  sent config status w1 w2 -> sent config status w w3.
Proof.
  intros (a & Ha & _) (n & Hn & _) (b & Hb & _) (sid & Hc & Hex).
  exists sid. split; [exact Hc|]. unfold new_events in *.
  rewrite Hn, drop_app_length in Hex.
  rewrite Hb, Hn, Ha, <- !app_assoc, drop_app_length.
  apply Exists_app. right. apply Exists_app. left. exact Hex.
Qed.

Lemma extends_same (P : event -> Prop) w0 w w' :
  trace w' = trace w -> extends P w0 w -> extends P w0 w'.
Proof. intros Ht (new & Hn & HP). exists new. rewrite Ht. auto. Qed.

Lemma status_event_quiet config status e : status_event config status e -> quiet e.
Proof. intros [H _]. exact H. Qed.

(** What the branch for an expired reservation leaves in the trace: no
    failed shutdown or clean sub-command at all, or a request that wrote
    Stopping and none that wrote another status. *)
Lemma shutdown_expired_spec env config bR data headers w :
  wp (shutdown_expired env config bR data headers)
     (fun r w' =>
        extends quiet w w' \/
        (r = Ok tt /\ extends (stopping_event config) w w' /\
         sent config "stopping" w w')) w.
Proof.
  unfold shutdown_expired. do 4 wp_step. apply wp_bind.
  set (w0 := add_event _ w).
  assert (H0 : extends quiet w w0).
  { apply extends_event; [apply quiet_log|apply extends_refl]. }
  assert (H0' : extends (stopping_event config) w w0).
  { apply extends_event; [|apply extends_refl].
    intros sid H. exact (False_ind _ (local_no_status (EvLog _ _) sid I H)). }
  eapply wp_mono; [|apply append_description_trace].
  intros r1 w1 Ht1. cbv beta in Ht1.
  assert (H1 : extends quiet w w1) by (eapply extends_same; eassumption).
  assert (H1' : extends (stopping_event config) w w1) by (eapply extends_same; eassumption).
  destruct r1 as [[]|e]; [|left; exact H1].
  apply wp_bind. eapply wp_mono; [|apply updateStatus_events].
  intros r2 w2 [E2 S2].
  assert (H2 : extends quiet w w2).
  { eapply extends_trans; [exact H1|]. eapply extends_weaken; [|exact E2].
    apply status_event_quiet. }
  assert (H2' : extends (stopping_event config) w w2).
  { eapply extends_trans; [exact H1'|]. eapply extends_weaken; [|exact E2].
    intros e [_ He]. exact He. }
  destruct r2 as [b2|e]; [|left; exact H2].
  heap_steps; try (left; exact H2).
  eapply wp_mono; [|apply wp_conj; [apply stopDagPB_spec|apply stopDagPB_local]].
  intros r3 w3 [Q3 L3]. cbv beta in Q3.
  destruct r3 as [[|]|e].
  - assert (H3 : extends quiet w w3) by (eapply extends_trans; eassumption).
    do 3 wp_step. eapply wp_mono; [|apply append_description_trace].
    intros r4 w4 Ht4. cbv beta in Ht4.
    assert (H4 : extends quiet w w4) by (eapply extends_same; eassumption).
    destruct r4 as [[]|e]; [|left; exact H4].
    apply wp_bind. eapply wp_mono; [|apply updateStatus_events].
    intros r5 w5 [E5 _].
    assert (H5 : extends quiet w w5).
    { eapply extends_trans; [exact H4|]. eapply extends_weaken; [|exact E5].
      apply status_event_quiet. }
    destruct r5; [apply wp_ret|]; left; exact H5.
  - apply wp_ret. right. split; [reflexivity|]. split.
    + eapply extends_trans; [exact H2'|]. eapply extends_weaken; [|exact L3].
      intros e He sid H. destruct (local_no_status _ sid He H).
    + eapply sent_within; [exact H1|exact E2|exact L3|exact S2].
  - left. eapply extends_trans; eassumption.
Qed.

(** C3. When a shutdown or clean sub-command of the teardown exits with
    another status than 0, stopDagPB returns False; and the branch of
    the main loop for an expired reservation, in which it is called, then
    ends without raising, having sent the request that writes Stopping
    and no request that writes another status: Created is not written. *)
Theorem teardown_failure_keeps_stopping env config :
  (forall dagDir ref w r w',
     stopDagPB env dagDir ref w = (r, w') ->
     Exists teardown_failure (new_events w w') ->
     r = Ok false) /\
  (forall bookedReservation data headers w r w',
     shutdown_expired env config bookedReservation data headers w = (r, w') ->
     Exists teardown_failure (new_events w w') ->
     r = Ok tt /\
     (exists sid, config_lookup config "Status" "stopping" = Some sid /\
                  Exists (writes_status sid) (new_events w w')) /\
     forall sid, Exists (writes_status sid) (new_events w w') ->
                 config_lookup config "Status" "stopping" = Some sid).
Proof.
  split; [apply stopDagPB_failure|].
  intros bR data headers w r w' Hrun Hex.
  pose proof (wp_run _ _ _ _ _ (shutdown_expired_spec env config bR data headers w) Hrun)
    as [Hq|(-> & Hs & Hsent)].
  - apply extends_new_events in Hq. apply Exists_exists in Hex as (ev & Hin & Hev).
    rewrite Forall_forall in Hq. destruct (Hq ev Hin Hev).
  - split; [reflexivity|]. split; [exact Hsent|].
    intros sid Hw. apply extends_new_events in Hs.
    apply Exists_exists in Hw as (ev & Hin & Hev).
    rewrite Forall_forall in Hs. exact (Hs ev Hin sid Hev).
Qed.

Lemma teardown_failure_keeps_stopping_witness :
  fst (stopDagPB (env_of 1 None answer_ok) dag9 "9" (world_of dag9_files)) = Ok false /\
  fst (shutdown_expired (env_of 1 None answer_ok) demo_config demo_reservation
         demo_reservation (Some demo_headers) (demo_world dag9_files)) = Ok tt /\
  forall sid,
    Exists (writes_status sid)
      (new_events (demo_world dag9_files)
         (snd (shutdown_expired (env_of 1 None answer_ok) demo_config demo_reservation
                 demo_reservation (Some demo_headers) (demo_world dag9_files)))) ->
    config_lookup demo_config "Status" "stopping" = Some sid.
Proof.
  assert (Hf : teardown_failure
                 (EvShell Shutdown "/var/pcc/dag-9/vc1"
                    "ssh root@host1.example.org /opt/python/bin/python /opt/pragma_boot/bin/pragma shutdown omega"
                    1)).
  { eexists _, _, _. split; [|left; reflexivity]. discriminate. }
  split.
  - apply (proj1 (teardown_failure_keeps_stopping (env_of 1 None answer_ok) demo_config)
             dag9 "9" (world_of dag9_files) _ _ (surjective_pairing _)).
    apply Exists_exists. eexists. split; [|exact Hf].
    vm_compute. do 2 right. left.
  - assert (H := proj2 (teardown_failure_keeps_stopping (env_of 1 None answer_ok) demo_config)
             demo_reservation demo_reservation (Some demo_headers) (demo_world dag9_files)
             _ _ (surjective_pairing _)).
    destruct H as (H1 & _ & H3); [|split; [exact H1|exact H3]].
    apply Exists_exists. eexists. split; [|exact Hf].
    vm_compute. do 6 right. left.
Defined.


Lemma denotes_snoc h P o v j : denotes h P v j -> denotes (h ++ [o]) P v j.
Proof.
  intros H. eapply denotes_mono; [exact H|]. intros l x Hl Hx.
  split; [exact Hl|]. apply lookup_app_l_Some. exact Hx.
Qed.

Lemma flat_cell_snoc h l0 a o x fj : flat_cell h l0 a x fj -> flat_cell (h ++ [o]) l0 a x fj.
Proof.
  intros H. eapply flat_cell_stable; [exact H|apply stable_snoc, stable_refl|].
  intros l y _ Hy. apply lookup_app_l_Some. exact Hy.
Qed.

Lemma reformat_attributes_spec l0 a xs : forall attrs acc flats w0 w,
  Forall2 (denotes (heap w) (between a l0)) xs attrs ->
  Forall2 (flat_cell (heap w) l0 a) acc flats ->
  (l0 < List.length (heap w))%nat ->
  extends plain w0 w ->
  wp (reformat_attributes xs acc)
     (fun r w' =>
        extended (heap w) (heap w') /\ extends plain w0 w' /\
        match r with
        | Ok acc' => Forall2 (flat_cell (heap w') l0 a) acc' (flats ++ omap flat_attribute attrs)
        | Raise _ => True
        end) w.
Proof.
  induction xs as [|x xs IH]; intros attrs acc flats w0 w Hxs Hacc Hl0 He.
  - apply Forall2_nil_inv_l in Hxs as ->. apply wp_ret.
    split; [apply extended_refl|]. split; [exact He|]. simpl. rewrite app_nil_r. exact Hacc.
  - apply Forall2_cons_inv_l in Hxs as (aj & attrs' & Hx & Hxs & ->).
    simpl reformat_attributes. apply wp_bind, wp_has_key.
    assert (Hfail : extended (heap w) (heap w) /\ extends plain w0 w /\ True).
    { split; [apply extended_refl|]. split; [exact He|exact I]. }
    inversion Hx as [| | | |l ys items Pl Hl Hys|l d members Pl Hl Hd]; subst;
      cbn [contains_key]; rewrite ?Hl; try exact Hfail.
    pose proof (members_by_name _ _ _ "id" Hd) as Mid.
    pose proof (members_by_name _ _ _ "value" Hd) as Mvalue.
    assert (Hskip : flat_attribute (JObj members) = None ->
              wp (emit (EvPrint "Bad attr " (VRef l));; reformat_attributes xs acc)%py
                (fun r w' =>
                   extended (heap w) (heap w') /\ extends plain w0 w' /\
                   match r with
                   | Ok acc' => Forall2 (flat_cell (heap w') l0 a) acc'
                                  (flats ++ omap flat_attribute (JObj members :: attrs'))
                   | Raise _ => True
                   end) w).
    { intros Hnone. apply wp_bind, wp_emit. cbn [omap list_omap]. rewrite Hnone.
      apply (IH attrs' acc flats w0 (add_event (EvPrint "Bad attr " (VRef l)) w));
        try assumption.
      apply extends_event; [apply plain_print|exact He]. }
    destruct (d !! "id") as [xi|] eqn:Eid.
    2:{ rewrite bool_decide_eq_false_2 by (intros [? ?]; discriminate).
        apply wp_bind, wp_ret. cbn [andb]. apply Hskip.
        unfold flat_attribute. rewrite Mid. reflexivity. }
    rewrite bool_decide_eq_true_2 by eauto.
    apply wp_bind, wp_has_key. cbn [contains_key]. rewrite Hl.
    destruct (d !! "value") as [xv|] eqn:Evalue.
    2:{ rewrite bool_decide_eq_false_2 by (intros [? ?]; discriminate).
        cbn [andb]. apply Hskip.
        unfold flat_attribute. rewrite Mvalue. destruct (member "id" _); reflexivity. }
    rewrite bool_decide_eq_true_2 by eauto. cbn [andb].
    destruct Mid as (ji & Mid & Di). destruct Mvalue as (jv & Mvalue & Dv).
    apply wp_bind, wp_subscript. cbn [getitem]. rewrite Hl, Eid.
    apply wp_bind, wp_subscript. cbn [getitem]. rewrite Hl, Evalue.
    apply wp_bind, wp_alloc.
    set (cell := ODict (<["attributeId" := xi]> (<["attributeValue" := xv]> ∅))).
    eapply wp_mono;
      [|apply (IH attrs' (acc ++ [VRef (List.length (heap w))])
                 (flats ++ [JObj [("attributeId", ji); ("attributeValue", jv)]])
                 w0 (set_heap (fun h => h ++ [cell]) w))].
    + intros r w' (E1 & E2 & E3). split; [|split; [exact E2|]].
      * eapply extended_trans; [apply extended_snoc|exact E1].
      * destruct r; [|exact I]. cbn [omap list_omap]. unfold flat_attribute at 1.
        rewrite Mid, Mvalue. rewrite <- app_assoc in E3. exact E3.
    + cbn [heap set_heap]. eapply Forall2_impl; [exact Hxs|]. intros; apply denotes_snoc; assumption.
    + cbn [heap set_heap]. apply Forall2_app.
      * eapply Forall2_impl; [exact Hacc|]. intros; apply flat_cell_snoc; assumption.
      * constructor; [|constructor].
        exists (List.length (heap w)), xi, xv, ji, jv.
        split; [reflexivity|]. split; [lia|].
        split; [apply list_lookup_middle; reflexivity|].
        split; [apply denotes_snoc; exact Di|]. split; [apply denotes_snoc; exact Dv|reflexivity].
    + cbn [heap set_heap]. rewrite length_app. lia.
    + apply extends_heap. exact He.
Qed.

Lemma reformat_resources_spec P rs : forall resources acc ids w,
  Forall2 (denotes (heap w) P) rs resources ->
  Forall2 (denotes (heap w) P) acc ids ->
  wp (reformat_resources rs acc)
     (fun r w' =>
        w' = w /\
        match r with
        | Ok acc' =>
            exists ids', Forall2 (denotes (heap w) P) acc' (ids ++ ids') /\
                         Forall2 (fun r id => member "id" r = Some id) resources ids'
        | Raise _ => True
        end) w.
Proof.
  induction rs as [|x rs IH]; intros resources acc ids w Hrs Hacc.
  - apply Forall2_nil_inv_l in Hrs as ->. apply wp_ret. split; [reflexivity|].
    exists []. rewrite app_nil_r. split; [exact Hacc|constructor].
  - apply Forall2_cons_inv_l in Hrs as (rj & resources' & Hx & Hrs & ->).
    simpl reformat_resources. apply wp_bind, wp_subscript.
    inversion Hx as [| | | |l ys items Pl Hl Hys|l d members Pl Hl Hd]; subst;
      cbn [getitem]; rewrite ?Hl; try (split; [reflexivity|exact I]).
    pose proof (members_by_name _ _ _ "id" Hd) as Mid.
    destruct (d !! "id") as [xi|] eqn:Eid; [|split; [reflexivity|exact I]].
    destruct Mid as (ji & Mid & Di).
    eapply wp_mono; [|apply (IH resources' (acc ++ [xi]) (ids ++ [ji]) w)].
    + intros r w' [-> Hr]. split; [reflexivity|]. destruct r; [|exact I].
      destruct Hr as (ids' & H1 & H2). exists (ji :: ids').
      split; [rewrite <- app_assoc in H1; exact H1|]. constructor; assumption.
    + exact Hrs.
    + apply Forall2_app; [exact Hacc|]. repeat constructor. exact Di.
Qed.

Lemma stable_trans l0 h1 h2 h3 : stable l0 h1 h2 -> stable l0 h2 h3 -> stable l0 h1 h3.
Proof. intros H1 H2 l o Hl Ho. apply H2, H1; assumption. Qed.

Lemma stable_of_extended l0 h h' : extended h h' -> stable l0 h h'.
Proof. intros He. eapply stable_extended; [exact He|apply stable_refl]. Qed.

Lemma denotes_between_stable l0 h h' a v j :
  denotes h (between a l0) v j -> stable l0 h h' -> denotes h' (between a l0) v j.
Proof.
  intros Hd Hs. eapply denotes_mono; [exact Hd|].
  intros l o Hl Ho. split; [exact Hl|]. apply Hs; [destruct Hl; lia|exact Ho].
Qed.

Lemma flat_cells_denote h h' l0 a acc flats :
  Forall2 (flat_cell h l0 a) acc flats -> stable l0 h h' ->
  Forall2 (denotes h' (fun _ => True)) acc flats.
Proof.
  intros HF Hs. eapply Forall2_impl; [exact HF|]. intros x fj Hc.
  eapply flat_cell_denotes, flat_cell_stable; [exact Hc|exact Hs|].
  intros l o Hl Ho. apply Hs; [destruct Hl; lia|exact Ho].
Qed.

Lemma updateStatus_request env config bR data status headers w doc attrs resources :
  fst (dumps data w) = Ok doc ->
  member "customAttributes" doc = Some (JArr attrs) ->
  member "resources" doc = Some (JArr resources) ->
  wp (updateStatus env config bR data status headers)
     (fun r w' =>
        match r with
        | Ok b => payload_sent env config status w w' doc attrs resources b
        | Raise _ => True
        end) w.
Proof.
  intros Hdoc Hattrs Hres. unfold updateStatus.
  apply wp_bind, wp_dumps; [intros j Hj|exact I].
  assert (j = doc) as ->.
  { unfold dumps in Hdoc. rewrite Hj in Hdoc. simpl in Hdoc. congruence. }
  apply wp_bind, wp_loads. intros v h1 Hload.
  pose proof (dumps_canonical _ _ _ _ Hj) as Hcan.
  destruct doc as [| | | | |members]; try discriminate Hattrs.
  inversion Hcan as [| | | | |? dc Hkeys Hmem]; subst.
  destruct (load_object members dc (heap w) v h1 Hkeys) as (l0 & d0 & -> & Hl0 & Hge & Hlen & Hd0);
    [eapply Forall_impl; [exact Hmem|]; intros; apply canonical_loads_well; assumption|exact Hload|].
  pose proof (fun k => members_by_name _ _ _ k Hd0) as Hroot. cbv beta in Hroot.
  set (a := List.length (heap w)) in *.
  (* updateData['customAttributes'] *)
  apply wp_bind, wp_subscript. cbn [heap set_heap getitem]. rewrite Hl0.
  pose proof (Hroot "customAttributes") as Ha.
  destruct (d0 !! "customAttributes") as [xa|] eqn:Ea; [|congruence].
  destruct Ha as (ja & Hja & Da). rewrite Hattrs in Hja. injection Hja as <-.
  apply wp_bind, wp_iterate. cbn [heap set_heap].
  inversion Da as [| | | |la xs items Pla Hla Hxs|]; subst. cbn [items]. rewrite Hla.
  apply wp_bind.
  eapply wp_mono;
    [|apply (reformat_attributes_spec l0 a xs attrs [] [] w (set_heap (fun _ => h1) w));
      [exact Hxs|constructor|cbn [heap set_heap]; lia|apply extends_heap, extends_refl]].
  intros r2 w2 (E2 & T2 & F2). cbn [heap set_heap] in E2. destruct r2 as [acc|e]; [|exact I].
  cbn [app] in F2.
  apply wp_bind, wp_alloc. apply wp_bind, wp_assign; [|exact I].
  set (lA := List.length (heap w2)).
  intros l d [= <-] Hd. cbn [heap set_heap] in Hd.
  assert (d = d0) as ->.
  { assert (H : (heap w2 ++ [OList acc]) !! l0 = Some (ODict d0)).
    { apply lookup_app_l_Some. eapply extended_lookup; eassumption. }
    congruence. }
  set (d1 := <["customAttributes" := VRef lA]> d0).
  set (w4 := set_heap _ (set_heap _ w2)).
  assert (Hlt : (l0 < lA)%nat).
  { unfold lA. apply extended_length in E2. lia. }
  assert (R4 : heap w4 !! l0 = Some (ODict d1)).
  { cbn [w4 heap set_heap]. apply list_lookup_insert_eq. rewrite length_app. fold lA. lia. }
  assert (S24 : stable l0 (heap w2) (heap w4)).
  { cbn [w4 heap set_heap]. apply stable_update, stable_snoc, stable_refl. }
  assert (S14 : stable l0 h1 (heap w4)).
  { eapply stable_trans; [apply stable_of_extended; exact E2|exact S24]. }
  assert (A4 : heap w4 !! lA = Some (OList acc)).
  { cbn [w4 heap set_heap]. rewrite list_lookup_insert_ne by lia.
    apply list_lookup_middle. reflexivity. }
  assert (T4 : extends plain w w4) by (do 2 apply extends_heap; exact T2).
  clearbody w4. clear Hd.
  (* updateData['resources'] *)
  apply wp_bind, wp_subscript. cbn [getitem]. rewrite R4.
  unfold d1 at 1. rewrite lookup_insert_ne by discriminate.
  pose proof (Hroot "resources") as Hr.
  destruct (d0 !! "resources") as [xr|] eqn:Er; [|congruence].
  destruct Hr as (jr & Hjr & Dr). rewrite Hres in Hjr. injection Hjr as <-.
  apply (denotes_between_stable _ _ _ _ _ _ Dr) in S14 as Dr4.
  apply wp_bind, wp_iterate.
  inversion Dr4 as [| | | |lr rs items Plr Hlr Hrs|]; subst. cbn [items]. rewrite Hlr.
  apply wp_bind.
  eapply wp_mono;
    [|apply (reformat_resources_spec (between a l0) rs resources [] [] w4);
      [exact Hrs|constructor]].
  intros r5 w5 [-> F5]. destruct r5 as [accr|e]; [|exact I].
  destruct F5 as (ids & F5 & Hids). cbn [app] in F5.
  apply wp_bind, wp_alloc. apply wp_bind, wp_assign; [|exact I].
  set (lR := List.length (heap w4)).
  intros l d [= <-] Hd. cbn [heap set_heap] in Hd.
  assert (d = d1) as ->.
  { assert (H : (heap w4 ++ [OList accr]) !! l0 = Some (ODict d1)).
    { apply lookup_app_l_Some. exact R4. }
    congruence. }
  unfold config_get.
  destruct (config !! "Status") as [options|] eqn:Eo; [|apply wp_bind, wp_raise; exact I].
  destruct (options !! status) as [sid|] eqn:Es; [|apply wp_bind, wp_raise; exact I].
  apply wp_bind, wp_ret. apply wp_bind, wp_assign; [|exact I].
  intros l d [= <-] Hd'. cbn [heap set_heap] in Hd'.
  rewrite list_lookup_insert_eq in Hd'
    by (rewrite length_app; apply lookup_lt_Some in R4; lia).
  injection Hd' as <-.
  set (d3 := <["statusId" := VStr sid]> (<["resources" := VRef lR]> d1)).
  set (w7 := set_heap _ (set_heap _ (set_heap _ w4))).
  assert (Hlt' : (l0 < lR)%nat) by (apply lookup_lt_Some in R4; exact R4).
  assert (R7 : heap w7 !! l0 = Some (ODict d3)).
  { cbn [w7 heap set_heap]. apply list_lookup_insert_eq.
    rewrite length_insert, length_app. fold lR. lia. }
  assert (S47 : stable l0 (heap w4) (heap w7)).
  { cbn [w7 heap set_heap]. do 2 apply stable_update. apply stable_snoc, stable_refl. }
  assert (A7 : heap w7 !! lR = Some (OList accr)).
  { cbn [w7 heap set_heap]. rewrite !list_lookup_insert_ne by lia.
    apply list_lookup_middle. reflexivity. }
  assert (T7 : extends plain w w7) by (do 3 apply extends_heap; exact T4).
  clearbody w7.
  apply wp_bind, wp_subscript.
  destruct (getitem (heap w7) bR "referenceNumber") as [ref|e]; [|exact I].
  apply wp_bind, wp_lift. destruct ref as [| | |ref|]; try exact I.
  apply wp_bind. eapply wp_mono; [|apply queryBooked_spec].
  intros r8 w8 (pre & Hp & E8 & _ & Hcase). destruct r8 as [[hs v8]|e]; [|exact I].
  destruct Hcase as [[[e He] _]|(baseUrl & h & Hbase & Hh & body & hs' & st & errs & Hb & Ht & _ & Hr)];
    [discriminate|].
  destruct Hr as (-> & -> & -> & answer & Hanswer & Hload8).
  apply wp_bind, wp_subscript. cbn [snd].
  destruct (getitem (heap w8) v8 "message") as [x|e] eqn:Emsg; [|exact I].
  apply wp_bind, wp_lift. destruct x as [| | |msg|]; try exact I.
  apply wp_bind, wp_log, wp_ret.
  destruct T7 as (new7 & Hn7 & _).
  assert (S7h : stable l0 (heap w7) h) by (apply stable_of_extended; exact Hh).
  assert (S4h : stable l0 (heap w4) h) by (eapply stable_trans; eassumption).
  assert (Rh : h !! l0 = Some (ODict d3)) by (eapply extended_lookup; eassumption).
  pose proof (fun k => dumped_dict _ _ _ _ _ k Rh Hb) as Hbody. cbv beta in Hbody.
  exists (new7 ++ pre), (baseUrl +:+ "Reservations/" +:+ ref), body, hs', answer, msg, sid, ids.
  assert (Harr : forall lx ys js,
            h !! lx = Some (OList ys) -> Forall2 (denotes h (fun _ => True)) ys js ->
            forall j, dumps_fuel (List.length h) h (VRef lx) = Some j -> j = JArr js).
  { intros lx ys js Hlx Hys j Hdj. eapply denotes_det; [|exact Hdj].
    econstructor; [exact I|exact Hlx|exact Hys]. }
  split.
  { cbn [trace add_event]. rewrite Ht, Hn7, <- !app_assoc. reflexivity. }
  split.
  { pose proof (Hbody "customAttributes") as Hm. unfold d3 in Hm.
    rewrite !lookup_insert_ne in Hm by discriminate. unfold d1 in Hm.
    rewrite lookup_insert_eq in Hm. destruct Hm as (j & Hm & Hdj). rewrite Hm. f_equal.
    eapply Harr; [|eapply flat_cells_denote; [exact F2|]|exact Hdj].
    - apply S4h; [lia|exact A4].
    - eapply stable_trans; eassumption. }
  split.
  { pose proof (Hbody "resources") as Hm. unfold d3 in Hm.
    rewrite lookup_insert_ne in Hm by discriminate.
    rewrite lookup_insert_eq in Hm. destruct Hm as (j & Hm & Hdj). rewrite Hm. f_equal.
    eapply Harr; [| |exact Hdj].
    - apply S7h; [lia|exact A7].
    - eapply Forall2_impl; [exact F5|]. intros x jx Hx.
      eapply denotes_stable; [exact Hx|exact S4h]. }
  split; [exact Hids|].
  split; [unfold config_lookup; rewrite Eo; exact Es|].
  split.
  { pose proof (Hbody "statusId") as Hm. unfold d3 in Hm.
    rewrite lookup_insert_eq in Hm. destruct Hm as (j & Hm & Hdj).
    apply dumps_fuel_str in Hdj. congruence. }
  split.
  { intros k K1 K2 K3. pose proof (Hbody k) as Hm. unfold d3, d1 in Hm.
    rewrite !lookup_insert_ne in Hm by congruence.
    pose proof (Hroot k) as Hk. destruct (d0 !! k) as [x|].
    - destruct Hm as (j & Hm & Hdj). destruct Hk as (j0 & Hk & Dk).
      rewrite Hm, Hk. f_equal. eapply denotes_det; [|exact Hdj].
      eapply denotes_stable; [exact Dk|].
      eapply stable_trans; [exact S14|exact S4h].
    - congruence. }
  split; [rewrite <- Hanswer, Hn7, <- app_assoc; reflexivity|].
  split; [|reflexivity].
  eapply loaded_string_member; [exact Hload8|apply extended_refl|exact Emsg].
Qed.

(** C7, amended. For every reservation whose custom attributes and
    resources are lists, and every status name: when updateStatus returns,
    it has sent a POST whose payload has, for each custom attribute that
    has both an id and a value, the pair of attributeId and
    attributeValue, in the order of the attributes, and nothing for an
    attribute that lacks one of the two; the ids of the resources for the
    resources; the id that the configuration gives the status name for
    statusId; and every other member as the reservation has it.  It
    returns True if and only if the message of the answer is the
    acknowledgement. *)
Theorem updateStatus_payload env config bookedReservation data status headers
    w b w' doc attrs resources :
  updateStatus env config bookedReservation data status headers w = (Ok b, w') ->
  fst (dumps data w) = Ok doc ->
  member "customAttributes" doc = Some (JArr attrs) ->
  member "resources" doc = Some (JArr resources) ->
  payload_sent env config status w w' doc attrs resources b.
Proof.
  intros Hrun Hdoc Hattrs Hres.
  exact (wp_run _ _ _ _ _
           (updateStatus_request env config bookedReservation data status headers
              w doc attrs resources Hdoc Hattrs Hres) Hrun).
Qed.

Lemma updateStatus_payload_witness :
  payload_sent (env_of 0 None answer_ok) demo_config "stopping" (demo_world ∅)
    (snd (updateStatus (env_of 0 None answer_ok) demo_config demo_reservation
            demo_reservation "stopping" (Some demo_headers) (demo_world ∅)))
    demo_document demo_attributes demo_resources true.
Proof.
  apply (updateStatus_payload (env_of 0 None answer_ok) demo_config demo_reservation
           demo_reservation "stopping" (Some demo_headers)).
  - vm_compute. reflexivity.
  - vm_compute. reflexivity.
  - vm_compute. reflexivity.
  - vm_compute. reflexivity.
Defined.

(** The claim as it is stated fails on a reservation with an attribute
    that has no value: of the two attributes of the reservation, the
    payload has one. *)
Lemma attribute_without_value_is_left_out :
  exists w' path hs,
    updateStatus (env_of 0 None answer_ok) demo_config demo_reservation
      demo_reservation "stopping" (Some demo_headers) (demo_world ∅) = (Ok true, w') /\
    fst (dumps demo_reservation (demo_world ∅)) = Ok demo_document /\
    member "customAttributes" demo_document = Some (JArr demo_attributes) /\
    In (EvHttp "POST" path demo_body hs 200) (trace w') /\
    ~ (exists flats, member "customAttributes" demo_body = Some (JArr flats) /\
                     Forall2 flattened demo_attributes flats).
Proof.
  eexists; eexists; eexists.
  split; [vm_compute; reflexivity|].
  split; [vm_compute; reflexivity|].
  split; [vm_compute; reflexivity|].
  split; [vm_compute; right; left; reflexivity|].
  intros (flats & Hm & HF). vm_compute in Hm. injection Hm as <-.
  inversion HF as [|a1 f1 l1 l2 _ HF']. inversion HF'.
Qed.

(** * Further properties of the script *)

Lemma halted_fail l e : Forall quiet l -> teardown_failure e -> halted (l ++ [e]).
Proof. intros H1 H2. exists l, e, []. auto. Qed.

Lemma halted_snoc l e : halted l -> ~ is_command e -> halted (l ++ [e]).
Proof.
  intros (pre & x & post & -> & H1 & H2 & H3) He. exists pre, x, (post ++ [e]).
  split; [rewrite <- app_assoc; reflexivity|]. split; [exact H1|]. split; [exact H2|].
  apply Forall_app_2; [exact H3|]. repeat constructor. exact He.
Qed.

Lemma failed_shutdown dir cmd rc :
  negb (rc =? 0) = true -> teardown_failure (EvShell Shutdown dir cmd rc).
Proof.
  intros H. exists dir, cmd, rc. split; [|left; reflexivity].
  intros ->. discriminate H.
Qed.

Lemma failed_clean dir cmd rc :
  negb (rc =? 0) = true -> teardown_failure (EvShell Clean dir cmd rc).
Proof.
  intros H. exists dir, cmd, rc. split; [|right; reflexivity].
  intros ->. discriminate H.
Qed.

Ltac quiet_list :=
  first [ assumption
        | (apply Forall_app_2; [quiet_list|repeat constructor; event_solve]) ].

Ltac halted_solve :=
  first
    [ (apply halted_fail;
       [ quiet_list | first [apply failed_shutdown | apply failed_clean]; assumption ])
    | (apply halted_snoc; [halted_solve|intros []]) ].

Lemma stopDagPB_resource_halts env dagDir ref line n w0 w :
  trace w = trace w0 ++ n -> Forall quiet n ->
  wp (stopDagPB_resource env dagDir ref line tt)
     (fun r w' =>
        exists new, trace w' = trace w0 ++ new /\
          match r with
          | Ok (Return b) => b = false /\ halted new
          | _ => Forall quiet new
          end) w.
Proof.
  intros Hn Hq. unfold stopDagPB_resource.
  wp_steps.
  all: try just_written.
  all: try fmt1_fails.
  all: eexists; (split; [repeat first [exact Hn | apply since_files | apply since_event]|]).
  all: try (split; [reflexivity|halted_solve]).
  all: try quiet_list.
Qed.

Lemma new_events_app w w' new : trace w' = trace w ++ new -> new_events w w' = new.
Proof. intros H. unfold new_events. rewrite H. apply drop_app_length. Qed.

Lemma stopDagPB_halts env dagDir ref w :
  wp (stopDagPB env dagDir ref)
     (fun r w' =>
        exists new, trace w' = trace w ++ new /\
          match r with
          | Ok false => halted new
          | _ => Forall quiet new
          end) w.
Proof.
  unfold stopDagPB.
  apply wp_bind, wp_read_file;
    [intros subf _|intros _; exists []; split; [apply since_refl|constructor]].
  apply wp_bind.
  apply (wp_for_each (fun _ _ w1 => exists n, trace w1 = trace w ++ n /\ Forall quiet n)).
  - exists []. split; [apply since_refl|constructor].
  - intros done line rest [] w1 _ (n & Hn & Hq).
    eapply wp_mono; [|apply (stopDagPB_resource_halts env dagDir ref line n w w1 Hn Hq)].
    intros [[[]|b]|e] w' (new & Ht & H); cbv beta iota.
    + exists new. auto.
    + destruct H as [-> H]. apply wp_ret. exists new. auto.
    + exists new. auto.
  - intros [] w1 (n & Hn & Hq). apply wp_ret. exists n. auto.
Qed.

(** X1. When stopDagPB returns, it returns False if and only if one of
    its shutdown or clean sub-commands exited with another status than
    0. *)
Theorem stopDagPB_false_iff_failure env dagDir refNumber w b w' :
  stopDagPB env dagDir refNumber w = (Ok b, w') ->
  (b = false <-> Exists teardown_failure (new_events w w')).
Proof.
  intros Hrun.
  pose proof (wp_run _ _ _ _ _ (stopDagPB_halts env dagDir refNumber w) Hrun)
    as (new & Hn & H).
  rewrite (new_events_app _ _ _ Hn). destruct b.
  - split; [discriminate|]. intros Hex. apply Exists_exists in Hex as (e & Hin & He).
    rewrite Forall_forall in H. destruct (H e Hin He).
  - split; [intros _|reflexivity]. destruct H as (pre & e & post & -> & _ & He & _).
    apply Exists_app. right. apply Exists_cons_hd. exact He.
Qed.

Lemma stopDagPB_false_iff_failure_witness :
  false = false <->
  Exists teardown_failure
    (new_events (world_of dag9_files)
       (snd (stopDagPB (env_of 1 None answer_ok) dag9 "9" (world_of dag9_files)))).
Proof.
  apply (stopDagPB_false_iff_failure (env_of 1 None answer_ok) dag9 "9").
  vm_compute. reflexivity.
Defined.

(** X2. When stopDagPB returns False, the sub-command that failed is the
    last command it has run: the ones before it exited with 0, and the
    resources on the later lines of dag.sub are neither shut down nor
    cleaned. *)
Theorem stopDagPB_stops_at_failure env dagDir refNumber w w' :
  stopDagPB env dagDir refNumber w = (Ok false, w') ->
  exists pre e post,
    new_events w w' = pre ++ e :: post /\
    Forall quiet pre /\ teardown_failure e /\
    Forall (fun x => ~ is_command x) post.
Proof.
  intros Hrun.
  pose proof (wp_run _ _ _ _ _ (stopDagPB_halts env dagDir refNumber w) Hrun)
    as (new & Hn & H).
  rewrite (new_events_app _ _ _ Hn). exact H.
Qed.

Lemma stopDagPB_stops_at_failure_witness :
  exists pre e post,
    new_events (world_of dag9_files)
      (snd (stopDagPB (env_of 1 None answer_ok) dag9 "9" (world_of dag9_files)))
    = pre ++ e :: post /\
    Forall quiet pre /\ teardown_failure e /\
    Forall (fun x => ~ is_command x) post.
Proof.
  apply (stopDagPB_stops_at_failure (env_of 1 None answer_ok) dag9 "9").
  vm_compute. reflexivity.
Defined.

Lemma updateStatus_sent env config bR data status headers w :
  wp (updateStatus env config bR data status headers)
     (fun r w' =>
        exists new, trace w' = trace w ++ new /\
          Forall (status_event config status) new /\
          match r with
          | Ok _ => exists sid, config_lookup config "Status" status = Some sid /\
                                Exists (writes_status sid) new
          | Raise _ => True
          end) w.
Proof.
  eapply wp_mono; [|apply updateStatus_events].
  intros r w' [(new & Hn & HF) Hs]. exists new. split; [exact Hn|]. split; [exact HF|].
  destruct r; [|exact I]. destruct Hs as (sid & Hc & Hex). exists sid. split; [exact Hc|].
  rewrite (new_events_app _ _ _ Hn) in Hex. exact Hex.
Qed.

Lemma shutdown_expired_ordered env config bR data headers w :
  wp (shutdown_expired env config bR data headers)
     (fun r w' =>
        r = Ok tt -> Forall quiet (new_events w w') ->
        sent_in_order config "stopping" "created" (new_events w w')) w.
Proof.
  unfold shutdown_expired. do 4 wp_step. apply wp_bind.
  set (e0 := EvLog DEBUG _).
  eapply wp_mono; [|apply append_description_trace].
  intros r1 w1 Ht1. cbv beta in Ht1. cbn [trace add_event] in Ht1.
  destruct r1 as [[]|e]; [|discriminate].
  apply wp_bind. eapply wp_mono; [|apply updateStatus_sent].
  intros r2 w2 (nA & HnA & _ & HsA). destruct r2 as [b2|e]; [|discriminate].
  destruct HsA as (sid1 & Hc1 & HexA).
  heap_steps; try discriminate.
  eapply wp_mono; [|apply stopDagPB_halts].
  intros r3 w3 (nS & HnS & H3).
  assert (Hfail : forall w' pre post,
            trace w' = trace w ++ pre ++ nS ++ post -> halted nS ->
            Forall quiet (new_events w w') -> False).
  { intros w' pre post Hw (p & x & q & -> & _ & Hx & _) Hq.
    rewrite (new_events_app _ _ _ Hw) in Hq.
    rewrite !Forall_app, Forall_cons in Hq. destruct Hq as (_ & (_ & Hq & _) & _).
    exact (Hq Hx). }
  destruct r3 as [[|]|e]; [| |discriminate].
  2:{ apply wp_ret. intros _ Hq. exfalso.
      apply (Hfail w3 (e0 :: nA) [] ); [|exact H3|exact Hq].
      rewrite HnS, HnA, Ht1, app_nil_r, <- !app_assoc. reflexivity. }
  do 3 wp_step. eapply wp_mono; [|apply append_description_trace].
  intros r4 w4 Ht4. cbv beta in Ht4. destruct r4 as [[]|e]; [|discriminate].
  apply wp_bind. eapply wp_mono; [|apply updateStatus_sent].
  intros r5 w5 (nB & HnB & _ & HsB). destruct r5 as [b5|e]; [|discriminate].
  apply wp_ret. intros _ _. destruct HsB as (sid2 & Hc2 & HexB).
  apply Exists_exists in HexA as (e1 & [a1 [a2 ->]]%list_elem_of_split & He1).
  apply Exists_exists in HexB as (e2 & [c1 [c2 ->]]%list_elem_of_split & He2).
  exists sid1, sid2, (e0 :: a1), e1, (a2 ++ nS ++ c1), e2, c2.
  split; [exact Hc1|]. split; [exact Hc2|]. split; [|split; assumption].
  apply new_events_app. rewrite HnB, Ht4, HnS, HnA, Ht1.
  repeat (progress (rewrite <- ?app_assoc; cbn [app])). reflexivity.
Qed.

(** X3. When the branch for an expired reservation ends without raising
    and no shutdown or clean sub-command has failed, it has sent the
    request that writes Stopping and, after the teardown, the request
    that writes Created. *)
Theorem teardown_success_writes_created env config bookedReservation data headers w w' :
  shutdown_expired env config bookedReservation data headers w = (Ok tt, w') ->
  Forall quiet (new_events w w') ->
  sent_in_order config "stopping" "created" (new_events w w').
Proof.
  intros Hrun Hq.
  exact (wp_run _ _ _ _ _ (shutdown_expired_ordered env config bookedReservation data headers w)
           Hrun eq_refl Hq).
Qed.

Lemma teardown_success_writes_created_witness :
  sent_in_order demo_config "stopping" "created"
    (new_events (demo_world dag9_files)
       (snd (shutdown_expired (env_of 0 None answer_ok) demo_config demo_reservation
               demo_reservation (Some demo_headers) (demo_world dag9_files)))).
Proof.
  apply (teardown_success_writes_created (env_of 0 None answer_ok) demo_config
           demo_reservation demo_reservation (Some demo_headers)).
  - vm_compute. reflexivity.
  - vm_compute.
    repeat (constructor;
            [intros (? & ? & ? & ? & [H|H]);
             first [discriminate H | (injection H as <- <- <-; congruence)]|]).
    constructor.
Defined.

Ltac local_solve :=
  repeat first [ assumption | apply extends_refl | apply extends_files
               | apply extends_heap | apply extends_event; [exact I|] ].

Lemma isDagRunning_probe_local env vcdir u h v fq nodes st w0 w :
  extends local_event w0 w ->
  wp (isDagRunning_probe env vcdir u h v fq nodes st) (fun _ w' => extends local_event w0 w') w.
Proof. intros He. unfold isDagRunning_probe. wp_steps; local_solve. Qed.

Lemma isDagRunning_resource_local env ref line st w0 w :
  extends local_event w0 w ->
  wp (isDagRunning_resource env ref line st) (fun _ w' => extends local_event w0 w') w.
Proof.
  intros He. unfold isDagRunning_resource.
  destruct (py_match re_sub_token line) as [matched|]; [|apply wp_ret; auto].
  wp_steps.
  all: try solve [auto].
  apply wp_path_exists. intros cached Hc. cbv beta iota zeta.
  destruct cached; cbn [negb].
  - wp_steps.
    all: try (apply isDagRunning_probe_local).
    all: local_solve.
  - wp_steps.
    all: try (apply wp_isDagRunning_numcpus; intros [numcpus|e]; cbv beta iota zeta; wp_steps).
    all: try (apply wp_isDagRunning_cnodes;
              [intros cnodes cnodes_array Hfilled|intros e]; cbv beta iota zeta; wp_steps).
    all: try (apply isDagRunning_probe_local).
    all: local_solve.
Qed.

Lemma isDagRunning_local env dagDir ref w0 w :
  extends local_event w0 w ->
  wp (isDagRunning env dagDir ref) (fun _ w' => extends local_event w0 w') w.
Proof.
  intros He. unfold isDagRunning.
  apply wp_bind, wp_read_file; [intros subf _|intros _; auto].
  apply wp_bind.
  apply (wp_for_each (fun _ _ w1 => extends local_event w0 w1)).
  - auto.
  - intros done line rest st w1 _ He1.
    eapply wp_mono; [|apply isDagRunning_resource_local; eassumption].
    intros [[st'|v]|e] w' H; cbv beta iota; [exact H| |exact H].
    apply wp_ret. exact H.
  - intros st w1 He1. wp_steps; local_solve.
Qed.

Lemma reformat_attributes_calendar attrs : forall acc w0 w,
  extends calendar_event w0 w ->
  wp (reformat_attributes attrs acc) (fun _ w' => extends calendar_event w0 w') w.
Proof.
  induction attrs as [|attr attrs IH]; intros acc w0 w He; simpl.
  - apply wp_ret. exact He.
  - heap_steps; try apply IH; local_solve.
Qed.

Lemma reformat_resources_calendar resources : forall acc w0 w,
  extends calendar_event w0 w ->
  wp (reformat_resources resources acc) (fun _ w' => extends calendar_event w0 w') w.
Proof.
  induction resources as [|x resources IH]; intros acc w0 w He; simpl.
  - apply wp_ret. exact He.
  - heap_steps; try apply IH; local_solve.
Qed.

Lemma query_calendar env path method params headers w0 w :
  extends calendar_event w0 w ->
  wp (query env path method params headers) (fun _ w' => extends calendar_event w0 w') w.
Proof. intros He. unfold query. heap_steps; local_solve. Qed.

Ltac call_calendar lem w0 :=
  (eapply wp_mono; [|apply lem with (w0 := w0); local_solve]);
  cbv beta; intros [?|?] ? ?; heap_steps; try solve [local_solve].

Lemma queryBooked_calendar env config function method params headers w0 w :
  extends calendar_event w0 w ->
  wp (queryBooked env config function method params headers)
     (fun _ w' => extends calendar_event w0 w') w.
Proof.
  intros He. unfold queryBooked. heap_steps.
  all: try solve [local_solve].
  - call_calendar query_calendar w0.
  - call_calendar query_calendar w0. call_calendar query_calendar w0.
Qed.

Lemma updateStatus_calendar env config bR data status headers w0 w :
  extends calendar_event w0 w ->
  wp (updateStatus env config bR data status headers)
     (fun _ w' => extends calendar_event w0 w') w.
Proof.
  intros He. unfold updateStatus. heap_steps.
  all: try solve [local_solve].
  call_calendar reformat_attributes_calendar w0.
  call_calendar reformat_resources_calendar w0.
  call_calendar queryBooked_calendar w0.
Qed.

Lemma calendar_not_failed e : calendar_event e -> ~ probe_failed e.
Proof. intros H (at_ & dir & cmd & rc & _ & _ & ->). exact H. Qed.

Lemma request_not_local sid e : writes_status sid e -> ~ local_event e.
Proof. intros H Hl. exact (local_no_status e sid Hl H). Qed.

Lemma check_starting_spec env config bR data headers w root ref subf :
  config_lookup config "Server" "dagDir" = Some root ->
  getitem (heap w) data "referenceNumber" = Ok (VStr ref) ->
  files w !! Path.join (Path.join root ("dag-" +:+ ref)) "dag.sub" = Some subf ->
  wp (check_starting env config bR data headers)
     (fun _ w' =>
        exists nD nU, trace w' = trace w ++ nD ++ nU /\
          Forall local_event nD /\ Forall calendar_event nU /\
          Forall (status_event config "running") nU /\
          (nU <> [] ->
           Forall (fun e => ~ probe_failed e) nD /\
           Forall (fun vcdir => Exists (probe_ok vcdir) nD) (resources (Str.lines subf)))) w.
Proof.
  intros Hroot Href Hsub. unfold check_starting.
  apply wp_bind, wp_log. set (e0 := EvLog INFO _). set (w1 := add_event e0 w).
  unfold config_lookup in Hroot. unfold config_get.
  destruct (config !! "Server") as [options|]; [|discriminate].
  rewrite Hroot. apply wp_bind, wp_ret. apply wp_bind, wp_subscript.
  change (heap w1) with (heap w). rewrite Href. apply wp_bind, wp_lift. cbv beta iota zeta.
  assert (Hstop : forall nD w', trace w' = trace w ++ nD -> Forall local_event nD ->
            exists nD nU, trace w' = trace w ++ nD ++ nU /\
              Forall local_event nD /\ Forall calendar_event nU /\
              Forall (status_event config "running") nU /\
              (nU <> [] ->
               Forall (fun e => ~ probe_failed e) nD /\
               Forall (fun vcdir => Exists (probe_ok vcdir) nD) (resources (Str.lines subf)))).
  { intros nD w' Ht Hl. exists nD, []. rewrite app_nil_r. split; [exact Ht|].
    split; [exact Hl|]. split; [constructor|]. split; [constructor|]. intros H. destruct H; reflexivity. }
  apply wp_bind.
  eapply wp_mono;
    [|apply wp_conj;
      [apply (isDagRunning_ready env _ ref subf w1 Hsub)
      |apply (isDagRunning_local env _ ref w1 w1 (extends_refl _ _))]].
  intros r2 w2 [(new & Hn & Hready) (new' & Hn' & Hl)].
  assert (new' = new) as -> by (rewrite Hn in Hn'; apply app_inv_head in Hn'; congruence).
  assert (Ht2 : trace w2 = trace w ++ e0 :: new).
  { rewrite Hn. cbn [w1 trace add_event]. rewrite <- app_assoc. reflexivity. }
  assert (Hl2 : Forall local_event (e0 :: new)) by (constructor; [exact I|exact Hl]).
  destruct r2 as [info|e]; [|exact (Hstop _ _ Ht2 Hl2)].
  destruct info as [| |text]; try (apply wp_ret; exact (Hstop _ _ Ht2 Hl2)).
  destruct (negb (Str.is_empty text)); [|apply wp_ret; exact (Hstop _ _ Ht2 Hl2)].
  destruct (Hready text eq_refl) as [Hnf Hres].
  assert (Hup : Forall (fun e => ~ probe_failed e) (e0 :: new) /\
                Forall (fun vcdir => Exists (probe_ok vcdir) (e0 :: new))
                  (resources (Str.lines subf))).
  { split.
    - constructor; [|exact Hnf]. intros (at_ & dir & cmd & rc & _ & _ & [=]).
    - eapply Forall_impl; [exact Hres|]. intros vcdir [_ Hex]. apply Exists_cons_tl. exact Hex. }
  apply wp_bind, wp_log. set (e1 := EvLog INFO _).
  assert (Hgo : forall nU w', trace w' = trace w2 ++ e1 :: nU ->
            Forall calendar_event nU -> Forall (status_event config "running") nU ->
            exists nD nU, trace w' = trace w ++ nD ++ nU /\
              Forall local_event nD /\ Forall calendar_event nU /\
              Forall (status_event config "running") nU /\
              (nU <> [] ->
               Forall (fun e => ~ probe_failed e) nD /\
               Forall (fun vcdir => Exists (probe_ok vcdir) nD) (resources (Str.lines subf)))).
  { intros nU w' Ht Hc Hs. exists (e0 :: new), (e1 :: nU).
    split; [rewrite Ht, Ht2, <- app_assoc; reflexivity|]. split; [exact Hl2|].
    split; [constructor; [exact I|exact Hc]|].
    split; [constructor; [apply plain_status_event, plain_log|exact Hs]|].
    intros _. exact Hup. }
  apply wp_bind. eapply wp_mono; [|apply append_description_trace].
  intros r3 w3 Ht3. cbv beta in Ht3. cbn [trace add_event] in Ht3.
  destruct r3 as [[]|e]; [|apply (Hgo []); [exact Ht3|constructor|constructor]].
  apply wp_bind.
  eapply wp_mono;
    [|apply wp_conj;
      [apply updateStatus_sent
      |apply (updateStatus_calendar env config bR data "running" headers w3 w3 (extends_refl _ _))]].
  intros r4 w4 [(nU & HnU & Hs & _) (nU' & HnU' & Hc)].
  assert (nU' = nU) as -> by (rewrite HnU in HnU'; apply app_inv_head in HnU'; congruence).
  assert (Ht4 : trace w4 = trace w2 ++ e1 :: nU).
  { rewrite HnU, Ht3, <- app_assoc. reflexivity. }
  destruct r4; [apply wp_ret|]; exact (Hgo _ _ Ht4 Hc Hs).
Qed.

(** X4. In the branch of the main loop for a reservation that is
    starting, a request that writes a status writes Running, and it is
    sent only when every resource of dag.sub has answered its liveness
    probe in this run and no probe has failed. *)
Theorem running_written_only_when_ready env config bookedReservation data headers
    w r w' root ref subf :
  config_lookup config "Server" "dagDir" = Some root ->
  getitem (heap w) data "referenceNumber" = Ok (VStr ref) ->
  files w !! Path.join (Path.join root ("dag-" +:+ ref)) "dag.sub" = Some subf ->
  check_starting env config bookedReservation data headers w = (r, w') ->
  forall sid,
    Exists (writes_status sid) (new_events w w') ->
    config_lookup config "Status" "running" = Some sid /\
    Forall (fun e => ~ probe_failed e) (new_events w w') /\
    Forall (fun vcdir => Exists (probe_ok vcdir) (new_events w w'))
      (resources (Str.lines subf)).
Proof.
  intros Hroot Href Hsub Hrun sid Hex.
  pose proof (wp_run _ _ _ _ _
                (check_starting_spec env config bookedReservation data headers w
                   root ref subf Hroot Href Hsub) Hrun)
    as (nD & nU & Ht & Hl & Hc & Hs & Hup).
  rewrite (new_events_app _ _ _ Ht) in *.
  apply Exists_app in Hex as [Hex|Hex].
  { apply Exists_exists in Hex as (e & Hin & He). rewrite Forall_forall in Hl.
    destruct (request_not_local _ _ He (Hl e Hin)). }
  assert (Hne : nU <> []) by (intros ->; inversion Hex).
  destruct (Hup Hne) as [Hnf Hres]. split; [|split].
  - apply Exists_exists in Hex as (e & Hin & He). rewrite Forall_forall in Hs.
    exact (proj2 (Hs e Hin) sid He).
  - apply Forall_app_2; [exact Hnf|]. eapply Forall_impl; [exact Hc|]. apply calendar_not_failed.
  - eapply Forall_impl; [exact Hres|]. intros vcdir H. apply Exists_app. left. exact H.
Qed.

Lemma running_written_only_when_ready_witness :
  config_lookup demo_config "Status" "running" = Some "3" /\
  Forall (fun e => ~ probe_failed e)
    (new_events starting_world
       (snd (check_starting (env_of 0 (Some log_complete) answer_ok) demo_config
               starting_reservation starting_reservation (Some demo_headers)
               starting_world))) /\
  Forall (fun vcdir =>
            Exists (probe_ok vcdir)
              (new_events starting_world
                 (snd (check_starting (env_of 0 (Some log_complete) answer_ok) demo_config
                         starting_reservation starting_reservation (Some demo_headers)
                         starting_world))))
    (resources (Str.lines (" JOB VC1  /var/pcc/dag-7/vc1/vc1.sub" +:+ Str.nl))).
Proof.
  refine (running_written_only_when_ready (env_of 0 (Some log_complete) answer_ok)
            demo_config starting_reservation starting_reservation (Some demo_headers)
            starting_world _ _ "/var/pcc" "7" _ _ _ _ _ "3" _).
  - vm_compute. reflexivity.
  - vm_compute. reflexivity.
  - vm_compute. reflexivity.
  - apply surjective_pairing.
  - vm_compute. do 9 right. left. do 5 eexists. split; reflexivity.
Defined.

(** X5. In that branch, when a liveness probe has failed, nothing is sent
    to the calendar: the reservation keeps the status it has. *)
Theorem failed_probe_sends_nothing env config bookedReservation data headers
    w r w' root ref subf :
  config_lookup config "Server" "dagDir" = Some root ->
  getitem (heap w) data "referenceNumber" = Ok (VStr ref) ->
  files w !! Path.join (Path.join root ("dag-" +:+ ref)) "dag.sub" = Some subf ->
  check_starting env config bookedReservation data headers w = (r, w') ->
  Exists probe_failed (new_events w w') ->
  Forall local_event (new_events w w').
Proof.
  intros Hroot Href Hsub Hrun Hex.
  pose proof (wp_run _ _ _ _ _
                (check_starting_spec env config bookedReservation data headers w
                   root ref subf Hroot Href Hsub) Hrun)
    as (nD & nU & Ht & Hl & Hc & Hs & Hup).
  rewrite (new_events_app _ _ _ Ht) in *.
  destruct nU as [|e nU]; [rewrite app_nil_r; exact Hl|].
  destruct (Hup ltac:(discriminate)) as [Hnf _].
  apply Exists_app in Hex as [Hex|Hex]; apply Exists_exists in Hex as (x & Hin & Hx).
  - rewrite Forall_forall in Hnf. destruct (Hnf x Hin Hx).
  - rewrite Forall_forall in Hc. destruct (calendar_not_failed x (Hc x Hin) Hx).
Qed.

Lemma failed_probe_sends_nothing_witness :
  Forall local_event
    (new_events starting_world
       (snd (check_starting (env_of 1 (Some log_complete) answer_ok) demo_config
               starting_reservation starting_reservation (Some demo_headers)
               starting_world))).
Proof.
  refine (failed_probe_sends_nothing (env_of 1 (Some log_complete) answer_ok)
            demo_config starting_reservation starting_reservation (Some demo_headers)
            starting_world _ _ "/var/pcc" "7" _ _ _ _ _ _).
  - vm_compute. reflexivity.
  - vm_compute. reflexivity.
  - vm_compute. reflexivity.
  - apply surjective_pairing.
  - vm_compute. do 4 right. left.
    eexists Ping, _, _, 1. split; [left; reflexivity|split; [discriminate|reflexivity]].
Defined.

Lemma reformat_attributes_local attrs : forall acc w0 w,
  extends local_event w0 w ->
  wp (reformat_attributes attrs acc) (fun _ w' => extends local_event w0 w') w.
Proof.
  induction attrs as [|attr attrs IH]; intros acc w0 w He; simpl.
  - apply wp_ret. exact He.
  - heap_steps; try apply IH; local_solve.
Qed.

Lemma reformat_resources_local resources : forall acc w0 w,
  extends local_event w0 w ->
  wp (reformat_resources resources acc) (fun _ w' => extends local_event w0 w') w.
Proof.
  induction resources as [|x resources IH]; intros acc w0 w He; simpl.
  - apply wp_ret. exact He.
  - heap_steps; try apply IH; local_solve.
Qed.

Lemma updateStatus_unknown env config bR data status headers w :
  config_lookup config "Status" status = None ->
  wp (updateStatus env config bR data status headers)
     (fun r w' => (exists e, r = Raise e) /\ extends local_event w w') w.
Proof.
  intros Hc. unfold config_lookup in Hc. unfold updateStatus. heap_steps.
  all: try solve [split; [eexists; reflexivity|local_solve]].
  eapply wp_mono; [|apply reformat_attributes_local with (w0 := w); local_solve].
  cbv beta. intros [b|e] w1 He1; [|split; [eexists; reflexivity|exact He1]].
  heap_steps.
  all: try solve [split; [eexists; reflexivity|local_solve]].
  eapply wp_mono; [|apply reformat_resources_local with (w0 := w); local_solve].
  cbv beta. intros [b'|e] w2 He2; [|split; [eexists; reflexivity|exact He2]].
  heap_steps.
  all: try solve [split; [eexists; reflexivity|local_solve]].
  all: repeat match goal with
         | H : _ !! _ = _ |- _ => rewrite H in Hc
         end; congruence.
Qed.

(** X6. For a status name that the configuration has no id for,
    updateStatus raises, and it has sent nothing to the calendar. *)
Theorem unknown_status_sends_nothing env config bookedReservation data status headers
    w r w' :
  config_lookup config "Status" status = None ->
  updateStatus env config bookedReservation data status headers w = (r, w') ->
  (exists e, r = Raise e) /\ Forall local_event (new_events w w').
Proof.
  intros Hc Hrun.
  pose proof (wp_run _ _ _ _ _
                (updateStatus_unknown env config bookedReservation data status headers w Hc)
                Hrun) as [Hr He].
  split; [exact Hr|]. apply extends_new_events. exact He.
Qed.

Lemma unknown_status_sends_nothing_witness :
  (exists e,
     fst (updateStatus (env_of 0 None answer_ok) demo_config demo_reservation
            demo_reservation "paused" (Some demo_headers) (demo_world ∅)) = Raise e) /\
  Forall local_event
    (new_events (demo_world ∅)
       (snd (updateStatus (env_of 0 None answer_ok) demo_config demo_reservation
               demo_reservation "paused" (Some demo_headers) (demo_world ∅)))).
Proof.
  apply (unknown_status_sends_nothing (env_of 0 None answer_ok) demo_config
           demo_reservation demo_reservation "paused" (Some demo_headers) (demo_world ∅)).
  - vm_compute. reflexivity.
  - apply surjective_pairing.
Defined.

Lemma query_queried env path method params headers w :
  wp (query env path method params headers)
     (fun r w' => (r = Raise ValueError /\ w' = w /\
                   dumps_fuel (S (List.length (heap w))) (heap w) params = None) \/
                  queried env path method params headers w r w') w.
Proof.
  unfold wp, query, bind, dumps.
  destruct (dumps_fuel _ _ _) as [body|] eqn:E; [right|left; auto].
  exists body. split; [exact E|]. cbv zeta.
  cbn [get_trace emit raise loads fst snd trace add_event].
  destruct (status _ =? 200) eqn:Es; cbn [negb].
  - apply Z.eqb_eq in Es. rewrite Es. split.
    + destruct (body_json _); [unfold loads; destruct (load _ _)|]; reflexivity.
    + destruct (body_json _) as [j|]; [|split; reflexivity].
      unfold loads. destruct (load j _) as [v h] eqn:El. exists v. split; reflexivity.
  - split; [reflexivity|]. split; [reflexivity|].
    unfold raise. cbn [snd trace add_event].
    rewrite <- !app_assoc. reflexivity.
Qed.

Lemma queryBooked_session env config function method params hs w :
  wp (queryBooked env config function method params (Some hs))
     (fun r w' =>
        forall hs' v, r = Ok (hs', v) ->
          hs' = hs /\
          exists baseUrl body answer,
            config_lookup config "Server" "baseUrl" = Some baseUrl /\
            fst (dumps params w) = Ok body /\
            new_events w w' = [EvHttp method (baseUrl +:+ function) body hs 200] /\
            body_json (http env (trace w) method (baseUrl +:+ function) body hs) = Some answer /\
            load answer (heap w) = (v, heap w')) w.
Proof.
  unfold queryBooked. heap_steps.
  all: try (intros ? ? [=]).
  eapply wp_mono; [|apply query_queried].
  intros r w' [(-> & _)|(body & Hb & Hq)]; [intros ? ? [=]|].
  cbv zeta in Hq. destruct (status _ =? 200) eqn:Es.
  2:{ destruct Hq as (-> & _). intros ? ? [=]. }
  destruct Hq as [Hn Hj]. destruct (body_json _) as [j|] eqn:Ej.
  2:{ destruct Hj as (-> & _). intros ? ? [=]. }
  destruct Hj as (v & -> & Hl). apply wp_ret. intros hs' v' [= <- <-].
  split; [reflexivity|]. eexists _, body, j.
  split; [unfold config_lookup;
          repeat match goal with H : _ !! _ = Some _ |- _ => rewrite H end; reflexivity|].
  split; [unfold dumps; rewrite Hb; reflexivity|].
  split; [apply new_events_app; exact Hn|]. auto.
Qed.

(** X7. With the headers of a session, queryBooked does not authenticate:
    when it returns, it has sent one request, to the function under the
    base URL, with these headers and the document of the parameters as its
    body; the answer was 200, and it returns the headers and the answer,
    loaded. *)
Theorem queryBooked_reuses_session env config function method params hs w hs' v w' :
  queryBooked env config function method params (Some hs) w = (Ok (hs', v), w') ->
  hs' = hs /\
  exists baseUrl body answer,
    config_lookup config "Server" "baseUrl" = Some baseUrl /\
    fst (dumps params w) = Ok body /\
    new_events w w' = [EvHttp method (baseUrl +:+ function) body hs 200] /\
    body_json (http env (trace w) method (baseUrl +:+ function) body hs) = Some answer /\
    load answer (heap w) = (v, heap w').
Proof.
  intros Hrun.
  exact (wp_run _ _ _ _ _ (queryBooked_session env config function method params hs w)
           Hrun hs' v eq_refl).
Qed.

Lemma queryBooked_reuses_session_witness :
  demo_headers = demo_headers /\
  exists baseUrl body answer,
    config_lookup demo_config "Server" "baseUrl" = Some baseUrl /\
    fst (dumps VNone (demo_world ∅)) = Ok body /\
    new_events (demo_world ∅)
      (snd (queryBooked (env_of 0 None answer_ok) demo_config "Reservations/9" "GET"
              VNone (Some demo_headers) (demo_world ∅)))
    = [EvHttp "GET" (baseUrl +:+ "Reservations/9") body demo_headers 200] /\
    body_json (http (env_of 0 None answer_ok) (trace (demo_world ∅)) "GET"
                 (baseUrl +:+ "Reservations/9") body demo_headers) = Some answer /\
    load answer (heap (demo_world ∅))
    = (VRef 6,
       heap (snd (queryBooked (env_of 0 None answer_ok) demo_config "Reservations/9"
                    "GET" VNone (Some demo_headers) (demo_world ∅)))).
Proof.
  apply (queryBooked_reuses_session (env_of 0 None answer_ok) demo_config
           "Reservations/9" "GET" VNone demo_headers (demo_world ∅)).
  vm_compute. reflexivity.
Defined.

Lemma credentials_document n h username password body :
  dumps_fuel (S n)
    (h ++ [ODict (<["username" := VStr username]> (<["password" := VStr password]> ∅))])
    (VRef (List.length h)) = Some body ->
  body = JObj [("username", JStr username); ("password", JStr password)].
Proof.
  cbn [dumps_fuel]. rewrite list_lookup_middle by reflexivity.
  rewrite credentials_fields.
  destruct n; intros [= <-]; reflexivity.
Qed.

Lemma queryBooked_login env config function method params body w :
  fst (dumps params w) = Ok body ->
  wp (queryBooked env config function method params None)
     (fun r w' =>
        forall hs' v, r = Ok (hs', v) ->
          authenticated env config function method body w w' hs' v) w.
Proof.
  intros Hdoc. unfold dumps in Hdoc.
  destruct (dumps_fuel _ _ params) as [j|] eqn:Edoc; [|discriminate].
  simpl in Hdoc. injection Hdoc as ->.
  unfold queryBooked. heap_steps.
  all: try (intros ? ? [=]).
  eapply wp_mono; [|apply query_queried].
  intros r w1 [(-> & _)|(body0 & Hb & Hq)]; [intros ? ? [=]|].
  apply credentials_document in Hb. subst body0.
  cbv zeta in Hq. cbn [trace set_heap] in Hq. destruct (status _ =? 200) eqn:Es.
  2:{ destruct Hq as (-> & _). intros ? ? [=]. }
  destruct Hq as [Hn Hj]. destruct (body_json _) as [session|] eqn:Ej.
  2:{ destruct Hj as (-> & _). intros ? ? [=]. }
  destruct Hj as (sv & -> & Hl).
  heap_steps.
  all: try (intros ? ? [=]).
  eapply wp_mono; [|apply query_queried].
  intros r w2 [(-> & _)|(body2 & Hb & Hq)]; [intros ? ? [=]|].
  cbv zeta in Hq.
  match type of Hq with context [if ?c then _ else _] => destruct c eqn:Es2 end.
  2:{ destruct Hq as (-> & _). intros ? ? [=]. }
  destruct Hq as [Hn2 Hj].
  match type of Hj with context [match ?c with Some _ => _ | None => _ end] =>
    destruct c as [j|] eqn:Ej2 end.
  2:{ destruct Hj as (-> & _). intros ? ? [=]. }
  destruct Hj as (v & -> & Hl2). apply wp_ret. intros hs' v' [= <- <-].
  cbn [heap set_heap] in Hl.
  assert (Hext : extended (heap w) (heap w1)).
  { eapply extended_trans; [apply extended_snoc|eapply extended_load; exact Hl]. }
  assert (body2 = body) as ->.
  { pose proof (dumps_fuel_stable _ _ _ _ Edoc (S (List.length (heap w1))) (heap w1)) as Hs.
    rewrite Hs in Hb; [congruence| |exact Hext].
    apply extended_length in Hext. lia. }
  rewrite Hn in Es2, Ej2.
  exists s0, s1, s2, session, sv, (heap w1), a, a0, j.
  split; [unfold config_lookup; rewrite Heqo1; exact Heqo2|].
  split; [unfold config_lookup; rewrite Heqo1; exact Heqo3|].
  split; [unfold config_lookup; rewrite Heqo; exact Heqo4|].
  cbv zeta.
  split; [apply new_events_app; rewrite Hn2, Hn, <- app_assoc; reflexivity|].
  split; [exact Ej|]. split; [exact Hl|]. split; [exact Heqr|]. split; [exact Heqr0|].
  split; [reflexivity|]. split; [exact Ej2|exact Hl2].
Qed.

(** X8. Without headers, queryBooked logs in first: when it returns, it
    has sent two requests, both answered 200: a POST of the user name and
    the password of the configuration to Authentication/Authenticate, with
    no headers, and then the request itself, its body the document of the
    parameters, its headers session['sessionToken'] and session['userId']
    of the answer to the login as json.loads has loaded it; it returns
    these headers and the answer to the request, loaded. *)
Theorem queryBooked_authenticates env config function method params body w hs' v w' :
  fst (dumps params w) = Ok body ->
  queryBooked env config function method params None w = (Ok (hs', v), w') ->
  authenticated env config function method body w w' hs' v.
Proof.
  intros Hdoc Hrun.
  exact (wp_run _ _ _ _ _
           (queryBooked_login env config function method params body w Hdoc)
           Hrun hs' v eq_refl).
Qed.

Lemma queryBooked_authenticates_witness :
  authenticated (env_of 0 None answer_session) login_config "Reservations/9" "GET" JNull
    (demo_world ∅)
    (snd (queryBooked (env_of 0 None answer_session) login_config "Reservations/9" "GET"
            VNone None (demo_world ∅)))
    [("X-Booked-SessionToken", VStr "token"); ("X-Booked-UserId", VInt 5)] (VRef 8).
Proof.
  apply (queryBooked_authenticates (env_of 0 None answer_session) login_config
           "Reservations/9" "GET" VNone JNull (demo_world ∅)).
  - vm_compute. reflexivity.
  - vm_compute. reflexivity.
Defined.

(** X9. A request whose answer has another status than 200 ends the run:
    query writes the reason and the body of the answer to the standard
    error and raises SystemExit(1); the body of the answer is not parsed
    and no object is made. *)
Theorem query_refused env path method params headers w r w' body :
  query env path method params headers w = (r, w') ->
  fst (dumps params w) = Ok body ->
  status (http env (trace w) method path body headers) <> 200 ->
  r = Raise (SystemExit 1) /\ heap w' = heap w /\
  new_events w w' =
    [EvHttp method path body headers (status (http env (trace w) method path body headers));
     EvStderr ("Problem querying " +:+ path +:+ ": " +:+
               reason (http env (trace w) method path body headers));
     EvStderr (body_text (http env (trace w) method path body headers))].
Proof.
  intros Hrun Hdoc Hst.
  pose proof (wp_run _ _ _ _ _ (query_queried env path method params headers w) Hrun)
    as [(_ & _ & Hnone)|(body' & Hb & Hq)].
  - unfold dumps in Hdoc. rewrite Hnone in Hdoc. discriminate Hdoc.
  - assert (body' = body) as ->.
    { unfold dumps in Hdoc. rewrite Hb in Hdoc. cbn in Hdoc. congruence. }
    cbv zeta in Hq. apply Z.eqb_neq in Hst. rewrite Hst in Hq.
    destruct Hq as (-> & Hh & Ht). split; [reflexivity|]. split; [exact Hh|].
    apply new_events_app. exact Ht.
Qed.

Lemma query_refused_witness :
  fst (query env_refusing "/booked/Web/Services/index.php/Reservations/9" "GET" VNone
         demo_headers (demo_world ∅)) = Raise (SystemExit 1) /\
  heap (snd (query env_refusing "/booked/Web/Services/index.php/Reservations/9" "GET"
               VNone demo_headers (demo_world ∅))) = heap (demo_world ∅) /\
  new_events (demo_world ∅)
    (snd (query env_refusing "/booked/Web/Services/index.php/Reservations/9" "GET"
            VNone demo_headers (demo_world ∅)))
  = [EvHttp "GET" "/booked/Web/Services/index.php/Reservations/9" JNull demo_headers 401;
     EvStderr ("Problem querying /booked/Web/Services/index.php/Reservations/9"
               +:+ ": " +:+ "Unauthorized");
     EvStderr "You must be authenticated"].
Proof.
  apply (query_refused env_refusing "/booked/Web/Services/index.php/Reservations/9" "GET"
           VNone demo_headers (demo_world ∅) _ _ JNull).
  - apply surjective_pairing.
  - vm_compute. reflexivity.
  - vm_compute. discriminate.
Defined.

Lemma collect_reservations_last entries : forall m0 w,
  wp (collect_reservations entries m0)
     (fun r w' =>
        match r with
        | Ok m =>
            (forall key,
               Forall (fun e => reference_key (heap w) e <> Some key) entries ->
               m !! key = m0 !! key) /\
            (forall done e rest key,
               entries = done ++ e :: rest ->
               reference_key (heap w) e = Some key ->
               Forall (fun e' => reference_key (heap w) e' <> Some key) rest ->
               m !! key = Some e)
        | Raise _ => True
        end) w.
Proof.
  induction entries as [|x entries IH]; intros m0 w.
  - apply wp_ret. split; [reflexivity|]. intros [|] ? ? ? [=].
  - simpl. apply wp_bind, wp_subscript.
    destruct (getitem (heap w) x "referenceNumber") as [ref|ex] eqn:Eg; [|exact I].
    apply wp_bind, wp_lift.
    destruct (dict_key ref) as [k|ex] eqn:Ek; [|exact I].
    assert (Hk : reference_key (heap w) x = Some k).
    { unfold reference_key. rewrite Eg, Ek. reflexivity. }
    eapply wp_mono; [|apply IH].
    intros [m|ex] w' H; [|exact I]. destruct H as [H1 H2]. split.
    + intros key HF. apply Forall_cons in HF as [Hx HF].
      rewrite (H1 key HF). apply lookup_insert_ne. congruence.
    + intros [|y done] e rest key E He HF; injection E as -> ->.
      * rewrite (H1 key HF). assert (k = key) as -> by congruence.
        apply lookup_insert_eq.
      * eapply H2; [reflexivity|exact He|exact HF].
Qed.

(** X10. Of the entries of the calendar's list that share a reference
    number, the main loop keeps the last: the dictionary has, under the
    reference number of an entry that no later entry shares, that entry. *)
Theorem last_entry_is_kept entries w m w' done e rest key :
  collect_reservations entries ∅ w = (Ok m, w') ->
  entries = done ++ e :: rest ->
  reference_key (heap w) e = Some key ->
  Forall (fun e' => reference_key (heap w) e' <> Some key) rest ->
  m !! key = Some e.
Proof.
  intros Hrun E He HF.
  pose proof (wp_run _ _ _ _ _ (collect_reservations_last entries ∅ w) Hrun) as [_ H].
  exact (H done e rest key E He HF).
Qed.

Lemma last_entry_is_kept_witness :
  listed_collected !! VStr "7" = Some (VRef 1).
Proof.
  apply (last_entry_is_kept listed_entries listed_world listed_collected listed_world
           [VRef 0] (VRef 1) [VRef 2] (VStr "7")).
  - vm_compute. reflexivity.
  - reflexivity.
  - vm_compute. reflexivity.
  - constructor; [vm_compute; discriminate|constructor].
Defined.

Lemma convert_attributes_spec attrs : forall d0 w,
  wp (convert_attributes attrs d0)
     (fun r w' =>
        w' = w /\
        match r with
        | Ok d =>
            (forall key,
               Forall (fun a => label_key (heap w) a <> Some key) attrs ->
               d !! key = d0 !! key) /\
            (forall done a rest key,
               attrs = done ++ a :: rest ->
               label_key (heap w) a = Some key ->
               Forall (fun a' => label_key (heap w) a' <> Some key) rest ->
               exists value, getitem (heap w) a "value" = Ok value /\ d !! key = Some value)
        | Raise _ => True
        end) w.
Proof.
  induction attrs as [|x attrs IH]; intros d0 w.
  - apply wp_ret. split; [reflexivity|]. split; [reflexivity|]. intros [|] ? ? ? [=].
  - simpl. apply wp_bind, wp_subscript.
    destruct (getitem (heap w) x "value") as [value|ex] eqn:Ev; [|split; [reflexivity|exact I]].
    apply wp_bind, wp_subscript.
    destruct (getitem (heap w) x "label") as [label|ex] eqn:El; [|split; [reflexivity|exact I]].
    apply wp_bind, wp_lift.
    destruct (dict_key label) as [k|ex] eqn:Ek; [|split; [reflexivity|exact I]].
    assert (Hk : label_key (heap w) x = Some k).
    { unfold label_key. rewrite El, Ek. reflexivity. }
    eapply wp_mono; [|apply IH].
    intros [d|ex] w' [-> H]; (split; [reflexivity|]); [|exact I].
    destruct H as [H1 H2]. split.
    + intros key HF. apply Forall_cons in HF as [Hx HF].
      rewrite (H1 key HF). apply lookup_insert_ne. congruence.
    + intros [|y done] a rest key E Ha HF; injection E as -> ->.
      * exists value. split; [exact Ev|]. rewrite (H1 key HF).
        assert (k = key) as -> by congruence. apply lookup_insert_eq.
      * eapply H2; [reflexivity|exact Ha|exact HF].
Qed.

(** X11. ConvertAttributesToDict files the value of every attribute under
    its label: the dictionary has, under the label of an attribute that
    no later attribute shares, the value of that attribute, and nothing
    under a label that no attribute has; the world is as it was. *)
Theorem attributes_by_label attrs w d w' l :
  convertAttributesToDict attrs w = (Ok d, w') ->
  items (heap w) attrs = Ok l ->
  w' = w /\
  (forall key, Forall (fun a => label_key (heap w) a <> Some key) l -> d !! key = None) /\
  (forall done a rest key,
     l = done ++ a :: rest ->
     label_key (heap w) a = Some key ->
     Forall (fun a' => label_key (heap w) a' <> Some key) rest ->
     exists value, getitem (heap w) a "value" = Ok value /\ d !! key = Some value).
Proof.
  intros Hrun Hl. unfold convertAttributesToDict, bind, iterate in Hrun.
  rewrite Hl in Hrun.
  pose proof (wp_run _ _ _ _ _ (convert_attributes_spec l ∅ w) Hrun) as (-> & H1 & H2).
  split; [reflexivity|]. split; [|exact H2].
  intros key HF. rewrite (H1 key HF). apply lookup_empty.
Qed.

Lemma attributes_by_label_witness :
  exists value,
    getitem starting_heap (VRef 1) "value" = Ok value /\
    starting_attributes !! VStr "CPUs" = Some value.
Proof.
  refine (proj2 (proj2 (attributes_by_label (VRef 2) starting_world starting_attributes
                          starting_world [VRef 0; VRef 1] _ _))
            [VRef 0] (VRef 1) [] (VStr "CPUs") _ _ _).
  - vm_compute. reflexivity.
  - vm_compute. reflexivity.
  - reflexivity.
  - vm_compute. reflexivity.
  - constructor.
Defined.

Lemma convert_attributes_raises done : forall a rest d0 w e,
  Forall (fun x => is_Some (label_key (heap w) x) /\
                   exists value, getitem (heap w) x "value" = Ok value) done ->
  getitem (heap w) a "value" = Raise e ->
  convert_attributes (done ++ a :: rest) d0 w = (Raise e, w).
Proof.
  induction done as [|x done IH]; intros a rest d0 w e HF Ha.
  - simpl. unfold bind, subscript. rewrite Ha. reflexivity.
  - apply Forall_cons in HF as [[[key Hk] [value Hv]] HF].
    simpl. unfold bind at 1, subscript at 1. rewrite Hv.
    unfold label_key in Hk.
    unfold bind at 1, subscript at 1.
    destruct (getitem (heap w) x "label") as [label|]; [|discriminate].
    unfold bind at 1, lift.
    destruct (dict_key label) as [k|]; [|discriminate].
    apply IH; assumption.
Qed.

(** X12. The value of an attribute is read before its label:
    convertAttributesToDict raises, at the first attribute whose value
    cannot be read, what reading the value raises, KeyError('value') for
    a dictionary without the key, whatever its label is; the world is as
    it was. *)
Theorem attribute_without_value_raises attrs w done a rest e :
  items (heap w) attrs = Ok (done ++ a :: rest) ->
  Forall (fun x => is_Some (label_key (heap w) x) /\
                   exists value, getitem (heap w) x "value" = Ok value) done ->
  getitem (heap w) a "value" = Raise e ->
  convertAttributesToDict attrs w = (Raise e, w).
Proof.
  intros Hl HF Ha. unfold convertAttributesToDict, bind, iterate. rewrite Hl.
  apply convert_attributes_raises; assumption.
Qed.

Lemma attribute_without_value_raises_witness :
  convertAttributesToDict (VRef 2) (demo_world ∅) = (Raise (KeyError "value"), demo_world ∅).
Proof.
  apply (attribute_without_value_raises (VRef 2) (demo_world ∅) [VRef 0] (VRef 1) []).
  - vm_compute. reflexivity.
  - constructor; [|constructor].
    split; [eexists; vm_compute; reflexivity|eexists; vm_compute; reflexivity].
  - vm_compute. reflexivity.
Defined.

(** X13. When isDagRunning has read the compute nodes of a log, by the
    cnodes= marker or by the line of the allocated cluster, the text it
    has found is not empty: the test "if not cnodes" that follows in the
    script, with its message and its continue, is never taken; reading
    leaves the world as it was. *)
Theorem found_nodes_are_never_empty logfile w cnodes cnodes_array w' :
  isDagRunning_cnodes logfile w = (Ok (cnodes, cnodes_array), w') ->
  cnodes <> EmptyString /\ w' = w.
Proof.
  intros Hrun.
  refine (wp_run _ _ _ _ _
            (wp_isDagRunning_cnodes logfile
               (fun r w1 => match r with
                            | Ok (c, _) => c <> EmptyString /\ w1 = w
                            | Raise _ => True
                            end) w _ _) Hrun).
  - intros c arr Hc. split; [exact Hc|reflexivity].
  - intros e. exact I.
Qed.

Lemma found_nodes_are_never_empty_witness :
  "node1" +:+ Str.nl +:+ "node2" <> EmptyString /\
  world_of dag7_logged = world_of dag7_logged.
Proof.
  apply (found_nodes_are_never_empty "/var/pcc/dag-7/vc1/pragma_boot.log"
           (world_of dag7_logged) _ ["node1"; "node2"]).
  vm_compute. reflexivity.
Defined.

Lemma boots_app l1 l2 : boots (l1 ++ l2) = boots l1 ++ boots l2.
Proof. apply omap_app. Qed.

Lemma wp_boot_args_v2 vmf : forall args (Q : res (gmap string string) -> World -> Prop) w,
  (forall r, Q r w) -> wp (boot_args_v2 vmf args) Q w.
Proof.
  induction vmf as [|line vmf IH]; intros args Q w H; simpl.
  - apply wp_ret, H.
  - destruct (py_match re_vmconf_v2 line) as [matched|]; [|apply wp_raise, H].
    destruct (group matched 0), (group matched 1); try (apply wp_raise, H).
    apply IH, H.
Qed.

Lemma wp_arg args k (Q : res string -> World -> Prop) w :
  (forall r, Q r w) -> wp (arg args k) Q w.
Proof. intros H. unfold arg. destruct (args !! k); [apply wp_ret|apply wp_raise]; apply H. Qed.

Ltac boot_step :=
  lazymatch goal with
  | |- wp (boot_args_v2 _ _) _ _ => apply wp_boot_args_v2; intros [?|?]
  | |- wp (arg _ _) _ _ => apply wp_arg; intros [?|?]
  | |- _ => wp_step
  end; cbv beta iota zeta.

Lemma startDagPB_resource_boots env dagDir ref line w :
  wp (startDagPB_resource env dagDir ref line tt)
     (fun r w' =>
        exists new, trace w' = trace w ++ new /\
          match r with
          | Ok (Next _) => boots new = resources [line]
          | Ok (Return _) => False
          | Raise _ => True
          end) w.
Proof.
  unfold startDagPB_resource.
  repeat boot_step.
  all: eexists; (split; [repeat first [apply since_refl | apply since_files | apply since_event]|]).
  all: try exact I.
  all: try reflexivity.
  all: try just_written.
  all: unfold resources; cbn [omap list_omap]; unfold sub_token;
    repeat match goal with H : py_match _ _ = _ |- _ => rewrite H end;
    try match goal with
        | H : match group ?c 0 with Some _ => _ | None => _ end = Ok _ |- _ =>
            destruct (group c 0); [injection H as ->|discriminate H]
        end;
    rewrite ?boots_app; cbn; reflexivity.
Qed.

Lemma startDagPB_boots env dagDir ref subf w :
  files w !! Path.join dagDir "dag.sub" = Some subf ->
  wp (startDagPB env dagDir ref)
     (fun r w' =>
        match r with
        | Ok b =>
            b = true /\
            exists pre,
              trace w' = trace w ++ pre ++ [EvLog DEBUG "  Sleeping 10 seconds"; EvSleep 10] /\
              boots pre = resources (Str.lines subf)
        | Raise _ => True
        end) w.
Proof.
  intros Hsub. unfold startDagPB.
  apply wp_bind, wp_read_file; [intros c Hc|intros _; exact I].
  assert (c = subf) as -> by congruence.
  apply wp_bind.
  apply (wp_for_each (fun done _ w1 =>
           exists n, trace w1 = trace w ++ n /\ boots n = resources done)).
  - exists []. split; [apply since_refl|reflexivity].
  - intros done line rest [] w1 _ (n & Hn & Hb).
    eapply wp_mono; [|apply startDagPB_resource_boots].
    intros [[[]|b]|e] w' (new & Ht & H); cbv beta iota; [|destruct H|exact I].
    exists (n ++ new). split; [rewrite Ht, Hn, app_assoc; reflexivity|].
    rewrite boots_app, Hb, H. unfold resources. symmetry. apply omap_app.
  - intros [] w1 (n & Hn & Hb). wp_steps. split; [reflexivity|].
    exists n. split; [|exact Hb].
    cbn [trace add_event]. rewrite Hn, <- !app_assoc. reflexivity.
Qed.

(** X14. StartDagPB returns only True, and only after it has run one boot
    command for every resource that dag.sub names, in the order of the
    file, and has then announced and taken its pause of 10 seconds. *)
Theorem startDagPB_boots_every_resource env dagDir refNumber subf w b w' :
  files w !! Path.join dagDir "dag.sub" = Some subf ->
  startDagPB env dagDir refNumber w = (Ok b, w') ->
  b = true /\
  exists pre,
    new_events w w' = pre ++ [EvLog DEBUG "  Sleeping 10 seconds"; EvSleep 10] /\
    boots pre = resources (Str.lines subf).
Proof.
  intros Hsub Hrun.
  pose proof (wp_run _ _ _ _ _ (startDagPB_boots env dagDir refNumber subf w Hsub) Hrun)
    as (-> & pre & Ht & Hb).
  split; [reflexivity|]. exists pre. split; [|exact Hb].
  apply new_events_app. exact Ht.
Qed.

Lemma startDagPB_boots_every_resource_witness :
  true = true /\
  exists pre,
    new_events (world_of (dag7_files "1"))
      (snd (startDagPB (env_of 0 None answer_ok) dag7 "7" (world_of (dag7_files "1"))))
    = pre ++ [EvLog DEBUG "  Sleeping 10 seconds"; EvSleep 10] /\
    boots pre = resources (Str.lines (" JOB VC1  /var/pcc/dag-7/vc1/vc1.sub" +:+ Str.nl)).
Proof.
  apply (startDagPB_boots_every_resource (env_of 0 None answer_ok) dag7 "7").
  - vm_compute. reflexivity.
  - vm_compute. reflexivity.
Defined.

Lemma list_max_le_each l n : (list_max l <= n)%nat -> Forall (fun x => (x <= n)%nat) l.
Proof. intros H. apply list_max_le in H. apply Forall_forall. rewrite List.Forall_forall in H. intros x Hx. apply H. apply list_elem_of_In. exact Hx. Qed.

(** With fuel for its depth, json.dumps writes the document a value
    denotes. *)
Lemma dumps_enough h P j : forall v,
  denotes h P v j -> forall n, (depth j <= n)%nat -> dumps_fuel n h v = Some j.
Proof.
  induction j as [| | | |items IH|members IH] using json_ind';
    intros v Hd n Hn;
    inversion Hd as [| | | |l xs items' HP Hl HF|l d members' HP Hl HF]; subst;
    try (destruct n; reflexivity).
  - destruct n as [|n]; [simpl in Hn; lia|]. simpl in Hn. apply le_S_n in Hn.
    apply list_max_le_each in Hn. simpl. rewrite Hl.
    assert (Hm : mapM (dumps_fuel n h) xs = Some items).
    { apply mapM_Some. clear Hl Hd. revert xs HF Hn.
      induction IH as [|i items Hi _ IHl]; intros xs HF Hn;
        inversion HF; subst; [constructor|].
      rewrite fmap_cons in Hn. apply Forall_cons in Hn as [Hn1 Hn2].
      constructor; [apply Hi; assumption|apply IHl; assumption]. }
    rewrite Hm. reflexivity.
  - destruct n as [|n]; [simpl in Hn; lia|]. simpl in Hn. apply le_S_n in Hn.
    apply list_max_le_each in Hn. simpl. rewrite Hl.
    assert (Hm : mapM (fun kv => pair (fst kv) <$> dumps_fuel n h (snd kv)) (map_to_list d)
                 = Some members).
    { apply mapM_Some. clear Hl Hd. revert HF Hn. generalize (map_to_list d).
      induction IH as [|[k i] members Hi _ IHl]; intros xs HF Hn;
        inversion HF as [|x ? ? ? Hx HF']; subst; [constructor|].
      rewrite fmap_cons in Hn. apply Forall_cons in Hn as [Hn1 Hn2].
      constructor; [|apply IHl; assumption].
      destruct Hx as [Hk Hv]. simpl in *. rewrite (Hi _ Hv n Hn1). simpl.
      rewrite Hk. reflexivity. }
    rewrite Hm. reflexivity.
Qed.

Lemma load_items_grow (D : json -> nat) items :
  Forall (fun i => forall h, (D i <= List.length (snd (load i h)) - List.length h)%nat) items ->
  forall acc,
    (list_max (map D items)
     <= List.length (snd (fold_left (load_item load) items acc)) - List.length (snd acc))%nat.
Proof.
  induction 1 as [|i items Hi _ IH]; intros acc; simpl; [lia|].
  specialize (IH (load_item load acc i)). specialize (Hi (snd acc)).
  pose proof (load_items_extended items
                (proj2 (Forall_forall _ _) (fun i _ => load_extended i))
                (load_item load acc i)) as He.
  apply extended_length in He.
  pose proof (extended_length _ _ (load_extended i (snd acc))) as He'.
  unfold load_item in *. destruct (load i (snd acc)) as [x h1]. simpl in *. lia.
Qed.

Lemma load_members_grow (D : json -> nat) (members : list (string * json)) :
  Forall (fun mem => forall h,
            (D (snd mem) <= List.length (snd (load (snd mem) h)) - List.length h)%nat) members ->
  forall acc,
    (list_max (map (fun mem => D (snd mem)) members)
     <= List.length (snd (fold_left (load_member load) members acc)) - List.length (snd acc))%nat.
Proof.
  induction 1 as [|i members Hi _ IH]; intros acc; simpl; [lia|].
  specialize (IH (load_member load acc i)). specialize (Hi (snd acc)).
  pose proof (load_members_extended members
                (proj2 (Forall_forall _ _) (fun i _ => load_extended (snd i)))
                (load_member load acc i)) as He.
  apply extended_length in He.
  pose proof (extended_length _ _ (load_extended (snd i) (snd acc))) as He'.
  unfold load_member in *. destruct (load (snd i) (snd acc)) as [x h1]. simpl in *. lia.
Qed.

(** json.loads makes at least as many objects as the document is deep. *)
Lemma load_depth j : forall h,
  (depth j <= List.length (snd (load j h)) - List.length h)%nat.
Proof.
  induction j as [| | | |items IH|members IH] using json_ind'; intros h;
    try (simpl; lia).
  - pose proof (load_items_grow depth items IH ([], h)) as H.
    pose proof (extended_length _ _ (load_items_extended items
                  (proj2 (Forall_forall _ _) (fun i _ => load_extended i)) ([], h))) as He.
    simpl in *.
    destruct (fold_left _ items _) as [xs h1]. simpl in *. rewrite length_app. simpl. lia.
  - pose proof (load_members_grow depth members IH (∅, h)) as H.
    pose proof (extended_length _ _ (load_members_extended members
                  (proj2 (Forall_forall _ _) (fun i _ => load_extended (snd i))) (∅, h))) as He.
    simpl in *.
    destruct (fold_left _ members _) as [d h1]. simpl in *. rewrite length_app. simpl. lia.
Qed.

(** X15. Json.loads(json.dumps(data)), the copy that updateStatus works
    on, is a copy: it is made of new objects only, the objects that were
    there are as they were, and its document is the document of the
    data. *)
Theorem copy_is_a_copy data w doc v w1 :
  fst (dumps data w) = Ok doc ->
  loads doc w = (Ok v, w1) ->
  extended (heap w) (heap w1) /\
  denotes (heap w1) (between (List.length (heap w)) (List.length (heap w1))) v doc /\
  fst (dumps v w1) = Ok doc /\
  fst (dumps data w1) = Ok doc.
Proof.
  intros Hdoc Hloads. unfold loads in Hloads.
  destruct (load doc (heap w)) as [v' h'] eqn:Hload. injection Hloads as <- <-.
  cbn [heap set_heap].
  unfold dumps in Hdoc. destruct (dumps_fuel _ _ data) as [j|] eqn:E; [|discriminate].
  simpl in Hdoc. injection Hdoc as ->.
  assert (Hcan : canonical doc) by (eapply dumps_canonical; exact E).
  pose proof (canonical_loads_well doc Hcan _ _ _ Hload) as Hden.
  pose proof (extended_load _ _ _ _ Hload) as Hext.
  split; [exact Hext|]. split; [exact Hden|]. split.
  - unfold dumps. cbn [heap set_heap].
    rewrite (dumps_enough _ _ _ _ Hden (S (List.length h'))); [reflexivity|].
    pose proof (load_depth doc (heap w)) as Hd. rewrite Hload in Hd. simpl in Hd. lia.
  - unfold dumps. cbn [heap set_heap].
    rewrite (dumps_fuel_stable _ _ _ _ E (S (List.length h')) h'); [reflexivity| |exact Hext].
    apply extended_length in Hext. lia.
Qed.

Lemma copy_is_a_copy_witness :
  extended (heap (demo_world ∅)) (heap (snd (loads demo_document (demo_world ∅)))) /\
  denotes (heap (snd (loads demo_document (demo_world ∅))))
    (between (List.length (heap (demo_world ∅)))
             (List.length (heap (snd (loads demo_document (demo_world ∅))))))
    (VRef 11) demo_document /\
  fst (dumps (VRef 11) (snd (loads demo_document (demo_world ∅)))) = Ok demo_document /\
  fst (dumps demo_reservation (snd (loads demo_document (demo_world ∅)))) = Ok demo_document.
Proof.
  apply (copy_is_a_copy demo_reservation (demo_world ∅) demo_document (VRef 11)).
  - vm_compute. reflexivity.
  - vm_compute. reflexivity.
Defined.

Lemma no_address_is_pending env ref line st w token hosttext conf conftext var_run text :
  sub_token line = Some token ->
  files w !! Path.join (Path.dirname token) "hostname" = Some hosttext ->
  glob_sub (Path.dirname token) w = (Ok [conf], w) ->
  files w !! conf = Some conftext ->
  Py.as_str (regex_result (re_key_rest "var_run") conftext) = Ok var_run ->
  path_exists (Path.join (Path.dirname token) "cluster_info") w = (Ok false, w) ->
  (forall tr cmd, scp_log env tr cmd = Some text) ->
  Py.falsy (regex_result re_fqdn text) = true ->
  Py.falsy (regex_result re_public_ip text) = true ->
  exists w',
    isDagRunning_resource env ref line st w = (Ok (Return DagFalse), w') /\
    files w' = <[Path.join (Path.dirname token) "pragma_boot.log" := text]> (files w) /\
    last (trace w') = Some (EvLog INFO "   No FQDN info available yet").
Proof.
  intros Ht Hhost Hglob Hconf Hrun Hcached Hscp Hf1 Hf2.
  unfold isDagRunning_resource. unfold sub_token in Ht.
  destruct (py_match re_sub_token line) as [matched|]; [|discriminate].
  rewrite Ht.
  unfold bind at 1, lift at 1.
  unfold bind at 1, getRegexFromFile at 1, bind at 1, read_file at 1. rewrite Hhost.
  unfold ret at 1.
  unfold bind at 1. rewrite Hglob.
  unfold bind at 1, lift at 1.
  unfold bind at 1, getRegexFromFile at 1, bind at 1, read_file at 1. rewrite Hconf. unfold ret at 1.
  unfold bind at 1, getRegexFromFile at 1, bind at 1, read_file at 1. rewrite Hconf. unfold ret at 1.
  unfold bind at 1, getRegexFromFile at 1, bind at 1, read_file at 1. rewrite Hconf. unfold ret at 1.
  unfold bind at 1, lift at 1. rewrite Hrun.
  unfold bind at 1. rewrite Hcached. cbn [negb].
  unfold bind at 1, log at 1, emit at 1.
  unfold bind at 1, shell at 1. rewrite Hscp.
  unfold bind at 1, getRegexFromFile at 1, bind at 1, read_file at 1.
  cbn [files add_event set_files]. rewrite lookup_insert_eq. unfold ret at 1.
  rewrite Hf1.
  unfold bind at 1, getRegexFromFile at 1, bind at 1, read_file at 1.
  cbn [files add_event set_files]. rewrite lookup_insert_eq. unfold ret at 1.
  rewrite Hf2.
  unfold bind, log, emit, ret. eexists. split; [reflexivity|].
  split; [reflexivity|]. cbn [trace add_event]. apply last_snoc.
Qed.

Lemma isDagRunning_skips env ref skipped : forall lines st w,
  Forall (fun l => Re.py_match re_sub_token l = None) skipped ->
  for_each (isDagRunning_resource env ref) (skipped ++ lines) st w
  = for_each (isDagRunning_resource env ref) lines st w.
Proof.
  induction skipped as [|l skipped IH]; intros lines st w HF; [reflexivity|].
  apply Forall_cons in HF as [Hl HF]. simpl. unfold bind at 1.
  unfold isDagRunning_resource at 1. rewrite Hl.
  unfold ret at 1. apply IH. exact HF.
Qed.

(** X16. When the log that the scp brings for the first resource that
    dag.sub names has no address, neither as fqdn= nor as a public IP,
    and the resource has no cluster_info yet, isDagRunning returns False:
    the last thing it does is to say that no address is available yet,
    and the only file that has changed is the log that the scp brought;
    no cluster_info is written. *)
Theorem no_address_yet_is_pending env dagDir refNumber w subf skipped line rest
    token hosttext conf conftext var_run text :
  files w !! Path.join dagDir "dag.sub" = Some subf ->
  Str.lines subf = skipped ++ line :: rest ->
  Forall (fun l => Re.py_match re_sub_token l = None) skipped ->
  sub_token line = Some token ->
  files w !! Path.join (Path.dirname token) "hostname" = Some hosttext ->
  glob_sub (Path.dirname token) w = (Ok [conf], w) ->
  files w !! conf = Some conftext ->
  Py.as_str (regex_result (re_key_rest "var_run") conftext) = Ok var_run ->
  path_exists (Path.join (Path.dirname token) "cluster_info") w = (Ok false, w) ->
  (forall tr cmd, scp_log env tr cmd = Some text) ->
  Py.falsy (regex_result re_fqdn text) = true ->
  Py.falsy (regex_result re_public_ip text) = true ->
  exists w',
    isDagRunning env dagDir refNumber w = (Ok DagFalse, w') /\
    files w' = <[Path.join (Path.dirname token) "pragma_boot.log" := text]> (files w) /\
    last (trace w') = Some (EvLog INFO "   No FQDN info available yet").
Proof.
  intros Hsub Hlines Hskip Ht Hhost Hglob Hconf Hrun Hcached Hscp Hf1 Hf2.
  destruct (no_address_is_pending env refNumber line dag_init w token hosttext conf conftext
              var_run text Ht Hhost Hglob Hconf Hrun Hcached Hscp Hf1 Hf2)
    as (w' & Hstep & Hfiles & Hlast).
  exists w'. split; [|split; assumption].
  unfold isDagRunning. unfold bind at 1, read_file. rewrite Hsub, Hlines.
  unfold bind at 1. rewrite (isDagRunning_skips env refNumber skipped _ _ _ Hskip).
  simpl for_each. unfold bind at 1. rewrite Hstep. reflexivity.
Qed.

Lemma no_address_yet_is_pending_witness :
  exists w',
    isDagRunning (env_of 0 (Some "Booting the frontend") answer_ok) dag7 "7"
      (world_of (dag7_files "1")) = (Ok DagFalse, w') /\
    files w' = <[Path.join (Path.dirname "/var/pcc/dag-7/vc1/vc1.sub") "pragma_boot.log"
                 := "Booting the frontend"]> (files (world_of (dag7_files "1"))) /\
    last (trace w') = Some (EvLog INFO "   No FQDN info available yet").
Proof.
  refine (no_address_yet_is_pending (env_of 0 (Some "Booting the frontend") answer_ok)
            dag7 "7" (world_of (dag7_files "1"))
            (" JOB VC1  /var/pcc/dag-7/vc1/vc1.sub" +:+ Str.nl)
            [] (" JOB VC1  /var/pcc/dag-7/vc1/vc1.sub" +:+ Str.nl) []
            "/var/pcc/dag-7/vc1/vc1.sub" "host1.example.org"
            "/var/pcc/dag-7/vc1/vc1.sub"
            (NODE_TEMPLATE "1" "host1.example.org" "4" dag7 "1" "root" "/var/run/pcc")
            "/var/run/pcc" "Booting the frontend" _ _ _ _ _ _ _ _ _ _ _ _).
  - vm_compute. reflexivity.
  - vm_compute. reflexivity.
  - constructor.
  - vm_compute. reflexivity.
  - vm_compute. reflexivity.
  - vm_compute. reflexivity.
  - vm_compute. reflexivity.
  - vm_compute. reflexivity.
  - vm_compute. reflexivity.
  - intros tr cmd. reflexivity.
  - vm_compute. reflexivity.
  - vm_compute. reflexivity.
Defined.

(** A greedy repetition of one-character matches takes every character
    it can, when what follows the pattern then matches. *)
Lemma star_all ml p : forall pre rest n c k x,
  Forall (fun a => cls_match p a = true) pre ->
  match rest with [] => True | a :: _ => cls_match p a = false end ->
  (List.length pre <= n)%nat ->
  k rest c = Some x ->
  star_loop (mt ml (One p)) n (pre ++ rest) c k = Some x.
Proof.
  remember (mt ml (One p)) as m eqn:Hm.
  assert (Hstep : forall a s c k, m (a :: s) c k = if cls_match p a then k s c else None)
    by (subst m; reflexivity).
  assert (Hnil : forall c k, m [] c k = None) by (subst m; reflexivity).
  clear Hm.
  induction pre as [|a pre IH]; intros rest n c k x Hpre Hrest Hn Hk.
  - simpl. destruct n as [|n]; simpl; [exact Hk|].
    destruct rest as [|b rest]; [rewrite Hnil; exact Hk|]. rewrite Hstep, Hrest. exact Hk.
  - apply Forall_cons in Hpre as [Ha Hpre].
    destruct n as [|n]; [simpl in Hn; lia|]. simpl in Hn.
    cbn [star_loop app]. rewrite Hstep, Ha.
    assert (Hlt : (List.length (pre ++ rest) <? List.length (a :: pre ++ rest))%nat = true).
    { apply Nat.ltb_lt. simpl. lia. }
    rewrite Hlt. rewrite (IH rest n c k x Hpre Hrest ltac:(lia) Hk). reflexivity.
Qed.

Lemma of_chars_chars s : Str.of_chars (Str.chars s) = s.
Proof. apply string_of_list_ascii_of_string. Qed.

Lemma chars_of_chars l : Str.chars (Str.of_chars l) = l.
Proof. apply list_ascii_of_string_of_list_ascii. Qed.

(** X17. The record that isDagRunning writes into cluster_info, fqdn=
    and the address, a newline, cnodes= and the nodes, gives the address
    back to the pattern of fqdn= with which the next runs read it, for
    an address without a newline. *)
Theorem cached_address_is_read_back fqdn cnodes :
  Forall (fun a => a <> Str.nl_char) (Str.chars fqdn) ->
  regex_result re_cached_fqdn ("fqdn=" +:+ fqdn +:+ Str.nl +:+ "cnodes=" +:+ cnodes)
  = RxStr fqdn.
Proof.
  intros Hf. unfold regex_result, Re.search.
  assert (Hs : Str.chars ("fqdn=" +:+ fqdn +:+ Str.nl +:+ "cnodes=" +:+ cnodes)
               = Str.chars "fqdn=" ++ Str.chars fqdn ++
                 Str.nl_char :: Str.chars ("cnodes=" +:+ cnodes)).
  { rewrite !chars_app. reflexivity. }
  rewrite Hs. cbn [Str.chars list_ascii_of_string app].
  assert (Hm : match_at true re_cached_fqdn
                 ("f" :: "q" :: "d" :: "n" :: "=" :: Str.chars fqdn ++
                  Str.nl_char :: Str.chars ("cnodes=" +:+ cnodes))%char
               = Some [Some fqdn]).
  { unfold match_at, re_cached_fqdn. cbn [lit mt cls_match atom_match Ascii.eqb Bool.eqb].
    cbn [mt].
    refine (star_all true (Atom Dot) (Str.chars fqdn) _ _ _ _ _ _ _ _ _).
    - eapply Forall_impl; [exact Hf|]. intros a Ha. cbn.
      apply negb_true_iff, Ascii.eqb_neq. exact Ha.
    - cbn. reflexivity.
    - rewrite length_app. lia.
    - cbv beta. rewrite length_app.
      replace (List.length (Str.chars fqdn) + _ - _)%nat with (List.length (Str.chars fqdn)) by (simpl; lia).
      rewrite take_app_length, of_chars_chars. reflexivity. }
  cbn [search_go]. rewrite Hm. reflexivity.
Qed.

Lemma cached_address_is_read_back_witness :
  regex_result re_cached_fqdn
    ("fqdn=" +:+ "cluster1.example.org" +:+ Str.nl +:+ "cnodes=" +:+ "node1 node2")
  = RxStr "cluster1.example.org".
Proof.
  apply (cached_address_is_read_back "cluster1.example.org" "node1 node2").
  vm_compute. repeat (constructor; [discriminate|]). constructor.
Defined.

Lemma cnodes_match_starts t x :
  match_at true re_cached_cnodes t = Some x -> nth 6 t "000"%char = "="%char.
Proof.
  unfold match_at, re_cached_cnodes. cbn [lit mt cls_match atom_match].
  destruct t as [|a0 t]; [discriminate|]. destruct (Ascii.eqb a0 _); [|discriminate].
  destruct t as [|a1 t]; [discriminate|]. destruct (Ascii.eqb a1 _); [|discriminate].
  destruct t as [|a2 t]; [discriminate|]. destruct (Ascii.eqb a2 _); [|discriminate].
  destruct t as [|a3 t]; [discriminate|]. destruct (Ascii.eqb a3 _); [|discriminate].
  destruct t as [|a4 t]; [discriminate|]. destruct (Ascii.eqb a4 _); [|discriminate].
  destruct t as [|a5 t]; [discriminate|]. destruct (Ascii.eqb a5 _); [|discriminate].
  destruct t as [|a6 t]; [discriminate|]. destruct (Ascii.eqb a6 _) eqn:E; [|discriminate].
  intros _. apply Ascii.eqb_eq in E. exact E.
Qed.

Lemma cnodes_search_skips pre : forall s x,
  (forall i, (i < List.length pre)%nat -> nth (i + 6) (pre ++ s) "000"%char <> "="%char) ->
  match_at true re_cached_cnodes s = Some x ->
  search_go true re_cached_cnodes (pre ++ s) = Some x.
Proof.
  induction pre as [|a pre IH]; intros s x Hpre Hm.
  - destruct s; cbn [app search_go]; rewrite Hm; reflexivity.
  - cbn [app search_go].
    destruct (match_at true re_cached_cnodes (a :: pre ++ s)) as [y|] eqn:E.
    + apply cnodes_match_starts in E. destruct (Hpre 0%nat ltac:(simpl; lia) E).
    + apply IH; [|exact Hm]. intros i Hi.
      specialize (Hpre (S i) ltac:(simpl; lia)). exact Hpre.
Qed.

(** X18. The record that isDagRunning writes into cluster_info gives
    the nodes back to the pattern of cnodes= with which the next runs
    read them, for an address without an equals sign and nodes without a
    newline. *)
Theorem cached_nodes_are_read_back fqdn cnodes :
  Forall (fun a => a <> "="%char) (Str.chars fqdn) ->
  Forall (fun a => a <> Str.nl_char) (Str.chars cnodes) ->
  regex_result re_cached_cnodes ("fqdn=" +:+ fqdn +:+ Str.nl +:+ "cnodes=" +:+ cnodes)
  = RxStr cnodes.
Proof.
  intros Hf Hc. unfold regex_result, Re.search.
  assert (Hs : Str.chars ("fqdn=" +:+ fqdn +:+ Str.nl +:+ "cnodes=" +:+ cnodes)
               = (Str.chars "fqdn=" ++ Str.chars fqdn ++ [Str.nl_char]) ++
                 Str.chars "cnodes=" ++ Str.chars cnodes ++ []).
  { rewrite !chars_app, app_nil_r, <- !app_assoc. reflexivity. }
  rewrite Hs.
  assert (Hm : match_at true re_cached_cnodes (Str.chars "cnodes=" ++ Str.chars cnodes ++ [])
               = Some [Some cnodes]).
  { unfold match_at, re_cached_cnodes.
    cbn [Str.chars list_ascii_of_string app lit mt cls_match atom_match Ascii.eqb Bool.eqb].
    cbn [mt].
    refine (star_all true (Atom Dot) (Str.chars cnodes) [] _ _ _ _ _ _ _ _).
    - eapply Forall_impl; [exact Hc|]. intros a Ha. cbn.
      apply negb_true_iff, Ascii.eqb_neq. exact Ha.
    - exact I.
    - rewrite length_app. lia.
    - cbv beta. rewrite length_app.
      replace (List.length (Str.chars cnodes) + _ - _)%nat
        with (List.length (Str.chars cnodes)) by (simpl; lia).
      rewrite take_app_length, of_chars_chars. reflexivity. }
  rewrite (fun H => cnodes_search_skips _ _ _ H Hm); [reflexivity|].
  intros i Hi. rewrite !length_app in Hi. cbn [Str.chars list_ascii_of_string List.length] in Hi.
  cbn [Str.chars list_ascii_of_string app].
  replace (i + 6)%nat with (S (S (S (S (S (S i)))))) by lia. cbn [nth].
  rewrite <- !app_assoc. cbn [app].
  destruct (Nat.lt_ge_cases (S i) (List.length (Str.chars fqdn))) as [Hlt|Hge].
  - rewrite app_nth1 by exact Hlt. rewrite Forall_forall in Hf.
    apply Hf. apply list_elem_of_In. apply nth_In. exact Hlt.
  - rewrite app_nth2 by exact Hge.
    remember (S i - List.length (Str.chars fqdn))%nat as j eqn:Ej.
    assert (Hj : (j < 7)%nat) by lia.
    do 7 (destruct j as [|j]; [cbn; discriminate|]). lia.
Qed.

Lemma cached_nodes_are_read_back_witness :
  regex_result re_cached_cnodes
    ("fqdn=" +:+ "cluster1.example.org" +:+ Str.nl +:+ "cnodes=" +:+ "node1 node2")
  = RxStr "node1 node2".
Proof.
  apply (cached_nodes_are_read_back "cluster1.example.org" "node1 node2").
  - vm_compute. repeat (constructor; [discriminate|]). constructor.
  - vm_compute. repeat (constructor; [discriminate|]). constructor.
Defined.

(** A greedy repetition first goes as far as it can: what it finds from
    a later position, it finds from an earlier one. *)
Lemma star_reach ml p : forall pre rest n c k x,
  Forall (fun a => cls_match p a = true) pre ->
  (List.length pre <= n)%nat ->
  star_loop (mt ml (One p)) (n - List.length pre) rest c k = Some x ->
  star_loop (mt ml (One p)) n (pre ++ rest) c k = Some x.
Proof.
  remember (mt ml (One p)) as m eqn:Hm.
  assert (Hstep : forall a s c k, m (a :: s) c k = if cls_match p a then k s c else None)
    by (subst m; reflexivity).
  clear Hm.
  induction pre as [|a pre IH]; intros rest n c k x Hpre Hn Hk.
  - simpl in *. rewrite Nat.sub_0_r in Hk. exact Hk.
  - apply Forall_cons in Hpre as [Ha Hpre].
    destruct n as [|n]; [simpl in Hn; lia|]. simpl in Hn, Hk.
    cbn [star_loop app]. rewrite Hstep, Ha.
    assert (Hlt : (List.length (pre ++ rest) <? List.length (a :: pre ++ rest))%nat = true).
    { apply Nat.ltb_lt. simpl. lia. }
    rewrite Hlt. rewrite (IH rest n c k x Hpre ltac:(lia) Hk). reflexivity.
Qed.

Lemma after_dots_word a s c : Ascii.is_space a = false -> after_dots (a :: s) c = None.
Proof. intros H. unfold after_dots. cbn [mt cls_match atom_match]. rewrite H. reflexivity. Qed.

Lemma dots_find_nothing word tail : forall n c,
  Forall (fun a => Ascii.is_space a = false) word ->
  tail = [] \/ tail = [Str.nl_char] ->
  star_loop (mt false (One Dot)) n (word ++ tail) c after_dots = None.
Proof.
  remember (mt false (One Dot)) as m eqn:Hm.
  assert (Hstep : forall a s c k, m (a :: s) c k = if cls_match Dot a then k s c else None)
    by (subst m; reflexivity).
  assert (Hnil : forall c k, m [] c k = None) by (subst m; reflexivity).
  clear Hm.
  induction word as [|a word IH]; intros n c Hw Ht.
  - simpl. destruct Ht as [-> | ->]; destruct n; cbn [star_loop];
      rewrite ?Hnil, ?Hstep; reflexivity.
  - apply Forall_cons in Hw as [Ha Hw]. cbn [app].
    destruct n as [|n]; cbn [star_loop]; [apply after_dots_word; exact Ha|].
    rewrite Hstep. destruct (cls_match Dot a).
    + assert (Hlt : (List.length (word ++ tail) <? List.length (a :: word ++ tail))%nat = true).
      { apply Nat.ltb_lt. simpl. lia. }
      rewrite Hlt, (IH n c Hw Ht). apply after_dots_word. exact Ha.
    + apply after_dots_word. exact Ha.
Qed.

Lemma after_dots_token word tail c :
  word <> [] ->
  Forall (fun a => Ascii.is_space a = false) word ->
  tail = [] \/ tail = [Str.nl_char] ->
  after_dots (" "%char :: word ++ tail) c = Some (<[0%nat := Some (Str.of_chars word)]> c).
Proof.
  intros Hne Hw Ht. unfold after_dots.
  destruct word as [|a word]; [congruence|]. apply Forall_cons in Hw as [Ha Hw].
  cbn [mt cls_match atom_match Ascii.is_space app]. rewrite Ha. cbn [negb].
  refine (star_all false (Atom NWs) word tail _ _ _ _ _ _ _ _).
  - eapply Forall_impl; [exact Hw|]. intros b Hb. cbn. rewrite Hb. reflexivity.
  - destruct Ht as [-> | ->]; [exact I|reflexivity].
  - rewrite length_app. lia.
  - cbv beta.
    replace (List.length (a :: word ++ tail) - List.length tail)%nat
      with (List.length (a :: word)) by (simpl; rewrite length_app; lia).
    change (a :: word ++ tail) with ((a :: word) ++ tail). rewrite take_app_length.
    destruct Ht as [-> | ->]; reflexivity.
Qed.

Lemma star_last_blank rest n c (k : cont) x :
  star_loop (mt false (One Dot)) n rest c k = None ->
  k (" "%char :: rest) c = Some x ->
  star_loop (mt false (One Dot)) (S n) (" "%char :: rest) c k = Some x.
Proof.
  remember (mt false (One Dot)) as m eqn:Hm.
  assert (Hstep : forall a s c k, m (a :: s) c k = if cls_match Dot a then k s c else None)
    by (subst m; reflexivity).
  clear Hm. intros Hnone Hk. cbn [star_loop]. rewrite Hstep.
  change (cls_match Dot " "%char) with true. cbv iota.
  assert (Hlt : (List.length rest <? List.length (" "%char :: rest))%nat = true).
  { apply Nat.ltb_lt. simpl. lia. }
  rewrite Hlt, Hnone. exact Hk.
Qed.

(** X19. The pattern with which the script reads a line of dag.sub
    finds the last word of the line: for a line without a newline inside
    that ends in a blank and a path without white space, with or without
    its closing newline, the path is found. *)
Theorem dag_line_names_its_file pre path tail :
  Forall (fun a => a <> Str.nl_char) (Str.chars pre) ->
  path <> EmptyString ->
  Forall (fun a => Ascii.is_space a = false) (Str.chars path) ->
  tail = EmptyString \/ tail = Str.nl ->
  sub_token (pre +:+ " " +:+ path +:+ tail) = Some path.
Proof.
  intros Hpre Hne Hpath Htail.
  assert (Hne' : Str.chars path <> []).
  { destruct path; [congruence|discriminate]. }
  assert (Ht : Str.chars tail = [] \/ Str.chars tail = [Str.nl_char]).
  { destruct Htail as [-> | ->]; [left|right]; reflexivity. }
  assert (Hm : py_match re_sub_token (pre +:+ " " +:+ path +:+ tail)
               = Some [Some path]).
  { unfold py_match, match_at, re_sub_token. rewrite !chars_app.
    cbn [cat]. cbn [mt]. fold after_dots.
    change (Str.chars " ") with [" "%char]. cbn [app].
    refine (star_reach false (Atom Dot) (Str.chars pre) _ _ _ _ _ _ _ _).
    - eapply Forall_impl; [exact Hpre|]. intros a Ha. cbn.
      apply negb_true_iff, Ascii.eqb_neq. exact Ha.
    - rewrite length_app. lia.
    - rewrite length_app.
      replace (List.length (Str.chars pre) + _ - _)%nat
        with (S (List.length (Str.chars path ++ Str.chars tail))) by (simpl; lia).
      apply star_last_blank; [exact (dots_find_nothing _ _ _ _ Hpath Ht)|].
      etransitivity; [exact (after_dots_token _ _ _ Hne' Hpath Ht)|].
      rewrite of_chars_chars. reflexivity. }
  unfold sub_token. rewrite Hm. reflexivity.
Qed.

Lemma dag_line_names_its_file_witness :
  sub_token (" JOB VC1 " +:+ " " +:+ "/var/pcc/dag-7/vc1/vc1.sub" +:+ Str.nl)
  = Some "/var/pcc/dag-7/vc1/vc1.sub".
Proof.
  apply (dag_line_names_its_file " JOB VC1 " "/var/pcc/dag-7/vc1/vc1.sub" Str.nl).
  - vm_compute. repeat (constructor; [discriminate|]). constructor.
  - discriminate.
  - vm_compute. repeat (constructor; [reflexivity|]). constructor.
  - right. reflexivity.
Defined.
